(** * Readers_Writers: the admission engines of the readers-writer locks

    A shallow embedding of the lock classes of the repository
    (readers_writers.cpp, readers_writers_educational.cpp,
    readers_writers_readers_priority.cpp, readers_writers_fair.cpp,
    readers_writers_monitor.cpp, readers_writers_semaphore.cpp).  The class
    of readers_writers_shared_mutex.cpp only forwards to [std::shared_mutex]
    and has no bookkeeping of its own; it is not embedded.

    Every member function is cut at the points where the calling thread can
    be suspended (a contended [std::mutex::lock], a [condition_variable::wait],
    a [sem_wait] on an exhausted semaphore).  A piece between two such points
    runs without interference on the fields it touches and is embedded as a
    function from the object's fields to an [Outcome]: the fields afterwards,
    the synchronisation calls issued on the way, and how the piece ended.

    Counters are C++ [int]; they are embedded in [Z] and [++]/[--] as +1/-1,
    which is exact as long as the value stays inside the [int] range. *)

From stdpp Require Import base numbers list sets.

(** ** Synchronisation vocabulary *)

(** The [std::mutex] members and the POSIX semaphores ([sem_t]) that occur
    in the lock classes. *)
Inductive Lock :=
| L_mtx | L_resource_mutex | L_monitor_mutex
| Sem_mutex | Sem_write_mutex | Sem_read_mutex.

(** The [std::condition_variable] members; [CV_request p] is the variable
    owned by the fair lock's request object [p]. *)
Inductive CondVar :=
| CV_write_cv | CV_cv | CV_reader_cv | CV_writer_cv | CV_read_cv
| CV_request (p : nat).

(** Calls on synchronisation objects, in program order.  [ReleaseUnowned] is
    an [unlock] of a mutex that is not locked: the caller cannot own it, so
    the precondition of [std::mutex::unlock] is broken. *)
Inductive event :=
| Acquire (l : Lock)
| Release (l : Lock)
| ReleaseUnowned (l : Lock)
| SemWait (l : Lock)
| SemPost (l : Lock)
| NotifyOne (c : CondVar)
| NotifyAll (c : CondVar)
| WaitOn (c : CondVar)
| Yield
| SleepMs (ms : Z).

Inductive lock_state := Unlocked | Locked.

#[global] Instance Lock_eq_dec : EqDecision Lock.
Proof. solve_decision. Defined.
#[global] Instance CondVar_eq_dec : EqDecision CondVar.
Proof. solve_decision. Defined.
#[global] Instance event_eq_dec : EqDecision event.
Proof. solve_decision. Defined.
#[global] Instance lock_state_eq_dec : EqDecision lock_state.
Proof. solve_decision. Defined.

(** How a piece of a member function ends. *)
Inductive Outcome (St A : Type) :=
| Returned (a : A) (s : St) (tr : list event)
    (* ran to the end of the function, with result [a] *)
| Waiting (c : CondVar) (s : St) (tr : list event)
    (* suspended in [c.wait(lock)]; the bookkeeping mutex was released *)
| Blocked (l : Lock) (s : St) (tr : list event).
    (* suspended in [l.lock()] or [sem_wait(&l)]; whatever the thread
       acquired before stays acquired *)

Arguments Returned {St A} a s tr.
Arguments Waiting {St A} c s tr.
Arguments Blocked {St A} l s tr.

Definition M (St A : Type) := St -> Outcome St A.

Section Pieces.
Context {St : Type}.

Definition state_of {A} (o : Outcome St A) : St :=
  match o with Returned _ s _ | Waiting _ s _ | Blocked _ s _ => s end.

Definition trace_of {A} (o : Outcome St A) : list event :=
  match o with Returned _ _ t | Waiting _ _ t | Blocked _ _ t => t end.

Definition returned {A} (o : Outcome St A) : bool :=
  match o with Returned _ _ _ => true | _ => false end.

(** The piece got past its [wait]: it was not suspended on a condition
    variable. *)
Definition past_wait {A} (o : Outcome St A) : bool :=
  match o with Waiting _ _ _ => false | _ => true end.

Definition result_of {A} (o : Outcome St A) : option A :=
  match o with Returned a _ _ => Some a | _ => None end.

Definition after {A} (t : list event) (o : Outcome St A) : Outcome St A :=
  match o with
  | Returned a s t' => Returned a s (t ++ t')
  | Waiting c s t' => Waiting c s (t ++ t')
  | Blocked l s t' => Blocked l s (t ++ t')
  end.

Definition ret {A} (a : A) : M St A := fun s => Returned a s [].
Definition skip : M St unit := ret tt.

(** Sequencing: what follows runs only if the statement before it was not
    suspended. *)
Definition bind {A B} (c : M St A) (k : A -> M St B) : M St B := fun s =>
  match c s with
  | Returned a s1 t1 => after t1 (k a s1)
  | Waiting cv s1 t1 => Waiting cv s1 t1
  | Blocked l s1 t1 => Blocked l s1 t1
  end.

Definition and_then {B} (c1 : M St unit) (c2 : M St B) : M St B :=
  bind c1 (fun _ => c2).

Definition gets {A} (f : St -> A) : M St A := fun s => Returned (f s) s [].

Definition modify (f : St -> St) : M St unit := fun s => Returned tt (f s) [].

Definition when_ (b : St -> bool) (c : M St unit) : M St unit := fun s =>
  if b s then c s else skip s.

Definition if_ {A} (b : St -> bool) (c1 c2 : M St A) : M St A := fun s =>
  if b s then c1 s else c2 s.

Definition call (e : event) : M St unit := fun s => Returned tt s [e].

(** [m.lock()] on the mutex stored in the field read by [get]. *)
Definition mutex_lock (l : Lock) (get : St -> lock_state)
    (set : lock_state -> St -> St) : M St unit := fun s =>
  match get s with
  | Unlocked => Returned tt (set Locked s) [Acquire l]
  | Locked => Blocked l s []
  end.

(** [m.unlock()].  On a mutex that is not locked the C++ standard leaves
    the behaviour undefined; the call is recorded as [ReleaseUnowned] and
    the mutex stays unlocked. *)
Definition mutex_unlock (l : Lock) (get : St -> lock_state)
    (set : lock_state -> St -> St) : M St unit := fun s =>
  match get s with
  | Locked => Returned tt (set Unlocked s) [Release l]
  | Unlocked => Returned tt s [ReleaseUnowned l]
  end.

(** [sem_wait(&l)]: take one unit, or suspend while there is none. *)
Definition sem_wait (l : Lock) (get : St -> Z) (set : Z -> St -> St)
    : M St unit := fun s =>
  if (0 <? get s)%Z then Returned tt (set (get s - 1)%Z s) [SemWait l]
  else Blocked l s [].

(** [sem_post(&l)]. *)
Definition sem_post (l : Lock) (get : St -> Z) (set : Z -> St -> St)
    : M St unit := fun s =>
  Returned tt (set (get s + 1)%Z s) [SemPost l].

(** One round of [while (!pred()) c.wait(lock);], which is what
    [c.wait(lock, pred)] is: go on if the predicate holds, otherwise
    release the mutex and suspend.  A woken thread re-enters the function
    at its wake piece, which locks the mutex and runs this again. *)
Definition cv_wait (c : CondVar) (unlock : M St unit) (pred : St -> bool)
    : M St unit := fun s =>
  if pred s then skip s
  else match unlock s with
       | Returned _ s' t => Waiting c s' (t ++ [WaitOn c])
       | o => o
       end.
End Pieces.

Declare Scope piece_scope.
Delimit Scope piece_scope with piece.
Bind Scope piece_scope with M.
Notation "c1 ;; c2" := (and_then c1 c2)
  (at level 100, c2 at level 200, right associativity) : piece_scope.
Notation "'let*' x := c 'in' k" := (bind c (fun x => k))
  (at level 10, x name, c at level 100, k at level 200) : piece_scope.
Open Scope piece_scope.


(** Number of threads that the notifications of [tr] take out of the wait
    set of [c], when [w c'] threads are suspended on each [c']:
    [notify_one] resumes one suspended thread if there is one,
    [notify_all] resumes all of them. *)
Fixpoint woken (tr : list event) (w : CondVar -> nat) (c : CondVar) : nat :=
  match tr with
  | [] => 0
  | NotifyOne c' :: tr' =>
      (if decide (c' = c) then Nat.min 1 (w c) else 0)
      + woken tr' (fun x => if decide (x = c') then Nat.pred (w x) else w x) c
  | NotifyAll c' :: tr' =>
      (if decide (c' = c) then w c else 0)
      + woken tr' (fun x => if decide (x = c') then 0 else w x) c
  | _ :: tr' => woken tr' w c
  end.

(** The notifications of a trace, in program order. *)
Definition is_notify (e : event) : bool :=
  match e with NotifyOne _ | NotifyAll _ => true | _ => false end.
Definition notifications (tr : list event) : list event :=
  filter (fun e => is_notify e = true) tr.

(** The exclusivity predicate of the bookkeeping. *)
Definition exclusive (active_readers : Z) (writer_active : bool) : Prop :=
  ~ (writer_active = true /\ (0 < active_readers)%Z).

(** ** WriterPreference: [ReadersWriterLock] of readers_writers.cpp *)
Module WriterPreference.

Record state := mk {
  mtx : lock_state;
  resource_mutex : lock_state;
  reader_count : Z;
  writer_active : bool;
  waiting_writers : Z
}.

Definition init : state := mk Unlocked Unlocked 0 false 0.

Definition set_mtx v s := mk v (resource_mutex s) (reader_count s) (writer_active s) (waiting_writers s).
Definition set_resource_mutex v s := mk (mtx s) v (reader_count s) (writer_active s) (waiting_writers s).
Definition set_reader_count v s := mk (mtx s) (resource_mutex s) v (writer_active s) (waiting_writers s).
Definition set_writer_active v s := mk (mtx s) (resource_mutex s) (reader_count s) v (waiting_writers s).
Definition set_waiting_writers v s := mk (mtx s) (resource_mutex s) (reader_count s) (writer_active s) v.

Definition lock_mtx := mutex_lock L_mtx mtx set_mtx.
Definition unlock_mtx := mutex_unlock L_mtx mtx set_mtx.
Definition lock_resource := mutex_lock L_resource_mutex resource_mutex set_resource_mutex.
Definition unlock_resource := mutex_unlock L_resource_mutex resource_mutex set_resource_mutex.

(** The two lambdas passed to [write_cv.wait]. *)
Definition read_pred (s : state) : bool :=
  negb (writer_active s) && (waiting_writers s =? 0)%Z.
Definition write_pred (s : state) : bool :=
  (reader_count s =? 0)%Z && negb (writer_active s).

(** [read_lock], entered from the call and re-entered after every wake-up
    (nothing precedes the wait but the locking of [mtx]). *)
Definition read_lock : M state unit :=
  lock_mtx ;;
  cv_wait CV_write_cv unlock_mtx read_pred ;;
  modify (fun s => set_reader_count (reader_count s + 1) s) ;;
  when_ (fun s => (reader_count s =? 1)%Z) lock_resource ;;
  unlock_mtx.

(** Where a first reader goes on once [resource_mutex] is free. *)
Definition read_lock_resource : M state unit :=
  lock_resource ;; unlock_mtx.

Definition read_unlock : M state unit :=
  lock_mtx ;;
  modify (fun s => set_reader_count (reader_count s - 1) s) ;;
  when_ (fun s => (reader_count s =? 0)%Z)
    (unlock_resource ;; call (NotifyAll CV_write_cv)) ;;
  unlock_mtx.

Definition write_lock_wait : M state unit :=
  cv_wait CV_write_cv unlock_mtx write_pred ;;
  modify (set_writer_active true) ;;
  modify (fun s => set_waiting_writers (waiting_writers s - 1) s) ;;
  unlock_mtx ;;
  lock_resource.

Definition write_lock : M state unit :=
  lock_mtx ;;
  modify (fun s => set_waiting_writers (waiting_writers s + 1) s) ;;
  write_lock_wait.

(** A writer woken from [write_cv.wait]. *)
Definition write_lock_wake : M state unit :=
  lock_mtx ;; write_lock_wait.

(** A writer that found [resource_mutex] taken, once it is free. *)
Definition write_lock_resource : M state unit := lock_resource.

(** [write_unlock] gives up [mtx] before it unlocks [resource_mutex]; other
    threads can run in between, hence two pieces. *)
Definition write_unlock_flag : M state unit :=
  lock_mtx ;; modify (set_writer_active false) ;; unlock_mtx.
Definition write_unlock_resource : M state unit :=
  unlock_resource ;; call (NotifyAll CV_write_cv).
Definition write_unlock : M state unit :=
  write_unlock_flag ;; write_unlock_resource.

Inductive piece : M state unit -> Prop :=
| p_read_lock : piece read_lock
| p_read_lock_resource : piece read_lock_resource
| p_read_unlock : piece read_unlock
| p_write_lock : piece write_lock
| p_write_lock_wake : piece write_lock_wake
| p_write_lock_resource : piece write_lock_resource
| p_write_unlock_flag : piece write_unlock_flag
| p_write_unlock_resource : piece write_unlock_resource.

Definition step (s s' : state) : Prop :=
  exists f, piece f /\ s' = state_of (f s).

End WriterPreference.

(** ** WriterPreference, second copy: [ReadersWriterLock] of
    readers_writers_educational.cpp (one condition variable, no
    [resource_mutex]) *)
Module Educational.

Record state := mk {
  mtx : lock_state;
  reader_count : Z;
  writer_active : bool;
  waiting_writers : Z
}.

Definition init : state := mk Unlocked 0 false 0.

Definition set_mtx v s := mk v (reader_count s) (writer_active s) (waiting_writers s).
Definition set_reader_count v s := mk (mtx s) v (writer_active s) (waiting_writers s).
Definition set_writer_active v s := mk (mtx s) (reader_count s) v (waiting_writers s).
Definition set_waiting_writers v s := mk (mtx s) (reader_count s) (writer_active s) v.

Definition lock_mtx := mutex_lock L_mtx mtx set_mtx.
Definition unlock_mtx := mutex_unlock L_mtx mtx set_mtx.

Definition read_pred (s : state) : bool :=
  negb (writer_active s) && (waiting_writers s =? 0)%Z.
Definition write_pred (s : state) : bool :=
  (reader_count s =? 0)%Z && negb (writer_active s).

(** The [unique_lock] is released by its destructor at the end of each
    function. *)
Definition read_lock : M state unit :=
  lock_mtx ;;
  cv_wait CV_cv unlock_mtx read_pred ;;
  modify (fun s => set_reader_count (reader_count s + 1) s) ;;
  unlock_mtx.

Definition read_unlock : M state unit :=
  lock_mtx ;;
  modify (fun s => set_reader_count (reader_count s - 1) s) ;;
  when_ (fun s => (reader_count s =? 0)%Z && (0 <? waiting_writers s)%Z)
    (call (NotifyAll CV_cv)) ;;
  unlock_mtx.

Definition write_lock_wait : M state unit :=
  cv_wait CV_cv unlock_mtx write_pred ;;
  modify (fun s => set_waiting_writers (waiting_writers s - 1) s) ;;
  modify (set_writer_active true) ;;
  unlock_mtx.

Definition write_lock : M state unit :=
  lock_mtx ;;
  modify (fun s => set_waiting_writers (waiting_writers s + 1) s) ;;
  write_lock_wait.

Definition write_lock_wake : M state unit :=
  lock_mtx ;; write_lock_wait.

Definition write_unlock : M state unit :=
  lock_mtx ;;
  modify (set_writer_active false) ;;
  call (NotifyAll CV_cv) ;;
  unlock_mtx.

Inductive piece : M state unit -> Prop :=
| p_read_lock : piece read_lock
| p_read_unlock : piece read_unlock
| p_write_lock : piece write_lock
| p_write_lock_wake : piece write_lock_wake
| p_write_unlock : piece write_unlock.

Definition step (s s' : state) : Prop :=
  exists f, piece f /\ s' = state_of (f s).

End Educational.

(** ** ReaderPreference: [ReadersWriterLock] of
    readers_writers_readers_priority.cpp *)
Module ReaderPreference.

Record state := mk {
  mtx : lock_state;
  resource_mutex : lock_state;
  reader_count : Z;
  writer_active : bool
}.

Definition init : state := mk Unlocked Unlocked 0 false.

Definition set_mtx v s := mk v (resource_mutex s) (reader_count s) (writer_active s).
Definition set_resource_mutex v s := mk (mtx s) v (reader_count s) (writer_active s).
Definition set_reader_count v s := mk (mtx s) (resource_mutex s) v (writer_active s).
Definition set_writer_active v s := mk (mtx s) (resource_mutex s) (reader_count s) v.

Definition lock_mtx := mutex_lock L_mtx mtx set_mtx.
Definition unlock_mtx := mutex_unlock L_mtx mtx set_mtx.
Definition lock_resource := mutex_lock L_resource_mutex resource_mutex set_resource_mutex.
Definition unlock_resource := mutex_unlock L_resource_mutex resource_mutex set_resource_mutex.

Definition read_pred (s : state) : bool := negb (writer_active s).
Definition write_pred (s : state) : bool :=
  (reader_count s =? 0)%Z && negb (writer_active s).

Definition read_lock : M state unit :=
  lock_mtx ;;
  cv_wait CV_reader_cv unlock_mtx read_pred ;;
  modify (fun s => set_reader_count (reader_count s + 1) s) ;;
  when_ (fun s => (reader_count s =? 1)%Z) lock_resource ;;
  unlock_mtx.

Definition read_lock_resource : M state unit :=
  lock_resource ;; unlock_mtx.

Definition read_unlock : M state unit :=
  lock_mtx ;;
  modify (fun s => set_reader_count (reader_count s - 1) s) ;;
  when_ (fun s => (reader_count s =? 0)%Z)
    (unlock_resource ;; call (NotifyOne CV_writer_cv)) ;;
  unlock_mtx.

(** Nothing precedes the wait in [write_lock], so a woken writer re-enters
    at the top. *)
Definition write_lock : M state unit :=
  lock_mtx ;;
  cv_wait CV_writer_cv unlock_mtx write_pred ;;
  modify (set_writer_active true) ;;
  unlock_mtx ;;
  lock_resource.

Definition write_lock_resource : M state unit := lock_resource.

Definition write_unlock_flag : M state unit :=
  lock_mtx ;; modify (set_writer_active false) ;; unlock_mtx.
Definition write_unlock_resource : M state unit :=
  unlock_resource ;;
  call (NotifyAll CV_reader_cv) ;;
  call (NotifyOne CV_writer_cv).
Definition write_unlock : M state unit :=
  write_unlock_flag ;; write_unlock_resource.

Inductive piece : M state unit -> Prop :=
| p_read_lock : piece read_lock
| p_read_lock_resource : piece read_lock_resource
| p_read_unlock : piece read_unlock
| p_write_lock : piece write_lock
| p_write_lock_resource : piece write_lock_resource
| p_write_unlock_flag : piece write_unlock_flag
| p_write_unlock_resource : piece write_unlock_resource.

Definition step (s s' : state) : Prop :=
  exists f, piece f /\ s' = state_of (f s).

End ReaderPreference.

(** ** MonitorStyle: [ReadersWriterMonitor] of readers_writers_monitor.cpp *)
Module Monitor.

Record state := mk {
  monitor_mutex : lock_state;
  reader_count : Z;
  writer_active : bool;
  waiting_readers : Z;
  waiting_writers : Z
}.

Definition init : state := mk Unlocked 0 false 0 0.

Definition set_monitor_mutex v s := mk v (reader_count s) (writer_active s) (waiting_readers s) (waiting_writers s).
Definition set_reader_count v s := mk (monitor_mutex s) v (writer_active s) (waiting_readers s) (waiting_writers s).
Definition set_writer_active v s := mk (monitor_mutex s) (reader_count s) v (waiting_readers s) (waiting_writers s).
Definition set_waiting_readers v s := mk (monitor_mutex s) (reader_count s) (writer_active s) v (waiting_writers s).
Definition set_waiting_writers v s := mk (monitor_mutex s) (reader_count s) (writer_active s) (waiting_readers s) v.

Definition lock_monitor := mutex_lock L_monitor_mutex monitor_mutex set_monitor_mutex.
Definition unlock_monitor := mutex_unlock L_monitor_mutex monitor_mutex set_monitor_mutex.

(** The conditions of the two [while (...) wait] loops. *)
Definition read_must_wait (s : state) : bool :=
  writer_active s || (0 <? waiting_writers s)%Z.
Definition write_must_wait (s : state) : bool :=
  (0 <? reader_count s)%Z || writer_active s.

Definition start_read_wait : M state unit :=
  cv_wait CV_read_cv unlock_monitor (fun s => negb (read_must_wait s)) ;;
  modify (fun s => set_waiting_readers (waiting_readers s - 1) s) ;;
  modify (fun s => set_reader_count (reader_count s + 1) s) ;;
  call (NotifyOne CV_read_cv) ;;
  unlock_monitor.

Definition start_read : M state unit :=
  lock_monitor ;;
  modify (fun s => set_waiting_readers (waiting_readers s + 1) s) ;;
  start_read_wait.

Definition start_read_wake : M state unit :=
  lock_monitor ;; start_read_wait.

Definition end_read : M state unit :=
  lock_monitor ;;
  modify (fun s => set_reader_count (reader_count s - 1) s) ;;
  when_ (fun s => (reader_count s =? 0)%Z && (0 <? waiting_writers s)%Z)
    (call (NotifyOne CV_write_cv)) ;;
  unlock_monitor.

Definition start_write_wait : M state unit :=
  cv_wait CV_write_cv unlock_monitor (fun s => negb (write_must_wait s)) ;;
  modify (fun s => set_waiting_writers (waiting_writers s - 1) s) ;;
  modify (set_writer_active true) ;;
  unlock_monitor.

Definition start_write : M state unit :=
  lock_monitor ;;
  modify (fun s => set_waiting_writers (waiting_writers s + 1) s) ;;
  start_write_wait.

Definition start_write_wake : M state unit :=
  lock_monitor ;; start_write_wait.

Definition end_write : M state unit :=
  lock_monitor ;;
  modify (set_writer_active false) ;;
  if_ (fun s => (0 <? waiting_writers s)%Z)
    (call (NotifyOne CV_write_cv))
    (when_ (fun s => (0 <? waiting_readers s)%Z)
       (call (NotifyAll CV_read_cv))) ;;
  unlock_monitor.

(** [get_state]: the four [int&] out-parameters are the result, in the
    order [readers, writers, w_readers, w_writers]; the [lock_guard] is
    released on return. *)
Definition get_state : M state (Z * Z * Z * Z) :=
  lock_monitor ;;
  let* readers := gets reader_count in
  let* writers := gets (fun s => if writer_active s then 1%Z else 0%Z) in
  let* w_readers := gets waiting_readers in
  let* w_writers := gets waiting_writers in
  unlock_monitor ;;
  ret (readers, writers, w_readers, w_writers).

(** The fields the monitor shares with the writer-preference lock. *)
Definition as_writer_preference (s : state) : Educational.state :=
  Educational.mk (monitor_mutex s) (reader_count s) (writer_active s)
                 (waiting_writers s).

(** The wake-up rule in the words of the specification: a release resumes
    exactly one waiting writer if any writer is waiting, and otherwise all
    waiting readers.  [w c] threads are suspended on [c]; the result is the
    number of threads resumed on [c]. *)
Definition spec_release_wakes (w : CondVar -> nat) (c : CondVar) : nat :=
  if 0 <? w CV_write_cv
  then (if decide (c = CV_write_cv) then 1 else 0)
  else (if decide (c = CV_read_cv) then w CV_read_cv else 0).

(** Two readers inside and one writer suspended in [start_write]. *)
Definition two_readers_one_writer_waiting : state :=
  state_of (start_write (state_of (start_read (state_of (start_read init))))).

Inductive piece : M state unit -> Prop :=
| p_start_read : piece start_read
| p_start_read_wake : piece start_read_wake
| p_end_read : piece end_read
| p_start_write : piece start_write
| p_start_write_wake : piece start_write_wake
| p_end_write : piece end_write.

Definition step (s s' : state) : Prop :=
  exists f, piece f /\ s' = state_of (f s).

End Monitor.

(** ** FIFOFair: [FairReadersWriterLock] of readers_writers_fair.cpp *)
Module Fair.

Inductive RequestType := READ | WRITE.

(** A [Request] object.  The [shared_ptr]s to it (one in the queue, one in
    the requesting thread) are its address in [requests]; its condition
    variable is [CV_request] of that address. *)
Record Request := mkRequest {
  type : RequestType;
  granted : bool
}.

Record state := mk {
  mtx : lock_state;
  resource_mutex : lock_state;
  requests : list Request;       (* the Request objects, by address *)
  request_queue : list nat;      (* front first *)
  active_readers : Z;
  writer_active : bool
}.

Definition init : state := mk Unlocked Unlocked [] [] 0 false.

Definition set_mtx v s := mk v (resource_mutex s) (requests s) (request_queue s) (active_readers s) (writer_active s).
Definition set_resource_mutex v s := mk (mtx s) v (requests s) (request_queue s) (active_readers s) (writer_active s).
Definition set_requests v s := mk (mtx s) (resource_mutex s) v (request_queue s) (active_readers s) (writer_active s).
Definition set_request_queue v s := mk (mtx s) (resource_mutex s) (requests s) v (active_readers s) (writer_active s).
Definition set_active_readers v s := mk (mtx s) (resource_mutex s) (requests s) (request_queue s) v (writer_active s).
Definition set_writer_active v s := mk (mtx s) (resource_mutex s) (requests s) (request_queue s) (active_readers s) v.

Definition lock_mtx := mutex_lock L_mtx mtx set_mtx.
Definition unlock_mtx := mutex_unlock L_mtx mtx set_mtx.
Definition lock_resource := mutex_lock L_resource_mutex resource_mutex set_resource_mutex.
Definition unlock_resource := mutex_unlock L_resource_mutex resource_mutex set_resource_mutex.

(** [std::make_shared<Request>(t)]: a fresh object with [granted = false]. *)
Definition make_request (t : RequestType) : M state nat := fun s =>
  Returned (length (requests s))
           (set_requests (requests s ++ [mkRequest t false]) s) [].

(** [request_queue.push(p)] and [request_queue.pop()]. *)
Definition push (p : nat) : M state unit :=
  modify (fun s => set_request_queue (request_queue s ++ [p]) s).
Definition pop : M state unit :=
  modify (fun s => set_request_queue (tail (request_queue s)) s).

(** [p->type] and [p->granted]. *)
Definition type_of (s : state) (p : nat) : option RequestType :=
  type <$> requests s !! p.
Definition is_granted (p : nat) (s : state) : bool :=
  match requests s !! p with Some r => granted r | None => false end.

(** [p->granted = true]. *)
Definition set_granted (p : nat) : M state unit :=
  modify (fun s =>
    set_requests (alter (fun r => mkRequest (type r) true) p (requests s)) s).

(** The four statements that grant the read request at the front. *)
Definition grant_read (p : nat) : M state unit :=
  pop ;;
  modify (fun s => set_active_readers (active_readers s + 1) s) ;;
  set_granted p ;;
  call (NotifyOne (CV_request p)).

Definition grant_write (p : nat) : M state unit :=
  pop ;;
  modify (set_writer_active true) ;;
  set_granted p ;;
  call (NotifyOne (CV_request p)).

(** The inner [while (!request_queue.empty() && front()->type == READ)],
    by recursion on the queue it walks: [q] is [request_queue] on entry. *)
Fixpoint grant_following_reads (q : list nat) : M state unit := fun s =>
  match q with
  | [] => skip s
  | p :: q' =>
      match type_of s p with
      | Some READ => (grant_read p ;; grant_following_reads q') s
      | _ => skip s
      end
  end.

Definition process_queue : M state unit := fun s =>
  match request_queue s with
  | [] => skip s
  | p :: q' =>
      match type_of s p with
      | Some READ =>
          when_ (fun s => negb (writer_active s))
            (grant_read p ;; grant_following_reads q') s
      | Some WRITE =>
          when_ (fun s => (active_readers s =? 0)%Z && negb (writer_active s))
            (grant_write p) s
      | None => skip s   (* a queued shared_ptr is never null *)
      end
  end.

(** [read_lock] up to its first suspension; the result is the address of
    the request it created. *)
Definition read_lock : M state nat :=
  lock_mtx ;;
  let* p := make_request READ in
  push p ;;
  process_queue ;;
  cv_wait (CV_request p) unlock_mtx (is_granted p) ;;
  unlock_mtx ;;
  ret p.

(** A thread woken from [request->cv->wait(lock)] re-tests
    [request->granted]. *)
Definition lock_wake (p : nat) : M state unit :=
  lock_mtx ;;
  cv_wait (CV_request p) unlock_mtx (is_granted p) ;;
  unlock_mtx.

Definition read_unlock : M state unit :=
  lock_mtx ;;
  modify (fun s => set_active_readers (active_readers s - 1) s) ;;
  when_ (fun s => (active_readers s =? 0)%Z) unlock_resource ;;
  process_queue ;;
  unlock_mtx.

Definition write_lock : M state nat :=
  lock_mtx ;;
  let* p := make_request WRITE in
  push p ;;
  process_queue ;;
  cv_wait (CV_request p) unlock_mtx (is_granted p) ;;
  unlock_mtx ;;
  lock_resource ;;
  ret p.

Definition write_lock_wake (p : nat) : M state unit :=
  lock_wake p ;; lock_resource.

Definition write_lock_resource : M state unit := lock_resource.

Definition write_unlock : M state unit :=
  lock_mtx ;;
  modify (set_writer_active false) ;;
  unlock_resource ;;
  process_queue ;;
  unlock_mtx.

(** [queue_size], under a [lock_guard] on [mtx]. *)
Definition queue_size : M state nat :=
  lock_mtx ;;
  let* n := gets (fun s => length (request_queue s)) in
  unlock_mtx ;;
  ret n.

(** The front run of read requests of a queue [q]: the addresses the inner
    loop walks over before it stops. *)
Fixpoint read_run (rs : list Request) (q : list nat) : list nat :=
  match q with
  | [] => []
  | p :: q' =>
      match type <$> rs !! p with
      | Some READ => p :: read_run rs q'
      | _ => []
      end
  end.

(** The requests of [ps] marked granted, and the notifications issued. *)
Definition grant_all (ps : list nat) (rs : list Request) : list Request :=
  foldl (fun rs p => alter (fun r => mkRequest (type r) true) p rs) rs ps.
Definition notify_each (ps : list nat) : list event :=
  map (fun p => NotifyOne (CV_request p)) ps.

(** The requests one run of [process_queue] grants, front first. *)
Definition granted_now (s : state) : list nat :=
  match request_queue s with
  | [] => []
  | p :: q' =>
      match type_of s p with
      | Some READ =>
          if negb (writer_active s) then p :: read_run (requests s) q' else []
      | Some WRITE =>
          if (active_readers s =? 0)%Z && negb (writer_active s) then [p] else []
      | None => []
      end
  end.

(** Requests are created in arrival order, so the address of a request is
    its arrival rank.  The queue and the [granted] flags are in arrival
    order when, for some [k], the requests below [k] are exactly the granted
    ones and the queue holds the others, in increasing order. *)
Definition arrival_ordered (s : state) : Prop :=
  exists k, k <= length (requests s) /\
    request_queue s = seq k (length (requests s) - k) /\
    forall i r, requests s !! i = Some r -> granted r = bool_decide (i < k).

(** The scenario of the specification: a writer holds the lock while two
    readers, a writer and a third reader arrive, in that order, so that the
    queue holds [Read, Read, Write, Read] (requests 1 to 4). *)
Definition scenario_queued : state :=
  state_of (read_lock (state_of (write_lock (state_of (read_lock
    (state_of (read_lock (state_of (write_lock init))))))))).
(** ... the writer leaves, ... *)
Definition scenario_writer_left : state :=
  state_of (write_unlock scenario_queued).
(** ... one of the two readers leaves, then the other, ... *)
Definition scenario_one_reader_left : state :=
  state_of (read_unlock scenario_writer_left).
Definition scenario_readers_left : state :=
  state_of (read_unlock scenario_one_reader_left).
(** ... and the queued writer, woken, takes the resource and leaves. *)
Definition scenario_second_writer_left : state :=
  state_of (write_unlock
    (state_of (write_lock_wake 3 scenario_readers_left))).

Definition fair_exclusive (s : state) : Prop :=
  exclusive (active_readers s) (writer_active s).

(** At least [a] readers are inside. *)
Definition at_least (a : Z) (s : state) : Prop := (a <= active_readers s)%Z.

(** Executions: the pieces that threads run, one after the other. *)
Inductive call :=
| c_read_lock | c_lock_wake (p : nat) | c_read_unlock
| c_write_lock | c_write_lock_wake (p : nat) | c_write_lock_resource
| c_write_unlock.

#[global] Instance call_eq_dec : EqDecision call.
Proof. solve_decision. Defined.

(** The pieces of [read_lock] and [read_unlock]. *)
Definition on_read_path (c : call) : bool :=
  match c with
  | c_read_lock | c_lock_wake _ | c_read_unlock => true
  | _ => false
  end.

Definition perform (c : call) (s : state) : state * list event :=
  match c with
  | c_read_lock => (state_of (read_lock s), trace_of (read_lock s))
  | c_lock_wake p => (state_of (lock_wake p s), trace_of (lock_wake p s))
  | c_read_unlock => (state_of (read_unlock s), trace_of (read_unlock s))
  | c_write_lock => (state_of (write_lock s), trace_of (write_lock s))
  | c_write_lock_wake p =>
      (state_of (write_lock_wake p s), trace_of (write_lock_wake p s))
  | c_write_lock_resource =>
      (state_of (write_lock_resource s), trace_of (write_lock_resource s))
  | c_write_unlock => (state_of (write_unlock s), trace_of (write_unlock s))
  end.

(** The fields after the calls [cs], and for each call the fields it started
    from and the synchronisation calls it issued. *)
Fixpoint final (cs : list call) (s : state) : state :=
  match cs with
  | [] => s
  | c :: cs' => final cs' (fst (perform c s))
  end.

Fixpoint history (cs : list call) (s : state)
    : list (state * call * list event) :=
  match cs with
  | [] => []
  | c :: cs' => (s, c, snd (perform c s)) :: history cs' (fst (perform c s))
  end.

(** [resource_mutex.unlock()] occurs in a trace. *)
Definition unlocks_resource (tr : list event) : Prop :=
  Release L_resource_mutex ∈ tr \/ ReleaseUnowned L_resource_mutex ∈ tr.

Inductive step : state -> state -> Prop :=
| s_read_lock s : step s (state_of (read_lock s))
| s_lock_wake p s : step s (state_of (lock_wake p s))
| s_read_unlock s : step s (state_of (read_unlock s))
| s_write_lock s : step s (state_of (write_lock s))
| s_write_lock_wake p s : step s (state_of (write_lock_wake p s))
| s_write_lock_resource s : step s (state_of (write_lock_resource s))
| s_write_unlock s : step s (state_of (write_unlock s)).

End Fair.

(** ** CountingSemaphore: [ReadersWriterSemaphore] of
    readers_writers_semaphore.cpp *)
Module Semaphore.

Record state := mk {
  mutex : Z;            (* value of the semaphore *)
  write_mutex : Z;
  read_mutex : Z;
  reader_count : Z;
  writer_waiting : bool
}.

(** The constructor: three semaphores at 1, no reader, no waiting writer. *)
Definition init : state := mk 1 1 1 0 false.

Definition set_mutex v s := mk v (write_mutex s) (read_mutex s) (reader_count s) (writer_waiting s).
Definition set_write_mutex v s := mk (mutex s) v (read_mutex s) (reader_count s) (writer_waiting s).
Definition set_read_mutex v s := mk (mutex s) (write_mutex s) v (reader_count s) (writer_waiting s).
Definition set_reader_count v s := mk (mutex s) (write_mutex s) (read_mutex s) v (writer_waiting s).
Definition set_writer_waiting v s := mk (mutex s) (write_mutex s) (read_mutex s) (reader_count s) v.

Definition wait_mutex := sem_wait Sem_mutex mutex set_mutex.
Definition post_mutex := sem_post Sem_mutex mutex set_mutex.
Definition wait_write_mutex := sem_wait Sem_write_mutex write_mutex set_write_mutex.
Definition post_write_mutex := sem_post Sem_write_mutex write_mutex set_write_mutex.
Definition wait_read_mutex := sem_wait Sem_read_mutex read_mutex set_read_mutex.
Definition post_read_mutex := sem_post Sem_read_mutex read_mutex set_read_mutex.

(** [writer_lock]: announce, take [write_mutex], withdraw the announcement.
    Other threads can run between the three. *)
Definition writer_lock_announce : M state unit :=
  wait_mutex ;; modify (set_writer_waiting true) ;; post_mutex.
Definition writer_lock_take : M state unit := wait_write_mutex.
Definition writer_lock_clear : M state unit :=
  wait_mutex ;; modify (set_writer_waiting false) ;; post_mutex.
Definition writer_lock : M state unit :=
  writer_lock_announce ;; writer_lock_take ;; writer_lock_clear.

Definition writer_unlock : M state unit := post_write_mutex.

(** One pass through the body of [reader_lock], up to the final
    [if (should_wait)]; the result is the local [should_wait]. *)
Definition reader_lock_pass : M state bool :=
  wait_read_mutex ;;
  wait_mutex ;;
  let* should_wait := gets writer_waiting in
  when_ (fun _ => negb should_wait)
    (modify (fun s => set_reader_count (reader_count s + 1) s) ;;
     when_ (fun s => (reader_count s =? 1)%Z) wait_write_mutex) ;;
  post_mutex ;;
  post_read_mutex ;;
  ret should_wait.

(** Where a first reader goes on once it has [write_mutex]. *)
Definition reader_lock_resume : M state unit :=
  wait_write_mutex ;; post_mutex ;; post_read_mutex.

(** The tail of a retrying pass: [yield], [sleep_for(10ms)]. *)
Definition backoff : list event := [Yield; SleepMs 10].

(** How a call of [reader_lock] stands after a number of passes. *)
Inductive Run :=
| Acquired (s : state) (passes : nat) (tr : list event)
    (* returned after this many passes *)
| Suspended (l : Lock) (s : state) (tr : list event)
    (* a pass is held up in [sem_wait] *)
| Retrying (s : state) (tr : list event).
    (* still calling itself when the passes looked at were used up *)

(** [reader_lock]: a pass, and if [should_wait], back off and call itself.
    While the thread sleeps the other threads run; [others 0] is what they
    do to the fields between this pass and the next, [others 1] between the
    next two, and so on.  [n] bounds the number of passes looked at; the
    source has no such bound. *)
Fixpoint reader_lock (n : nat) (others : nat -> state -> state) (s : state)
    : Run :=
  match n with
  | O => Retrying s []
  | S n' =>
      match reader_lock_pass s with
      | Returned false s' t => Acquired s' 1 t
      | Returned true s' t =>
          match reader_lock n' (fun i => others (S i)) (others 0 s') with
          | Acquired s'' m t' => Acquired s'' (S m) (t ++ backoff ++ t')
          | Suspended l s'' t' => Suspended l s'' (t ++ backoff ++ t')
          | Retrying s'' t' => Retrying s'' (t ++ backoff ++ t')
          end
      | Waiting _ s' t => Suspended Sem_mutex s' t   (* no condition variable here *)
      | Blocked l s' t => Suspended l s' t
      end
  end.

Definition reader_unlock : M state unit :=
  wait_mutex ;;
  modify (fun s => set_reader_count (reader_count s - 1) s) ;;
  when_ (fun s => (reader_count s =? 0)%Z) post_write_mutex ;;
  post_mutex.

(** The fields that pass number [k] (from 0) of a call starts from. *)
Fixpoint observed (others : nat -> state -> state) (k : nat) (s : state) : state :=
  match k with
  | O => s
  | S k' =>
      observed (fun i => others (S i)) k' (others 0 (state_of (reader_lock_pass s)))
  end.

(** A writer holds [write_mutex] and a second writer has announced itself. *)
Definition writer_inside_writer_waiting : state := mk 1 0 1 0 true.

(** Both writers are through after the reader's third pass. *)
Definition writers_done_after_third_pass (k : nat) (s : state) : state :=
  if k =? 2 then set_writer_waiting false (set_write_mutex 1 s) else s.

(** Number of [sleep_for(10ms)] calls in a trace. *)
Definition sleeps (tr : list event) : nat :=
  length (filter (fun e => e = SleepMs 10) tr).

(** Pass [k] can take [read_mutex] and [mutex]. *)
Definition can_enter (s : state) : Prop :=
  (0 < read_mutex s)%Z /\ (0 < mutex s)%Z.

End Semaphore.

(** ** The engines that keep an active-reader count and a writer flag *)

Class PolicyEngine (St : Type) := {
  engine_init : St;
  engine_step : St -> St -> Prop;
  active_readers_of : St -> Z;
  writer_active_of : St -> bool
}.

#[global] Instance WriterPreference_engine : PolicyEngine WriterPreference.state := {|
  engine_init := WriterPreference.init;
  engine_step := WriterPreference.step;
  active_readers_of := WriterPreference.reader_count;
  writer_active_of := WriterPreference.writer_active |}.

#[global] Instance Educational_engine : PolicyEngine Educational.state := {|
  engine_init := Educational.init;
  engine_step := Educational.step;
  active_readers_of := Educational.reader_count;
  writer_active_of := Educational.writer_active |}.

#[global] Instance ReaderPreference_engine : PolicyEngine ReaderPreference.state := {|
  engine_init := ReaderPreference.init;
  engine_step := ReaderPreference.step;
  active_readers_of := ReaderPreference.reader_count;
  writer_active_of := ReaderPreference.writer_active |}.

#[global] Instance Monitor_engine : PolicyEngine Monitor.state := {|
  engine_init := Monitor.init;
  engine_step := Monitor.step;
  active_readers_of := Monitor.reader_count;
  writer_active_of := Monitor.writer_active |}.

#[global] Instance Fair_engine : PolicyEngine Fair.state := {|
  engine_init := Fair.init;
  engine_step := Fair.step;
  active_readers_of := Fair.active_readers;
  writer_active_of := Fair.writer_active |}.

(** The lock classes whose fields include both a reader count and a
    [writer_active] flag.  [ReadersWriterSemaphore] has no such flag (a
    writer is in when it holds [write_mutex]) and the [std::shared_mutex]
    wrapper has no fields of its own. *)
Inductive policy :=
| WriterPreference_cpp | WriterPreference_educational
| ReaderPreference_cpp | FIFOFair_cpp | MonitorStyle_cpp.

Definition fields (p : policy) : Type :=
  match p with
  | WriterPreference_cpp => WriterPreference.state
  | WriterPreference_educational => Educational.state
  | ReaderPreference_cpp => ReaderPreference.state
  | FIFOFair_cpp => Fair.state
  | MonitorStyle_cpp => Monitor.state
  end.

Definition engine (p : policy) : PolicyEngine (fields p) :=
  match p with
  | WriterPreference_cpp => WriterPreference_engine
  | WriterPreference_educational => Educational_engine
  | ReaderPreference_cpp => ReaderPreference_engine
  | FIFOFair_cpp => Fair_engine
  | MonitorStyle_cpp => Monitor_engine
  end.

Section Reachability.
Context {St : Type} (E : PolicyEngine St).

Inductive reachable : St -> Prop :=
| reachable_init : reachable engine_init
| reachable_step s s' : reachable s -> engine_step s s' -> reachable s'.

Definition exclusive_in (s : St) : Prop :=
  exclusive (active_readers_of s) (writer_active_of s).
End Reachability.

(** ** Callers of the fair lock

    [SharedResource::reader] and [SharedResource::writer] of
    readers_writers_fair.cpp call [read_unlock] only after their own
    [read_lock] has returned, and [write_unlock] only after their own
    [write_lock] has returned. *)
Module FairProtocol.

(** What that discipline lets a thread do on the fields [s]: leave as a
    reader only if a granted reader has not left yet, leave as a writer only
    if the granted writer has not left yet. *)
Definition permitted (c : Fair.call) (s : Fair.state) : Prop :=
  match c with
  | Fair.c_read_unlock => (0 < Fair.active_readers s)%Z
  | Fair.c_write_unlock => Fair.writer_active s = true
  | _ => True
  end.

Fixpoint follows_protocol (cs : list Fair.call) (s : Fair.state) : Prop :=
  match cs with
  | [] => True
  | c :: cs' => permitted c s /\ follows_protocol cs' (fst (Fair.perform c s))
  end.

(** Between two calls: [mtx] is free, the reader count is not negative, the
    queue is in arrival order and [process_queue] has nothing left to
    grant. *)
Definition settled (s : Fair.state) : Prop :=
  Fair.mtx s = Unlocked /\
  (0 <= Fair.active_readers s)%Z /\
  Fair.arrival_ordered s /\
  Fair.granted_now s = [].

(** The fields right after [make_shared<Request>(t)] and [push] in
    [read_lock] or [write_lock], [mtx] being held. *)
Definition arrived (t : Fair.RequestType) (s : Fair.state) : Fair.state :=
  Fair.mk Locked (Fair.resource_mutex s)
    (Fair.requests s ++ [Fair.mkRequest t false])
    (Fair.request_queue s ++ [length (Fair.requests s)])
    (Fair.active_readers s) (Fair.writer_active s).

End FairProtocol.

(** ** Callers of the semaphore lock

    [SharedData] of readers_writers_semaphore.cpp with any number of threads
    in [reader] and [writer]: each calls the lock function, uses [data], and
    calls the unlock function.  Threads are told apart only by where they
    stand, so the state counts the threads at each place.  A move takes a
    thread from one place where it can be held up to the next: in between
    it takes semaphores first and gives them back last, and it touches the
    fields only while it holds [mutex]. *)
Module SemaphoreCallers.

(** [reader_lock] for a thread that was held up at [sem_wait(&mutex)] with
    [read_mutex] already taken: the rest of the pass. *)
Definition reader_lock_from_mutex : M Semaphore.state bool :=
  Semaphore.wait_mutex ;;
  let* should_wait := gets Semaphore.writer_waiting in
  when_ (fun _ => negb should_wait)
    (modify (fun s => Semaphore.set_reader_count (Semaphore.reader_count s + 1) s) ;;
     when_ (fun s => (Semaphore.reader_count s =? 1)%Z) Semaphore.wait_write_mutex) ;;
  Semaphore.post_mutex ;;
  Semaphore.post_read_mutex ;;
  ret should_wait.

Record world := mk {
  lock : Semaphore.state;        (* rwlock *)
  data : Z;                      (* SharedData::data *)
  reading : nat;                 (* between reader_lock() and reader_unlock() *)
  writing : nat;                 (* between writer_lock() and writer_unlock() *)
  writers_announced : nat;       (* in writer_lock, before sem_wait(&write_mutex) *)
  writers_taken : nat;           (* in writer_lock, after sem_wait(&write_mutex) *)
  readers_at_mutex : nat;        (* in reader_lock, held up at sem_wait(&mutex) *)
  readers_at_write_mutex : nat   (* in reader_lock, held up at sem_wait(&write_mutex) *)
}.

Definition init : world := mk Semaphore.init 0 0 0 0 0 0 0.

Inductive move :=
| reader_passes             (* reader_lock(), or its retry after the sleep *)
| reader_gets_mutex
| reader_gets_write_mutex
| reader_leaves             (* reader_unlock() *)
| writer_announces          (* writer_lock(), up to the first sem_post *)
| writer_takes              (* sem_wait(&write_mutex) *)
| writer_clears             (* the rest of writer_lock() *)
| writer_stores (r : Z)     (* data = rand() % 1000, [r] being rand() *)
| writer_leaves.            (* writer_unlock() *)

(** The world after a move, or [None] if no thread can make it now. *)
Definition advance (m : move) (w : world) : option world :=
  match m with
  | reader_passes =>
      match Semaphore.reader_lock_pass (lock w) with
      | Returned false s _ =>
          Some (mk s (data w) (S (reading w)) (writing w) (writers_announced w)
                   (writers_taken w) (readers_at_mutex w) (readers_at_write_mutex w))
      | Returned true s _ =>
          Some (mk s (data w) (reading w) (writing w) (writers_announced w)
                   (writers_taken w) (readers_at_mutex w) (readers_at_write_mutex w))
      | Blocked Sem_write_mutex s _ =>
          Some (mk s (data w) (reading w) (writing w) (writers_announced w)
                   (writers_taken w) (readers_at_mutex w)
                   (S (readers_at_write_mutex w)))
      | Blocked Sem_mutex s _ =>
          Some (mk s (data w) (reading w) (writing w) (writers_announced w)
                   (writers_taken w) (S (readers_at_mutex w))
                   (readers_at_write_mutex w))
      | _ => None
      end
  | reader_gets_mutex =>
      match readers_at_mutex w with
      | O => None
      | S n =>
          match reader_lock_from_mutex (lock w) with
          | Returned false s _ =>
              Some (mk s (data w) (S (reading w)) (writing w) (writers_announced w)
                       (writers_taken w) n (readers_at_write_mutex w))
          | Returned true s _ =>
              Some (mk s (data w) (reading w) (writing w) (writers_announced w)
                       (writers_taken w) n (readers_at_write_mutex w))
          | Blocked Sem_write_mutex s _ =>
              Some (mk s (data w) (reading w) (writing w) (writers_announced w)
                       (writers_taken w) n (S (readers_at_write_mutex w)))
          | _ => None
          end
      end
  | reader_gets_write_mutex =>
      match readers_at_write_mutex w with
      | O => None
      | S n =>
          match Semaphore.reader_lock_resume (lock w) with
          | Returned _ s _ =>
              Some (mk s (data w) (S (reading w)) (writing w) (writers_announced w)
                       (writers_taken w) (readers_at_mutex w) n)
          | _ => None
          end
      end
  | reader_leaves =>
      match reading w with
      | O => None
      | S n =>
          match Semaphore.reader_unlock (lock w) with
          | Returned _ s _ =>
              Some (mk s (data w) n (writing w) (writers_announced w)
                       (writers_taken w) (readers_at_mutex w)
                       (readers_at_write_mutex w))
          | _ => None
          end
      end
  | writer_announces =>
      match Semaphore.writer_lock_announce (lock w) with
      | Returned _ s _ =>
          Some (mk s (data w) (reading w) (writing w) (S (writers_announced w))
                   (writers_taken w) (readers_at_mutex w) (readers_at_write_mutex w))
      | _ => None
      end
  | writer_takes =>
      match writers_announced w with
      | O => None
      | S n =>
          match Semaphore.writer_lock_take (lock w) with
          | Returned _ s _ =>
              Some (mk s (data w) (reading w) (writing w) n
                       (S (writers_taken w)) (readers_at_mutex w)
                       (readers_at_write_mutex w))
          | _ => None
          end
      end
  | writer_clears =>
      match writers_taken w with
      | O => None
      | S n =>
          match Semaphore.writer_lock_clear (lock w) with
          | Returned _ s _ =>
              Some (mk s (data w) (reading w) (S (writing w)) (writers_announced w)
                       n (readers_at_mutex w) (readers_at_write_mutex w))
          | _ => None
          end
      end
  | writer_stores r =>
      match writing w with
      | O => None
      | S _ =>
          if (0 <=? r)%Z
          then Some (mk (lock w) (Z.rem r 1000) (reading w) (writing w)
                        (writers_announced w) (writers_taken w)
                        (readers_at_mutex w) (readers_at_write_mutex w))
          else None     (* rand() is never negative *)
      end
  | writer_leaves =>
      match writing w with
      | O => None
      | S n =>
          match Semaphore.writer_unlock (lock w) with
          | Returned _ s _ =>
              Some (mk s (data w) (reading w) n (writers_announced w)
                       (writers_taken w) (readers_at_mutex w)
                       (readers_at_write_mutex w))
          | _ => None
          end
      end
  end.

(** A schedule: the moves made, first one first. *)
Fixpoint run (ms : list move) (w : world) : option world :=
  match ms with
  | [] => Some w
  | m :: ms' =>
      match advance m w with
      | Some w' => run ms' w'
      | None => None
      end
  end.

(** What holds between moves. *)
Definition consistent (w : world) : Prop :=
  readers_at_mutex w = 0 /\
  readers_at_write_mutex w <= 1 /\
  Semaphore.mutex (lock w) = (1 - Z.of_nat (readers_at_write_mutex w))%Z /\
  Semaphore.read_mutex (lock w) = (1 - Z.of_nat (readers_at_write_mutex w))%Z /\
  Semaphore.reader_count (lock w)
    = (Z.of_nat (reading w) + Z.of_nat (readers_at_write_mutex w))%Z /\
  (readers_at_write_mutex w = 1 -> reading w = 0) /\
  (0 <= Semaphore.write_mutex (lock w))%Z /\
  Semaphore.write_mutex (lock w)
    = (1 - Z.of_nat (writers_taken w) - Z.of_nat (writing w)
       - Z.of_nat (Nat.min 1 (reading w)))%Z /\
  (0 <= data w < 1000)%Z.

(** Two writers announce themselves, the first gets in and clears the flag,
    a reader then finds [write_mutex] taken, the first writer leaves and the
    second writer takes [write_mutex]. *)
Definition schedule_to_deadlock : list move :=
  [writer_announces; writer_announces; writer_takes; writer_clears;
   reader_passes; writer_leaves; writer_takes].

End SemaphoreCallers.

(** ** Callers of the condition-variable locks

    The [SharedResource] classes: any number of threads in [reader] and
    [writer], each calling the lock function, using [data], and calling the
    unlock function.  Threads are told apart only by where they stand.
    A move takes a thread from one place where it can be held up to the
    next; the fields are touched only under the lock's mutex. *)
Module Callers.

Record threads := mk {
  reading : nat;          (* between the lock call and the unlock call *)
  writing : nat;
  readers_asleep : nat;   (* suspended in wait() *)
  readers_woken : nat;    (* out of the wait set, have still to lock the mutex *)
  writers_asleep : nat;
  writers_woken : nat
}.

Definition nobody : threads := mk 0 0 0 0 0 0.

Definition set_reading v t :=
  mk v (writing t) (readers_asleep t) (readers_woken t) (writers_asleep t) (writers_woken t).
Definition set_writing v t :=
  mk (reading t) v (readers_asleep t) (readers_woken t) (writers_asleep t) (writers_woken t).
Definition set_readers_asleep v t :=
  mk (reading t) (writing t) v (readers_woken t) (writers_asleep t) (writers_woken t).
Definition set_readers_woken v t :=
  mk (reading t) (writing t) (readers_asleep t) v (writers_asleep t) (writers_woken t).
Definition set_writers_asleep v t :=
  mk (reading t) (writing t) (readers_asleep t) (readers_woken t) v (writers_woken t).
Definition set_writers_woken v t :=
  mk (reading t) (writing t) (readers_asleep t) (readers_woken t) (writers_asleep t) v.

Definition reader_in t := set_reading (S (reading t)) t.
Definition writer_in t := set_writing (S (writing t)) t.
Definition reader_sleeps t := set_readers_asleep (S (readers_asleep t)) t.
Definition writer_sleeps t := set_writers_asleep (S (writers_asleep t)) t.

Definition wake_all_readers t :=
  set_readers_woken (readers_woken t + readers_asleep t) (set_readers_asleep 0 t).
Definition wake_all_writers t :=
  set_writers_woken (writers_woken t + writers_asleep t) (set_writers_asleep 0 t).
Definition wake_one_reader t :=
  match readers_asleep t with
  | O => t
  | S n => set_readers_woken (S (readers_woken t)) (set_readers_asleep n t)
  end.
Definition wake_one_writer t :=
  match writers_asleep t with
  | O => t
  | S n => set_writers_woken (S (writers_woken t)) (set_writers_asleep n t)
  end.

(** What one call does to the suspended threads, in a class whose readers
    wait on [rcv] and whose writers wait on [wcv].  The classes that call
    [notify_one] have a condition variable for each kind, so the thread it
    resumes is of a known kind. *)
Definition notify (rcv wcv : CondVar) (e : event) (t : threads) : threads :=
  match e with
  | NotifyAll c =>
      let t' := if decide (c = rcv) then wake_all_readers t else t in
      if decide (c = wcv) then wake_all_writers t' else t'
  | NotifyOne c =>
      if decide (c = wcv) then wake_one_writer t
      else if decide (c = rcv) then wake_one_reader t
      else t
  | _ => t
  end.

Definition deliver (rcv wcv : CondVar) (tr : list event) (t : threads)
    : threads :=
  fold_left (fun t e => notify rcv wcv e t) tr t.

(** Where a thread stands after a piece of a lock function, and whom the
    piece's notifications have resumed.  A piece that could not take the
    mutex has not happened. *)
Definition settle {St} (rcv wcv : CondVar) (o : Outcome St unit)
    (inside asleep : threads -> threads) (t : threads)
    : option (St * threads) :=
  match o with
  | Returned _ s tr => Some (s, deliver rcv wcv tr (inside t))
  | Waiting _ s tr => Some (s, asleep (deliver rcv wcv tr t))
  | Blocked _ _ _ => None
  end.

Record world (St : Type) := mkWorld {
  lock : St;          (* rwlock, monitor *)
  data : Z;           (* SharedResource::data *)
  threads_of : threads
}.
Arguments mkWorld {St} _ _ _.
Arguments lock {St} _.
Arguments data {St} _.
Arguments threads_of {St} _.

Inductive move :=
| reader_arrives           (* the lock call of [reader] *)
| reader_resumes           (* a resumed reader locks the mutex and looks again *)
| reader_wakes_spuriously
| reader_leaves            (* the unlock call of [reader] *)
| writer_arrives
| writer_resumes
| writer_wakes_spuriously
| writer_stores (r : Z)    (* data = rand() % 1000, [r] being rand() *)
| writer_leaves.

(** [SharedResource] over a lock whose functions each run under the one
    mutex from beginning to end.  [read_lock_wake] is where a resumed
    reader goes on in [read_lock], likewise [write_lock_wake]. *)
Section OneMutex.
Context {St : Type}.
Variables (rcv wcv : CondVar).
Variables (read_lock read_lock_wake read_unlock
           write_lock write_lock_wake write_unlock : M St unit).

Definition placed (d : Z) (r : option (St * threads)) : option (world St) :=
  match r with
  | Some (s, t) => Some (mkWorld s d t)
  | None => None
  end.

Definition advance (m : move) (w : world St) : option (world St) :=
  let t := threads_of w in
  match m with
  | reader_arrives =>
      placed (data w)
        (settle rcv wcv (read_lock (lock w)) reader_in reader_sleeps t)
  | reader_resumes =>
      match readers_woken t with
      | O => None
      | S n =>
          placed (data w)
            (settle rcv wcv (read_lock_wake (lock w)) reader_in reader_sleeps
               (set_readers_woken n t))
      end
  | reader_wakes_spuriously =>
      match readers_asleep t with
      | O => None
      | S _ => Some (mkWorld (lock w) (data w) (wake_one_reader t))
      end
  | reader_leaves =>
      match reading t with
      | O => None
      | S n =>
          placed (data w)
            (settle rcv wcv (read_unlock (lock w)) id id (set_reading n t))
      end
  | writer_arrives =>
      placed (data w)
        (settle rcv wcv (write_lock (lock w)) writer_in writer_sleeps t)
  | writer_resumes =>
      match writers_woken t with
      | O => None
      | S n =>
          placed (data w)
            (settle rcv wcv (write_lock_wake (lock w)) writer_in writer_sleeps
               (set_writers_woken n t))
      end
  | writer_wakes_spuriously =>
      match writers_asleep t with
      | O => None
      | S _ => Some (mkWorld (lock w) (data w) (wake_one_writer t))
      end
  | writer_stores r =>
      match writing t with
      | O => None
      | S _ =>
          if (0 <=? r)%Z
          then Some (mkWorld (lock w) (Z.rem r 1000) t)
          else None     (* rand() is never negative *)
      end
  | writer_leaves =>
      match writing t with
      | O => None
      | S n =>
          placed (data w)
            (settle rcv wcv (write_unlock (lock w)) id id (set_writing n t))
      end
  end.

(** A schedule: the moves made, first one first. *)
Fixpoint run (ms : list move) (w : world St) : option (world St) :=
  match ms with
  | [] => Some w
  | m :: ms' =>
      match advance m w with
      | Some w' => run ms' w'
      | None => None
      end
  end.
End OneMutex.

(** No thread is inside or on its way in or out. *)
Definition idle (t : threads) : Prop :=
  reading t = 0 /\ writing t = 0 /\ readers_woken t = 0 /\ writers_woken t = 0.

(** Every suspended thread has someone who has still to move: a
    suspended writer a thread inside or a resumed writer, a suspended
    reader a writer inside or a waiting writer. *)
Definition attended (t : threads) : Prop :=
  (0 < writers_asleep t ->
   0 < reading t \/ 0 < writing t \/ 0 < writers_woken t) /\
  (0 < readers_asleep t ->
   0 < writing t \/ 0 < writers_asleep t + writers_woken t).

End Callers.

(** *** [SharedResource] of readers_writers_monitor.cpp *)
Module MonitorCallers.

Definition init : Callers.world Monitor.state :=
  Callers.mkWorld Monitor.init 0 Callers.nobody.

Definition advance :=
  Callers.advance CV_read_cv CV_write_cv
    Monitor.start_read Monitor.start_read_wake Monitor.end_read
    Monitor.start_write Monitor.start_write_wake Monitor.end_write.

Definition run :=
  Callers.run CV_read_cv CV_write_cv
    Monitor.start_read Monitor.start_read_wake Monitor.end_read
    Monitor.start_write Monitor.start_write_wake Monitor.end_write.

(** The fields are the numbers of threads at each place. *)
Definition consistent (w : Callers.world Monitor.state) : Prop :=
  let s := Callers.lock w in
  let t := Callers.threads_of w in
  Monitor.monitor_mutex s = Unlocked /\
  Monitor.reader_count s = Z.of_nat (Callers.reading t) /\
  Monitor.writer_active s = (Callers.writing t =? 1) /\
  Callers.writing t <= 1 /\
  (0 < Callers.reading t -> Callers.writing t = 0) /\
  Monitor.waiting_readers s
    = Z.of_nat (Callers.readers_asleep t + Callers.readers_woken t) /\
  Monitor.waiting_writers s
    = Z.of_nat (Callers.writers_asleep t + Callers.writers_woken t) /\
  (0 <= Callers.data w < 1000)%Z.

End MonitorCallers.

(** *** [SharedResource] of readers_writers_educational.cpp *)
Module EducationalCallers.

Definition init : Callers.world Educational.state :=
  Callers.mkWorld Educational.init 0 Callers.nobody.

(** [cv.wait(lock, pred)] is the first thing [read_lock] does, so a resumed
    reader runs the function from its top. *)
Definition advance :=
  Callers.advance CV_cv CV_cv
    Educational.read_lock Educational.read_lock Educational.read_unlock
    Educational.write_lock Educational.write_lock_wake
    Educational.write_unlock.

Definition run :=
  Callers.run CV_cv CV_cv
    Educational.read_lock Educational.read_lock Educational.read_unlock
    Educational.write_lock Educational.write_lock_wake
    Educational.write_unlock.

Definition consistent (w : Callers.world Educational.state) : Prop :=
  let s := Callers.lock w in
  let t := Callers.threads_of w in
  Educational.mtx s = Unlocked /\
  Educational.reader_count s = Z.of_nat (Callers.reading t) /\
  Educational.writer_active s = (Callers.writing t =? 1) /\
  Callers.writing t <= 1 /\
  (0 < Callers.reading t -> Callers.writing t = 0) /\
  Educational.waiting_writers s
    = Z.of_nat (Callers.writers_asleep t + Callers.writers_woken t) /\
  (0 <= Callers.data w < 1000)%Z.

End EducationalCallers.
(** *** [SharedResource] of readers_writers.cpp

    [write_lock] gives up [mtx] before it locks [resource_mutex], and
    [write_unlock] gives up [mtx] before it unlocks [resource_mutex] and
    notifies; other threads can move at each of these places, and a first
    reader can be held up at [resource_mutex] while it holds [mtx]. *)
Module WriterPreferenceCallers.

(** [write_lock] up to [lock.unlock()], for a writer that arrives and for
    one that was resumed. *)
Definition write_lock_admit_wait : M WriterPreference.state unit :=
  cv_wait CV_write_cv WriterPreference.unlock_mtx WriterPreference.write_pred ;;
  modify (WriterPreference.set_writer_active true) ;;
  modify (fun s => WriterPreference.set_waiting_writers
                     (WriterPreference.waiting_writers s - 1) s) ;;
  WriterPreference.unlock_mtx.
Definition write_lock_admit : M WriterPreference.state unit :=
  WriterPreference.lock_mtx ;;
  modify (fun s => WriterPreference.set_waiting_writers
                     (WriterPreference.waiting_writers s + 1) s) ;;
  write_lock_admit_wait.
Definition write_lock_admit_wake : M WriterPreference.state unit :=
  WriterPreference.lock_mtx ;; write_lock_admit_wait.

Record world := mk {
  lock : WriterPreference.state;   (* rwlock *)
  data : Z;                        (* SharedResource::data *)
  threads_of : Callers.threads;
  readers_at_resource : nat;
    (* in read_lock, holding mtx, held up at resource_mutex.lock() *)
  writers_at_resource : nat;
    (* in write_lock, past lock.unlock(), before resource_mutex.lock() *)
  writers_unlocking : nat;
    (* in write_unlock, past lock.unlock(), before resource_mutex.unlock() *)
  writers_notifying : nat
    (* in write_unlock, before write_cv.notify_all() *)
}.

Definition init : world := mk WriterPreference.init 0 Callers.nobody 0 0 0 0.

Inductive move :=
| reader_arrives
| reader_resumes
| reader_wakes_spuriously
| reader_gets_resource
| reader_leaves
| writer_arrives
| writer_resumes
| writer_wakes_spuriously
| writer_gets_resource
| writer_stores (r : Z)
| writer_leaves               (* write_unlock up to lock.unlock() *)
| writer_unlocks_resource
| writer_notifies.

Definition deliver := Callers.deliver CV_write_cv CV_write_cv.

(** A reader in [read_lock], coming from the thread counts [t]. *)
Definition reader_enters (w : world) (t : Callers.threads) : option world :=
  match WriterPreference.read_lock (lock w) with
  | Returned _ s tr =>
      Some (mk s (data w) (deliver tr (Callers.reader_in t))
              (readers_at_resource w) (writers_at_resource w)
              (writers_unlocking w) (writers_notifying w))
  | Waiting _ s tr =>
      Some (mk s (data w) (Callers.reader_sleeps (deliver tr t))
              (readers_at_resource w) (writers_at_resource w)
              (writers_unlocking w) (writers_notifying w))
  | Blocked L_resource_mutex s tr =>
      Some (mk s (data w) (deliver tr t)
              (S (readers_at_resource w)) (writers_at_resource w)
              (writers_unlocking w) (writers_notifying w))
  | Blocked _ _ _ => None
  end.

(** A writer in the first part of [write_lock]. *)
Definition writer_enters (o : Outcome WriterPreference.state unit)
    (w : world) (t : Callers.threads) : option world :=
  match o with
  | Returned _ s tr =>
      Some (mk s (data w) (deliver tr t)
              (readers_at_resource w) (S (writers_at_resource w))
              (writers_unlocking w) (writers_notifying w))
  | Waiting _ s tr =>
      Some (mk s (data w) (Callers.writer_sleeps (deliver tr t))
              (readers_at_resource w) (writers_at_resource w)
              (writers_unlocking w) (writers_notifying w))
  | Blocked _ _ _ => None
  end.

Definition advance (m : move) (w : world) : option world :=
  let t := threads_of w in
  match m with
  | reader_arrives => reader_enters w t
  | reader_resumes =>
      match Callers.readers_woken t with
      | O => None
      | S n => reader_enters w (Callers.set_readers_woken n t)
      end
  | reader_wakes_spuriously =>
      match Callers.readers_asleep t with
      | O => None
      | S _ =>
          Some (mk (lock w) (data w) (Callers.wake_one_reader t)
                  (readers_at_resource w) (writers_at_resource w)
                  (writers_unlocking w) (writers_notifying w))
      end
  | reader_gets_resource =>
      match readers_at_resource w with
      | O => None
      | S n =>
          match WriterPreference.read_lock_resource (lock w) with
          | Returned _ s tr =>
              Some (mk s (data w) (deliver tr (Callers.reader_in t))
                      n (writers_at_resource w)
                      (writers_unlocking w) (writers_notifying w))
          | _ => None
          end
      end
  | reader_leaves =>
      match Callers.reading t with
      | O => None
      | S n =>
          match WriterPreference.read_unlock (lock w) with
          | Returned _ s tr =>
              Some (mk s (data w) (deliver tr (Callers.set_reading n t))
                      (readers_at_resource w) (writers_at_resource w)
                      (writers_unlocking w) (writers_notifying w))
          | _ => None
          end
      end
  | writer_arrives => writer_enters (write_lock_admit (lock w)) w t
  | writer_resumes =>
      match Callers.writers_woken t with
      | O => None
      | S n =>
          writer_enters (write_lock_admit_wake (lock w)) w
            (Callers.set_writers_woken n t)
      end
  | writer_wakes_spuriously =>
      match Callers.writers_asleep t with
      | O => None
      | S _ =>
          Some (mk (lock w) (data w) (Callers.wake_one_writer t)
                  (readers_at_resource w) (writers_at_resource w)
                  (writers_unlocking w) (writers_notifying w))
      end
  | writer_gets_resource =>
      match writers_at_resource w with
      | O => None
      | S n =>
          match WriterPreference.write_lock_resource (lock w) with
          | Returned _ s tr =>
              Some (mk s (data w) (deliver tr (Callers.writer_in t))
                      (readers_at_resource w) n
                      (writers_unlocking w) (writers_notifying w))
          | _ => None
          end
      end
  | writer_stores r =>
      match Callers.writing t with
      | O => None
      | S _ =>
          if (0 <=? r)%Z
          then Some (mk (lock w) (Z.rem r 1000) t
                       (readers_at_resource w) (writers_at_resource w)
                       (writers_unlocking w) (writers_notifying w))
          else None     (* rand() is never negative *)
      end
  | writer_leaves =>
      match Callers.writing t with
      | O => None
      | S n =>
          match WriterPreference.write_unlock_flag (lock w) with
          | Returned _ s tr =>
              Some (mk s (data w) (deliver tr (Callers.set_writing n t))
                      (readers_at_resource w) (writers_at_resource w)
                      (S (writers_unlocking w)) (writers_notifying w))
          | _ => None
          end
      end
  | writer_unlocks_resource =>
      match writers_unlocking w with
      | O => None
      | S n =>
          match WriterPreference.unlock_resource (lock w) with
          | Returned _ s tr =>
              Some (mk s (data w) (deliver tr t)
                      (readers_at_resource w) (writers_at_resource w)
                      n (S (writers_notifying w)))
          | _ => None
          end
      end
  | writer_notifies =>
      match writers_notifying w with
      | O => None
      | S n =>
          match call (NotifyAll CV_write_cv) (lock w) with
          | Returned _ s tr =>
              Some (mk s (data w) (deliver tr t)
                      (readers_at_resource w) (writers_at_resource w)
                      (writers_unlocking w) n)
          | _ => None
          end
      end
  end.

Fixpoint run (ms : list move) (w : world) : option world :=
  match ms with
  | [] => Some w
  | m :: ms' =>
      match advance m w with
      | Some w' => run ms' w'
      | None => None
      end
  end.

(** The fields are the numbers of threads at each place; [mtx] is held
    between moves only by a reader held up at [resource_mutex], and
    [resource_mutex] is locked exactly while readers are inside, or a
    writer is inside or has still to unlock it. *)
Definition consistent (w : world) : Prop :=
  let s := lock w in
  let t := threads_of w in
  let holders :=
    Nat.min 1 (Callers.reading t) + Callers.writing t + writers_unlocking w in
  readers_at_resource w <= 1 /\
  WriterPreference.mtx s
    = (if readers_at_resource w =? 1 then Locked else Unlocked) /\
  WriterPreference.reader_count s
    = Z.of_nat (Callers.reading t + readers_at_resource w) /\
  WriterPreference.waiting_writers s
    = Z.of_nat (Callers.writers_asleep t + Callers.writers_woken t) /\
  writers_at_resource w + Callers.writing t <= 1 /\
  WriterPreference.writer_active s
    = (writers_at_resource w + Callers.writing t =? 1) /\
  holders <= 1 /\
  WriterPreference.resource_mutex s
    = (if holders =? 1 then Locked else Unlocked) /\
  (0 < Callers.reading t + readers_at_resource w ->
   writers_at_resource w + Callers.writing t = 0) /\
  (readers_at_resource w = 1 -> Callers.reading t = 0) /\
  (0 <= data w < 1000)%Z.

(** Every suspended thread has someone who has still to move. *)
Definition attended (w : world) : Prop :=
  let t := threads_of w in
  (0 < Callers.writers_asleep t ->
   0 < Callers.reading t + readers_at_resource w \/
   0 < writers_at_resource w + Callers.writing t \/
   0 < Callers.writers_woken t \/
   0 < writers_unlocking w + writers_notifying w) /\
  (0 < Callers.readers_asleep t ->
   0 < writers_at_resource w + Callers.writing t \/
   0 < Callers.writers_asleep t + Callers.writers_woken t \/
   0 < writers_unlocking w + writers_notifying w).

(** No thread is inside or on its way in or out. *)
Definition idle (w : world) : Prop :=
  Callers.idle (threads_of w) /\
  readers_at_resource w = 0 /\ writers_at_resource w = 0 /\
  writers_unlocking w = 0 /\ writers_notifying w = 0.

End WriterPreferenceCallers.
(** *** [SharedResource] of readers_writers_readers_priority.cpp

    As in readers_writers.cpp, [write_lock] gives up [mtx] before it locks
    [resource_mutex] and [write_unlock] before it unlocks it; the two
    notifications of [write_unlock] are made one after the other with no
    mutex held. *)
Module ReaderPreferenceCallers.

(** [write_lock] up to [lock.unlock()].  The wait is the first thing in
    it, so a resumed writer runs the same. *)
Definition write_lock_admit : M ReaderPreference.state unit :=
  ReaderPreference.lock_mtx ;;
  cv_wait CV_writer_cv ReaderPreference.unlock_mtx
    ReaderPreference.write_pred ;;
  modify (ReaderPreference.set_writer_active true) ;;
  ReaderPreference.unlock_mtx.

Record world := mk {
  lock : ReaderPreference.state;   (* rwlock *)
  data : Z;                        (* SharedResource::data *)
  threads_of : Callers.threads;
  readers_at_resource : nat;
    (* in read_lock, holding mtx, held up at resource_mutex.lock() *)
  writers_at_resource : nat;
    (* in write_lock, past lock.unlock(), before resource_mutex.lock() *)
  writers_unlocking : nat;
    (* in write_unlock, past lock.unlock(), before resource_mutex.unlock() *)
  writers_notifying_readers : nat;
    (* in write_unlock, before reader_cv.notify_all() *)
  writers_notifying_writer : nat
    (* in write_unlock, before writer_cv.notify_one() *)
}.

Definition init : world :=
  mk ReaderPreference.init 0 Callers.nobody 0 0 0 0 0.

Inductive move :=
| reader_arrives
| reader_resumes
| reader_wakes_spuriously
| reader_gets_resource
| reader_leaves
| writer_arrives
| writer_resumes
| writer_wakes_spuriously
| writer_gets_resource
| writer_stores (r : Z)
| writer_leaves               (* write_unlock up to lock.unlock() *)
| writer_unlocks_resource
| writer_notifies_readers
| writer_notifies_writer.

Definition deliver := Callers.deliver CV_reader_cv CV_writer_cv.

(** A reader in [read_lock], coming from the thread counts [t]. *)
Definition reader_enters (w : world) (t : Callers.threads) : option world :=
  match ReaderPreference.read_lock (lock w) with
  | Returned _ s tr =>
      Some (mk s (data w) (deliver tr (Callers.reader_in t))
              (readers_at_resource w) (writers_at_resource w)
              (writers_unlocking w) (writers_notifying_readers w)
              (writers_notifying_writer w))
  | Waiting _ s tr =>
      Some (mk s (data w) (Callers.reader_sleeps (deliver tr t))
              (readers_at_resource w) (writers_at_resource w)
              (writers_unlocking w) (writers_notifying_readers w)
              (writers_notifying_writer w))
  | Blocked L_resource_mutex s tr =>
      Some (mk s (data w) (deliver tr t)
              (S (readers_at_resource w)) (writers_at_resource w)
              (writers_unlocking w) (writers_notifying_readers w)
              (writers_notifying_writer w))
  | Blocked _ _ _ => None
  end.

(** A writer in the first part of [write_lock]. *)
Definition writer_enters (w : world) (t : Callers.threads) : option world :=
  match write_lock_admit (lock w) with
  | Returned _ s tr =>
      Some (mk s (data w) (deliver tr t)
              (readers_at_resource w) (S (writers_at_resource w))
              (writers_unlocking w) (writers_notifying_readers w)
              (writers_notifying_writer w))
  | Waiting _ s tr =>
      Some (mk s (data w) (Callers.writer_sleeps (deliver tr t))
              (readers_at_resource w) (writers_at_resource w)
              (writers_unlocking w) (writers_notifying_readers w)
              (writers_notifying_writer w))
  | Blocked _ _ _ => None
  end.

Definition advance (m : move) (w : world) : option world :=
  let t := threads_of w in
  match m with
  | reader_arrives => reader_enters w t
  | reader_resumes =>
      match Callers.readers_woken t with
      | O => None
      | S n => reader_enters w (Callers.set_readers_woken n t)
      end
  | reader_wakes_spuriously =>
      match Callers.readers_asleep t with
      | O => None
      | S _ =>
          Some (mk (lock w) (data w) (Callers.wake_one_reader t)
                  (readers_at_resource w) (writers_at_resource w)
                  (writers_unlocking w) (writers_notifying_readers w)
                  (writers_notifying_writer w))
      end
  | reader_gets_resource =>
      match readers_at_resource w with
      | O => None
      | S n =>
          match ReaderPreference.read_lock_resource (lock w) with
          | Returned _ s tr =>
              Some (mk s (data w) (deliver tr (Callers.reader_in t))
                      n (writers_at_resource w)
                      (writers_unlocking w) (writers_notifying_readers w)
                      (writers_notifying_writer w))
          | _ => None
          end
      end
  | reader_leaves =>
      match Callers.reading t with
      | O => None
      | S n =>
          match ReaderPreference.read_unlock (lock w) with
          | Returned _ s tr =>
              Some (mk s (data w) (deliver tr (Callers.set_reading n t))
                      (readers_at_resource w) (writers_at_resource w)
                      (writers_unlocking w) (writers_notifying_readers w)
                      (writers_notifying_writer w))
          | _ => None
          end
      end
  | writer_arrives => writer_enters w t
  | writer_resumes =>
      match Callers.writers_woken t with
      | O => None
      | S n => writer_enters w (Callers.set_writers_woken n t)
      end
  | writer_wakes_spuriously =>
      match Callers.writers_asleep t with
      | O => None
      | S _ =>
          Some (mk (lock w) (data w) (Callers.wake_one_writer t)
                  (readers_at_resource w) (writers_at_resource w)
                  (writers_unlocking w) (writers_notifying_readers w)
                  (writers_notifying_writer w))
      end
  | writer_gets_resource =>
      match writers_at_resource w with
      | O => None
      | S n =>
          match ReaderPreference.write_lock_resource (lock w) with
          | Returned _ s tr =>
              Some (mk s (data w) (deliver tr (Callers.writer_in t))
                      (readers_at_resource w) n
                      (writers_unlocking w) (writers_notifying_readers w)
                      (writers_notifying_writer w))
          | _ => None
          end
      end
  | writer_stores r =>
      match Callers.writing t with
      | O => None
      | S _ =>
          if (0 <=? r)%Z
          then Some (mk (lock w) (Z.rem r 1000) t
                       (readers_at_resource w) (writers_at_resource w)
                       (writers_unlocking w) (writers_notifying_readers w)
                       (writers_notifying_writer w))
          else None     (* rand() is never negative *)
      end
  | writer_leaves =>
      match Callers.writing t with
      | O => None
      | S n =>
          match ReaderPreference.write_unlock_flag (lock w) with
          | Returned _ s tr =>
              Some (mk s (data w) (deliver tr (Callers.set_writing n t))
                      (readers_at_resource w) (writers_at_resource w)
                      (S (writers_unlocking w)) (writers_notifying_readers w)
                      (writers_notifying_writer w))
          | _ => None
          end
      end
  | writer_unlocks_resource =>
      match writers_unlocking w with
      | O => None
      | S n =>
          match ReaderPreference.unlock_resource (lock w) with
          | Returned _ s tr =>
              Some (mk s (data w) (deliver tr t)
                      (readers_at_resource w) (writers_at_resource w)
                      n (S (writers_notifying_readers w))
                      (writers_notifying_writer w))
          | _ => None
          end
      end
  | writer_notifies_readers =>
      match writers_notifying_readers w with
      | O => None
      | S n =>
          match call (NotifyAll CV_reader_cv) (lock w) with
          | Returned _ s tr =>
              Some (mk s (data w) (deliver tr t)
                      (readers_at_resource w) (writers_at_resource w)
                      (writers_unlocking w) n
                      (S (writers_notifying_writer w)))
          | _ => None
          end
      end
  | writer_notifies_writer =>
      match writers_notifying_writer w with
      | O => None
      | S n =>
          match call (NotifyOne CV_writer_cv) (lock w) with
          | Returned _ s tr =>
              Some (mk s (data w) (deliver tr t)
                      (readers_at_resource w) (writers_at_resource w)
                      (writers_unlocking w) (writers_notifying_readers w) n)
          | _ => None
          end
      end
  end.

Fixpoint run (ms : list move) (w : world) : option world :=
  match ms with
  | [] => Some w
  | m :: ms' =>
      match advance m w with
      | Some w' => run ms' w'
      | None => None
      end
  end.

Definition consistent (w : world) : Prop :=
  let s := lock w in
  let t := threads_of w in
  let holders :=
    Nat.min 1 (Callers.reading t) + Callers.writing t + writers_unlocking w in
  readers_at_resource w <= 1 /\
  ReaderPreference.mtx s
    = (if readers_at_resource w =? 1 then Locked else Unlocked) /\
  ReaderPreference.reader_count s
    = Z.of_nat (Callers.reading t + readers_at_resource w) /\
  writers_at_resource w + Callers.writing t <= 1 /\
  ReaderPreference.writer_active s
    = (writers_at_resource w + Callers.writing t =? 1) /\
  holders <= 1 /\
  ReaderPreference.resource_mutex s
    = (if holders =? 1 then Locked else Unlocked) /\
  (0 < Callers.reading t + readers_at_resource w ->
   writers_at_resource w + Callers.writing t = 0) /\
  (readers_at_resource w = 1 -> Callers.reading t = 0) /\
  (0 <= data w < 1000)%Z.

(** Every suspended thread has someone who has still to move. *)
Definition attended (w : world) : Prop :=
  let t := threads_of w in
  (0 < Callers.writers_asleep t ->
   0 < Callers.reading t + readers_at_resource w \/
   0 < writers_at_resource w + Callers.writing t \/
   0 < Callers.writers_woken t \/
   0 < writers_unlocking w + writers_notifying_readers w
       + writers_notifying_writer w) /\
  (0 < Callers.readers_asleep t ->
   0 < writers_at_resource w + Callers.writing t \/
   0 < writers_unlocking w + writers_notifying_readers w).

(** No thread is inside or on its way in or out. *)
Definition idle (w : world) : Prop :=
  Callers.idle (threads_of w) /\
  readers_at_resource w = 0 /\ writers_at_resource w = 0 /\
  writers_unlocking w = 0 /\ writers_notifying_readers w = 0 /\
  writers_notifying_writer w = 0.

(** Readers that overlap: one arrives before the one inside leaves. *)
Fixpoint relay (n : nat) : list move :=
  match n with
  | O => []
  | S n' => reader_arrives :: reader_leaves :: relay n'
  end.

End ReaderPreferenceCallers.

(** * Theorems *)

Ltac run_pieces :=
  cbv [and_then bind after ret skip gets modify when_ if_ call
       mutex_lock mutex_unlock sem_wait sem_post cv_wait
       state_of trace_of returned past_wait result_of negb andb orb app] in *.

(** [e ∉ l] for an explicit list [l] of calls other than [e]. *)
Ltac not_in_list :=
  let H := fresh in
  intros H;
  repeat (apply elem_of_cons in H as [H|H]; [discriminate H|]);
  by apply elem_of_nil in H.

(** Case analysis on the integer tests left in the goal. *)
Ltac case_tests :=
  repeat match goal with
    | |- context [(?a =? ?b)%Z] => destruct (Z.eqb_spec a b)
    | |- context [(?a <? ?b)%Z] => destruct (Z.ltb_spec a b)
    end.

(** ** The engines on small inputs *)

Example wp_first_reader :
  WriterPreference.read_lock WriterPreference.init =
  Returned tt (WriterPreference.mk Unlocked Locked 1 false 0)
           [Acquire L_mtx; Acquire L_resource_mutex; Release L_mtx].
Proof. reflexivity. Qed.

Example wp_writer_waits_for_reader :
  WriterPreference.write_lock (WriterPreference.mk Unlocked Locked 1 false 0) =
  Waiting CV_write_cv (WriterPreference.mk Unlocked Locked 1 false 1)
          [Acquire L_mtx; Release L_mtx; WaitOn CV_write_cv].
Proof. reflexivity. Qed.

Example wp_reader_held_back_by_waiting_writer :
  WriterPreference.read_lock (WriterPreference.mk Unlocked Locked 1 false 1) =
  Waiting CV_write_cv (WriterPreference.mk Unlocked Locked 1 false 1)
          [Acquire L_mtx; Release L_mtx; WaitOn CV_write_cv].
Proof. reflexivity. Qed.

Example wp_last_reader_leaves :
  WriterPreference.read_unlock (WriterPreference.mk Unlocked Locked 1 false 1) =
  Returned tt (WriterPreference.mk Unlocked Unlocked 0 false 1)
           [Acquire L_mtx; Release L_resource_mutex; NotifyAll CV_write_cv;
            Release L_mtx].
Proof. reflexivity. Qed.

Example rp_reader_passes_waiting_writer :
  ReaderPreference.read_lock (ReaderPreference.mk Unlocked Locked 1 false) =
  Returned tt (ReaderPreference.mk Unlocked Locked 2 false)
           [Acquire L_mtx; Release L_mtx].
Proof. reflexivity. Qed.

Example rp_writer_leaves :
  ReaderPreference.write_unlock (ReaderPreference.mk Unlocked Locked 0 true) =
  Returned tt (ReaderPreference.mk Unlocked Unlocked 0 false)
           [Acquire L_mtx; Release L_mtx; Release L_resource_mutex;
            NotifyAll CV_reader_cv; NotifyOne CV_writer_cv].
Proof. reflexivity. Qed.

Example monitor_writer_leaves_to_writer :
  Monitor.end_write (Monitor.mk Unlocked 0 true 2 1) =
  Returned tt (Monitor.mk Unlocked 0 false 2 1)
           [Acquire L_monitor_mutex; NotifyOne CV_write_cv;
            Release L_monitor_mutex].
Proof. reflexivity. Qed.

Example monitor_writer_leaves_to_readers :
  Monitor.end_write (Monitor.mk Unlocked 0 true 2 0) =
  Returned tt (Monitor.mk Unlocked 0 false 2 0)
           [Acquire L_monitor_mutex; NotifyAll CV_read_cv;
            Release L_monitor_mutex].
Proof. reflexivity. Qed.

Example fair_scenario_queue :
  Fair.scenario_queued =
  Fair.mk Unlocked Locked
    [Fair.mkRequest Fair.WRITE true; Fair.mkRequest Fair.READ false;
     Fair.mkRequest Fair.READ false; Fair.mkRequest Fair.WRITE false;
     Fair.mkRequest Fair.READ false]
    [1; 2; 3; 4] 0 true.
Proof. reflexivity. Qed.

Example fair_scenario_batch :
  Fair.write_unlock Fair.scenario_queued =
  Returned tt
    (Fair.mk Unlocked Unlocked
       [Fair.mkRequest Fair.WRITE true; Fair.mkRequest Fair.READ true;
        Fair.mkRequest Fair.READ true; Fair.mkRequest Fair.WRITE false;
        Fair.mkRequest Fair.READ false]
       [3; 4] 2 false)
    [Acquire L_mtx; Release L_resource_mutex; NotifyOne (CV_request 1);
     NotifyOne (CV_request 2); Release L_mtx].
Proof. reflexivity. Qed.

Example semaphore_first_reader :
  Semaphore.reader_lock_pass Semaphore.init =
  Returned false (Semaphore.mk 1 0 1 1 false)
    [SemWait Sem_read_mutex; SemWait Sem_mutex; SemWait Sem_write_mutex;
     SemPost Sem_mutex; SemPost Sem_read_mutex].
Proof. reflexivity. Qed.

Example semaphore_reader_backs_off :
  Semaphore.reader_lock 2 (fun _ s => s) Semaphore.writer_inside_writer_waiting =
  Semaphore.Retrying Semaphore.writer_inside_writer_waiting
    [SemWait Sem_read_mutex; SemWait Sem_mutex; SemPost Sem_mutex;
     SemPost Sem_read_mutex; Yield; SleepMs 10;
     SemWait Sem_read_mutex; SemWait Sem_mutex; SemPost Sem_mutex;
     SemPost Sem_read_mutex; Yield; SleepMs 10].
Proof. reflexivity. Qed.

(** ** Sequencing *)

Section PieceFacts.
Context {St : Type}.

Lemma bind_returned {A B} (c : M St A) (k : A -> M St B) s a s1 t1 :
  c s = Returned a s1 t1 -> bind c k s = after t1 (k a s1).
Proof. unfold bind. by intros ->. Qed.

Lemma and_then_returned {B} (c1 : M St unit) (c2 : M St B) s s1 t1 :
  c1 s = Returned tt s1 t1 -> (c1 ;; c2) s = after t1 (c2 s1).
Proof. apply bind_returned. Qed.

Lemma after_nil {A} (o : Outcome St A) : after [] o = o.
Proof. by destruct o. Qed.

Lemma after_after {A} t1 t2 (o : Outcome St A) :
  after t1 (after t2 o) = after (t1 ++ t2) o.
Proof. destruct o; simpl; by rewrite app_assoc. Qed.

Lemma state_of_after {A} t (o : Outcome St A) : state_of (after t o) = state_of o.
Proof. by destruct o. Qed.

Lemma trace_of_after {A} t (o : Outcome St A) : trace_of (after t o) = t ++ trace_of o.
Proof. by destruct o. Qed.

Lemma and_then_modify {B} f (c : M St B) s : (modify f ;; c) s = c (f s).
Proof. unfold and_then, bind, modify. apply after_nil. Qed.

Lemma and_then_call {B} e (c : M St B) s : (call e ;; c) s = after [e] (c s).
Proof. reflexivity. Qed.

Lemma and_then_lock {B} l get set (c : M St B) s :
  get s = Unlocked ->
  (mutex_lock l get set ;; c) s = after [Acquire l] (c (set Locked s)).
Proof. intros H. unfold and_then, bind, mutex_lock. by rewrite H. Qed.

Lemma and_then_lock_blocked {B} l get set (c : M St B) s :
  get s = Locked -> (mutex_lock l get set ;; c) s = Blocked l s [].
Proof. intros H. unfold and_then, bind, mutex_lock. by rewrite H. Qed.

(** A property of the fields that a piece keeps, however it ends. *)
Definition preserves {A} (I : St -> Prop) (c : M St A) : Prop :=
  forall s, I s -> I (state_of (c s)).

Lemma preserves_bind {A B} I (c : M St A) (k : A -> M St B) :
  preserves I c -> (forall a, preserves I (k a)) -> preserves I (bind c k).
Proof.
  intros Hc Hk s Hs. unfold bind. specialize (Hc s Hs).
  destruct (c s) as [a s1 t1| |]; simpl in *; [|done|done].
  rewrite state_of_after. by apply Hk.
Qed.

Lemma preserves_and_then {B} I (c1 : M St unit) (c2 : M St B) :
  preserves I c1 -> preserves I c2 -> preserves I (c1 ;; c2).
Proof. intros H1 H2. apply preserves_bind; [done|by intros _]. Qed.

Lemma preserves_ret {A} I (a : A) : preserves I (ret a).
Proof. by intros s. Qed.

Lemma preserves_gets {A} I (f : St -> A) : preserves I (gets f).
Proof. by intros s. Qed.

Lemma preserves_call I e : preserves I (call e).
Proof. by intros s. Qed.

Lemma preserves_modify I f :
  (forall s, I s -> I (f s)) -> preserves I (modify f).
Proof. intros H s Hs. by apply H. Qed.

Lemma preserves_when I b c : preserves I c -> preserves I (when_ b c).
Proof. intros H s Hs. unfold when_. destruct (b s); [by apply H|done]. Qed.

Lemma preserves_if {A} I b (c1 c2 : M St A) :
  preserves I c1 -> preserves I c2 -> preserves I (if_ b c1 c2).
Proof. intros H1 H2 s Hs. unfold if_. destruct (b s); auto. Qed.

Lemma preserves_mutex_lock I l get set :
  (forall v s, I s -> I (set v s)) -> preserves I (mutex_lock l get set).
Proof. intros H s Hs. unfold mutex_lock. destruct (get s); simpl; auto. Qed.

Lemma preserves_mutex_unlock I l get set :
  (forall v s, I s -> I (set v s)) -> preserves I (mutex_unlock l get set).
Proof. intros H s Hs. unfold mutex_unlock. destruct (get s); simpl; auto. Qed.

Lemma preserves_cv_wait I c unlock pred :
  preserves I unlock -> preserves I (cv_wait c unlock pred).
Proof.
  intros H s Hs. unfold cv_wait. destruct (pred s); [done|].
  specialize (H s Hs). by destruct (unlock s).
Qed.
End PieceFacts.

Create HintDb pieces.
#[global] Hint Resolve preserves_and_then preserves_ret preserves_gets
  preserves_call preserves_when preserves_if preserves_cv_wait : pieces.

(** ** Exclusivity, engine by engine *)

Ltac wp_unfold :=
  cbv [
      WriterPreference.read_lock WriterPreference.read_lock_resource
      WriterPreference.read_unlock WriterPreference.write_lock
      WriterPreference.write_lock_wake WriterPreference.write_lock_wait
      WriterPreference.write_lock_resource WriterPreference.write_unlock
      WriterPreference.write_unlock_flag
      WriterPreference.write_unlock_resource WriterPreference.lock_mtx
      WriterPreference.unlock_mtx WriterPreference.lock_resource
      WriterPreference.unlock_resource WriterPreference.read_pred
      WriterPreference.write_pred WriterPreference.mtx
      WriterPreference.resource_mutex WriterPreference.reader_count
      WriterPreference.writer_active WriterPreference.waiting_writers
      WriterPreference.set_mtx WriterPreference.set_resource_mutex
      WriterPreference.set_reader_count WriterPreference.set_writer_active
      WriterPreference.set_waiting_writers WriterPreference.init] in *;
  run_pieces.

Section WriterPreferenceFacts.
Import WriterPreference.

Lemma wp_piece_exclusive f s :
  piece f -> exclusive (reader_count s) (writer_active s) ->
  exclusive (reader_count (state_of (f s))) (writer_active (state_of (f s))).
Proof.
  unfold exclusive.
  destruct s as [m r rc wa ww]; intros Hf Hex; destruct Hf, m, r, wa;
    wp_unfold; case_tests; wp_unfold;
    intros [? ?]; try discriminate; try lia; apply Hex; split; auto; lia.
Qed.
End WriterPreferenceFacts.

Ltac edu_unfold :=
  cbv [
      Educational.read_lock Educational.read_unlock Educational.write_lock
      Educational.write_lock_wake Educational.write_lock_wait
      Educational.write_unlock Educational.lock_mtx Educational.unlock_mtx
      Educational.read_pred Educational.write_pred Educational.mtx
      Educational.reader_count Educational.writer_active
      Educational.waiting_writers Educational.set_mtx
      Educational.set_reader_count Educational.set_writer_active
      Educational.set_waiting_writers Educational.init] in *;
  run_pieces.

Section EducationalFacts.
Import Educational.

Lemma edu_piece_exclusive f s :
  piece f -> exclusive (reader_count s) (writer_active s) ->
  exclusive (reader_count (state_of (f s))) (writer_active (state_of (f s))).
Proof.
  unfold exclusive.
  destruct s as [m rc wa ww]; intros Hf Hex; destruct Hf, m, wa;
    edu_unfold; case_tests; edu_unfold;
    intros [? ?]; try discriminate; try lia; apply Hex; split; auto; lia.
Qed.
End EducationalFacts.

Ltac rp_unfold :=
  cbv [
      ReaderPreference.read_lock ReaderPreference.read_lock_resource
      ReaderPreference.read_unlock ReaderPreference.write_lock
      ReaderPreference.write_lock_resource ReaderPreference.write_unlock
      ReaderPreference.write_unlock_flag
      ReaderPreference.write_unlock_resource ReaderPreference.lock_mtx
      ReaderPreference.unlock_mtx ReaderPreference.lock_resource
      ReaderPreference.unlock_resource ReaderPreference.read_pred
      ReaderPreference.write_pred ReaderPreference.mtx
      ReaderPreference.resource_mutex ReaderPreference.reader_count
      ReaderPreference.writer_active ReaderPreference.set_mtx
      ReaderPreference.set_resource_mutex ReaderPreference.set_reader_count
      ReaderPreference.set_writer_active ReaderPreference.init] in *;
  run_pieces.

Section ReaderPreferenceFacts.
Import ReaderPreference.

Lemma rp_piece_exclusive f s :
  piece f -> exclusive (reader_count s) (writer_active s) ->
  exclusive (reader_count (state_of (f s))) (writer_active (state_of (f s))).
Proof.
  unfold exclusive.
  destruct s as [m r rc wa]; intros Hf Hex; destruct Hf, m, r, wa;
    rp_unfold; case_tests; rp_unfold;
    intros [? ?]; try discriminate; try lia; apply Hex; split; auto; lia.
Qed.
End ReaderPreferenceFacts.

Ltac mon_unfold :=
  cbv [
      Monitor.start_read Monitor.start_read_wake Monitor.start_read_wait
      Monitor.end_read Monitor.start_write Monitor.start_write_wake
      Monitor.start_write_wait Monitor.end_write Monitor.get_state
      Monitor.lock_monitor Monitor.unlock_monitor Monitor.read_must_wait
      Monitor.write_must_wait Monitor.monitor_mutex Monitor.reader_count
      Monitor.writer_active Monitor.waiting_readers Monitor.waiting_writers
      Monitor.set_monitor_mutex Monitor.set_reader_count
      Monitor.set_writer_active Monitor.set_waiting_readers
      Monitor.set_waiting_writers Monitor.init] in *;
  run_pieces.

Section MonitorFacts.
Import Monitor.

Lemma monitor_piece_exclusive f s :
  piece f -> exclusive (reader_count s) (writer_active s) ->
  exclusive (reader_count (state_of (f s))) (writer_active (state_of (f s))).
Proof.
  unfold exclusive.
  destruct s as [m rc wa wr ww]; intros Hf Hex; destruct Hf, m, wa;
    mon_unfold; case_tests; mon_unfold;
    intros [? ?]; try discriminate; try lia; apply Hex; split; auto; lia.
Qed.
End MonitorFacts.

(** ** FIFOFair: what one run of [process_queue] does *)

Section FairFacts.
Import Fair.

Lemma type_of_alter_granted (rs : list Request) (p i : nat) :
  type <$> alter (fun r => mkRequest (type r) true) p rs !! i = type <$> rs !! i.
Proof.
  destruct (decide (p = i)) as [->|Hne].
  - rewrite list_lookup_alter_eq. by destruct (rs !! i).
  - by rewrite list_lookup_alter_ne.
Qed.

Lemma read_run_alter_granted (rs : list Request) (p : nat) q :
  read_run (alter (fun r => mkRequest (type r) true) p rs) q = read_run rs q.
Proof.
  induction q as [|x q IH]; simpl; [done|].
  rewrite type_of_alter_granted, IH. done.
Qed.

Lemma grant_read_eq p s :
  grant_read p s =
  Returned tt
    (mk (mtx s) (resource_mutex s)
        (alter (fun r => mkRequest (type r) true) p (requests s))
        (tail (request_queue s)) (active_readers s + 1) (writer_active s))
    [NotifyOne (CV_request p)].
Proof. reflexivity. Qed.

Lemma grant_write_eq p s :
  grant_write p s =
  Returned tt
    (mk (mtx s) (resource_mutex s)
        (alter (fun r => mkRequest (type r) true) p (requests s))
        (tail (request_queue s)) (active_readers s) true)
    [NotifyOne (CV_request p)].
Proof. reflexivity. Qed.

Lemma grant_following_reads_eq q s :
  grant_following_reads q s =
  Returned tt
    (mk (mtx s) (resource_mutex s)
        (grant_all (read_run (requests s) q) (requests s))
        (drop (length (read_run (requests s) q)) (request_queue s))
        (active_readers s + Z.of_nat (length (read_run (requests s) q)))
        (writer_active s))
    (notify_each (read_run (requests s) q)).
Proof.
  revert s; induction q as [|p q IH]; intros s.
  - destruct s; simpl. unfold skip, ret. simpl. rewrite drop_0, Z.add_0_r. done.
  - simpl. unfold type_of.
    destruct (type <$> requests s !! p) as [[|]|] eqn:Ht.
    + rewrite (and_then_returned _ _ _ _ _ (grant_read_eq p s)).
      rewrite IH. simpl. rewrite read_run_alter_granted.
      unfold after.
      replace (drop (length (read_run (requests s) q)) (tail (request_queue s)))
        with (drop (S (length (read_run (requests s) q))) (request_queue s))
        by (destruct (request_queue s); simpl; [by rewrite ?drop_nil|done]).
      replace (active_readers s + 1 + Z.of_nat (length (read_run (requests s) q)))%Z
        with (active_readers s + Z.of_nat (S (length (read_run (requests s) q))))%Z
        by lia.
      done.
    + destruct s; simpl. unfold skip, ret. simpl. rewrite drop_0, Z.add_0_r. done.
    + destruct s; simpl. unfold skip, ret. simpl. rewrite drop_0, Z.add_0_r. done.
Qed.

Lemma read_run_prefix rs q :
  read_run rs q ++ drop (length (read_run rs q)) q = q.
Proof.
  induction q as [|p q IH]; simpl; [done|].
  destruct (type <$> rs !! p) as [[|]|]; simpl; [by rewrite IH|done|done].
Qed.

(** The three ways [process_queue] can go. *)
Lemma process_queue_cases s :
  (granted_now s = [] /\ process_queue s = Returned tt s [])
  \/ (exists p q', request_queue s = p :: q' /\ type_of s p = Some READ /\
        writer_active s = false /\
        granted_now s = p :: read_run (requests s) q' /\
        process_queue s =
        Returned tt
          (mk (mtx s) (resource_mutex s)
              (grant_all (granted_now s) (requests s))
              (drop (length (granted_now s)) (request_queue s))
              (active_readers s + Z.of_nat (length (granted_now s)))
              false)
          (notify_each (granted_now s)))
  \/ (exists p q', request_queue s = p :: q' /\ type_of s p = Some WRITE /\
        writer_active s = false /\ active_readers s = 0%Z /\
        granted_now s = [p] /\
        process_queue s =
        Returned tt
          (mk (mtx s) (resource_mutex s)
              (grant_all [p] (requests s)) q' 0 true)
          [NotifyOne (CV_request p)]).
Proof.
  unfold process_queue, granted_now.
  destruct (request_queue s) as [|p q'] eqn:Hq; [by left|].
  destruct (type_of s p) as [[|]|] eqn:Ht; [| |by left].
  - unfold when_. destruct (writer_active s) eqn:Hwa; simpl; [by left|].
    right; left. exists p, q'. repeat split; try done.
    rewrite (and_then_returned _ _ _ _ _ (grant_read_eq p s)).
    rewrite grant_following_reads_eq. simpl.
    rewrite read_run_alter_granted, Hq, Hwa. simpl.
    replace (active_readers s + 1 + Z.of_nat (length (read_run (requests s) q')))%Z
      with (active_readers s + Z.of_nat (S (length (read_run (requests s) q'))))%Z
      by lia.
    done.
  - unfold when_. destruct (active_readers s =? 0)%Z eqn:Har; simpl; [|by left].
    destruct (writer_active s) eqn:Hwa; simpl; [by left|].
    right; right. exists p, q'. apply Z.eqb_eq in Har.
    repeat split; try done.
    rewrite grant_write_eq, Hq, Har. done.
Qed.

Lemma length_grant_all ps (rs : list Request) :
  length (grant_all ps rs) = length rs.
Proof.
  revert rs; induction ps as [|p ps IH]; intros rs; simpl; [done|].
  unfold grant_all in *. simpl. by rewrite IH, length_alter.
Qed.

Lemma lookup_grant_all ps (rs : list Request) (i : nat) :
  grant_all ps rs !! i =
  (fun r => if bool_decide (i ∈ ps) then mkRequest (type r) true else r)
    <$> rs !! i.
Proof.
  revert rs; induction ps as [|p ps IH]; intros rs.
  - simpl. by destruct (rs !! i).
  - unfold grant_all in *. simpl. rewrite IH.
    destruct (decide (p = i)) as [->|Hne].
    + rewrite list_lookup_alter_eq. destruct (rs !! i) as [r|]; simpl; [|done].
      rewrite (bool_decide_eq_true_2 (i ∈ i :: ps)) by set_solver.
      by destruct (bool_decide (i ∈ ps)).
    + rewrite list_lookup_alter_ne by done.
      destruct (rs !! i) as [r|]; simpl; [|done].
      destruct (bool_decide (i ∈ ps)) eqn:Hin.
      * apply bool_decide_eq_true_1 in Hin.
        rewrite (bool_decide_eq_true_2 (i ∈ p :: ps)); [done|].
        by apply list_elem_of_further.
      * apply bool_decide_eq_false_1 in Hin.
        rewrite (bool_decide_eq_false_2 (i ∈ p :: ps)); [done|].
        intros [->|?]%elem_of_cons; done.
Qed.

Lemma read_run_lookup rs q p :
  p ∈ read_run rs q -> type <$> rs !! p = Some READ.
Proof.
  induction q as [|x q IH]; simpl; [set_solver|].
  destruct (type <$> rs !! x) as [[|]|] eqn:Hx; [|set_solver|set_solver].
  intros [->|Hin]%elem_of_cons; auto.
Qed.

(** After the run of reads, the front of the queue is not a read request. *)
Lemma read_run_maximal rs q x :
  head (drop (length (read_run rs q)) q) = Some x ->
  type <$> rs !! x <> Some READ.
Proof.
  induction q as [|y q IH]; simpl; [done|].
  destruct (type <$> rs !! y) as [[|]|] eqn:Hy; simpl; [done| |];
    intros [= <-]; by rewrite Hy.
Qed.

(** The state [process_queue] leaves, and what it has done on the way. *)
Lemma process_queue_spec s :
  let s' := state_of (process_queue s) in
  process_queue s = Returned tt s' (notify_each (granted_now s)) /\
  request_queue s = granted_now s ++ request_queue s' /\
  requests s' = grant_all (granted_now s) (requests s) /\
  mtx s' = mtx s /\ resource_mutex s' = resource_mutex s.
Proof.
  destruct (process_queue_cases s) as
    [[Hg ->]|[(p & q' & Hq & _ & _ & Hg & ->)|(p & q' & Hq & _ & _ & _ & Hg & ->)]];
    simpl.
  - by rewrite Hg.
  - rewrite Hg, Hq. simpl. split_and!; try done.
    by rewrite read_run_prefix.
  - rewrite Hg, Hq. by split_and!.
Qed.

Lemma granted_now_valid s (p : nat) :
  p ∈ granted_now s -> is_Some (requests s !! p).
Proof.
  unfold granted_now, type_of.
  destruct (request_queue s) as [|x q']; [set_solver|].
  destruct (type <$> requests s !! x) as [[|]|] eqn:Hx; [| |set_solver].
  - destruct (negb (writer_active s)); [|set_solver].
    intros [->|Hin]%elem_of_cons.
    + destruct (requests s !! x); [eauto|done].
    + apply read_run_lookup in Hin. destruct (requests s !! p); [eauto|done].
  - destruct ((active_readers s =? 0)%Z && negb (writer_active s)); [|set_solver].
    intros ->%list_elem_of_singleton. destruct (requests s !! x); [eauto|done].
Qed.

Lemma process_queue_grants s (p : nat) :
  p ∈ granted_now s -> is_granted p (state_of (process_queue s)) = true.
Proof.
  intros Hin. destruct (process_queue_spec s) as (_ & _ & Hr & _).
  unfold is_granted. rewrite Hr, lookup_grant_all.
  destruct (granted_now_valid s p Hin) as [r ->]. simpl.
  by rewrite bool_decide_eq_true_2.
Qed.

Lemma process_queue_keeps_others s (p : nat) :
  p ∉ granted_now s ->
  is_granted p (state_of (process_queue s)) = is_granted p s.
Proof.
  intros Hin. destruct (process_queue_spec s) as (_ & _ & Hr & _).
  unfold is_granted. rewrite Hr, lookup_grant_all.
  destruct (requests s !! p) as [r|]; simpl; [|done].
  by rewrite bool_decide_eq_false_2.
Qed.

(** ** FIFOFair: arrival order *)

Lemma seq_split_prefix k len (g q2 : list nat) :
  seq k len = g ++ q2 ->
  length g <= len /\ g = seq k (length g) /\
  q2 = seq (k + length g) (len - length g).
Proof.
  intros H.
  assert (Hlen : length g + length q2 = len).
  { rewrite <- length_app, <- H. apply length_seq. }
  split; [lia|]. split.
  - transitivity (take (length g) (g ++ q2)); [by rewrite take_app_length|].
    rewrite <- H, take_seq. f_equal. lia.
  - transitivity (drop (length g) (g ++ q2)); [by rewrite drop_app_length|].
    by rewrite <- H, drop_seq.
Qed.

Lemma process_queue_arrival_ordered : preserves arrival_ordered process_queue.
Proof.
  intros s (k & Hk & Hq & Hfl).
  destruct (process_queue_spec s) as (_ & Hsplit & Hr & _).
  rewrite Hq in Hsplit.
  destruct (seq_split_prefix _ _ _ _ Hsplit) as (Hm & Hg & Hq').
  exists (k + length (granted_now s)).
  rewrite Hr, length_grant_all. split; [lia|]. split.
  - rewrite Hq'. f_equal. lia.
  - intros i r. rewrite lookup_grant_all.
    destruct (requests s !! i) as [r0|] eqn:Hi; simpl; [|done].
    intros [= <-]. specialize (Hfl i r0 Hi).
    destruct (bool_decide (i ∈ granted_now s)) eqn:Hin; simpl.
    + apply bool_decide_eq_true_1 in Hin. rewrite Hg in Hin.
      apply elem_of_seq in Hin. symmetry. apply bool_decide_eq_true_2. lia.
    + apply bool_decide_eq_false_1 in Hin. rewrite Hg in Hin.
      rewrite elem_of_seq in Hin. rewrite Hfl.
      apply bool_decide_ext. lia.
Qed.

(** A new request goes to the back of the queue, not granted. *)
Lemma enqueue_arrival_ordered t {B} (k : nat -> M state B) :
  (forall p, preserves arrival_ordered (k p)) ->
  preserves arrival_ordered (let* p := make_request t in push p ;; k p).
Proof.
  intros Hk s (j & Hj & Hq & Hfl).
  unfold bind, and_then, bind, make_request, push, modify. simpl.
  rewrite !state_of_after. apply Hk.
  exists j. simpl. rewrite length_app. simpl. split; [lia|]. split.
  - rewrite Hq. replace (length (requests s) + 1 - j)
      with (S (length (requests s) - j)) by lia.
    rewrite seq_S. do 2 f_equal. lia.
  - intros i r Hi. apply lookup_app_Some in Hi as [Hi|[Hge Hi]]; [by apply Hfl|].
    apply list_lookup_singleton_Some in Hi as [Hi <-]. simpl.
    symmetry. apply bool_decide_eq_false_2. lia.
Qed.

Lemma fair_frame_arrival_ordered f :
  (forall s, requests (f s) = requests s) ->
  (forall s, request_queue (f s) = request_queue s) ->
  forall s, arrival_ordered s -> arrival_ordered (f s).
Proof. intros Hr Hq s. unfold arrival_ordered. by rewrite Hr, Hq. Qed.

Lemma fair_lock_mtx_ordered : preserves arrival_ordered lock_mtx.
Proof. apply preserves_mutex_lock. intros v. by apply fair_frame_arrival_ordered. Qed.
Lemma fair_unlock_mtx_ordered : preserves arrival_ordered unlock_mtx.
Proof. apply preserves_mutex_unlock. intros v. by apply fair_frame_arrival_ordered. Qed.
Lemma fair_lock_resource_ordered : preserves arrival_ordered lock_resource.
Proof. apply preserves_mutex_lock. intros v. by apply fair_frame_arrival_ordered. Qed.
Lemma fair_unlock_resource_ordered : preserves arrival_ordered unlock_resource.
Proof. apply preserves_mutex_unlock. intros v. by apply fair_frame_arrival_ordered. Qed.
Lemma fair_decrement_ordered :
  preserves arrival_ordered
    (modify (fun s => set_active_readers (active_readers s - 1) s)).
Proof. apply preserves_modify. by apply fair_frame_arrival_ordered. Qed.
Lemma fair_clear_writer_ordered :
  preserves arrival_ordered (modify (set_writer_active false)).
Proof. apply preserves_modify. by apply fair_frame_arrival_ordered. Qed.

Hint Resolve process_queue_arrival_ordered fair_lock_mtx_ordered
  fair_unlock_mtx_ordered fair_lock_resource_ordered
  fair_unlock_resource_ordered fair_decrement_ordered
  fair_clear_writer_ordered : pieces.

Lemma fair_step_arrival_ordered s s' :
  step s s' -> arrival_ordered s -> arrival_ordered s'.
Proof.
  intros Hstep; destruct Hstep.
  - apply (preserves_and_then arrival_ordered); [auto with pieces|].
    apply enqueue_arrival_ordered. intros p. auto 10 with pieces.
  - revert s. change (preserves arrival_ordered (lock_wake p)).
    unfold lock_wake. auto 10 with pieces.
  - revert s. change (preserves arrival_ordered read_unlock).
    unfold read_unlock. auto 10 with pieces.
  - apply (preserves_and_then arrival_ordered); [auto with pieces|].
    apply enqueue_arrival_ordered. intros p. auto 10 with pieces.
  - revert s. change (preserves arrival_ordered (write_lock_wake p)).
    unfold write_lock_wake, lock_wake. auto 10 with pieces.
  - apply fair_lock_resource_ordered.
  - revert s. change (preserves arrival_ordered write_unlock).
    unfold write_unlock. auto 10 with pieces.
Qed.

Lemma fair_reachable_arrival_ordered s :
  reachable Fair_engine s -> arrival_ordered s.
Proof.
  induction 1 as [|s s' _ IH Hs'].
  - exists 0. simpl. split; [lia|]. split; [done|]. intros i r Hi. done.
  - by apply (fair_step_arrival_ordered s s').
Qed.

Lemma process_queue_exclusive : preserves fair_exclusive process_queue.
Proof.
  intros s Hs. unfold fair_exclusive, exclusive in *.
  destruct (process_queue_cases s) as
    [[_ ->]|[(p & q' & _ & _ & Hwa & _ & ->)|(p & q' & _ & _ & _ & _ & _ & ->)]];
    simpl; [done| |]; intros [? ?]; [done|lia].
Qed.

Lemma fair_lock_mtx_exclusive : preserves fair_exclusive lock_mtx.
Proof. by apply preserves_mutex_lock. Qed.
Lemma fair_unlock_mtx_exclusive : preserves fair_exclusive unlock_mtx.
Proof. by apply preserves_mutex_unlock. Qed.
Lemma fair_lock_resource_exclusive : preserves fair_exclusive lock_resource.
Proof. by apply preserves_mutex_lock. Qed.
Lemma fair_unlock_resource_exclusive : preserves fair_exclusive unlock_resource.
Proof. by apply preserves_mutex_unlock. Qed.
Lemma fair_make_request_exclusive t : preserves fair_exclusive (make_request t).
Proof. by intros s. Qed.
Lemma fair_push_exclusive p : preserves fair_exclusive (push p).
Proof. by intros s. Qed.

Hint Resolve process_queue_exclusive fair_lock_mtx_exclusive
  fair_unlock_mtx_exclusive fair_lock_resource_exclusive
  fair_unlock_resource_exclusive fair_make_request_exclusive
  fair_push_exclusive : pieces.

Lemma fair_decrement_exclusive :
  preserves fair_exclusive
    (modify (fun s => set_active_readers (active_readers s - 1) s)).
Proof.
  apply preserves_modify. unfold fair_exclusive, exclusive. simpl.
  intros s Hs [? ?]. apply Hs. split; [done|lia].
Qed.

Lemma fair_clear_writer_exclusive :
  preserves fair_exclusive (modify (set_writer_active false)).
Proof.
  apply preserves_modify. unfold fair_exclusive, exclusive. simpl.
  by intros s Hs [? ?].
Qed.

Hint Resolve fair_decrement_exclusive fair_clear_writer_exclusive : pieces.

Lemma fair_read_lock_exclusive : preserves fair_exclusive read_lock.
Proof.
  apply preserves_and_then; [auto with pieces|].
  apply preserves_bind; [auto with pieces|intros p]. auto 10 with pieces.
Qed.

Lemma fair_lock_wake_exclusive p : preserves fair_exclusive (lock_wake p).
Proof. unfold lock_wake. auto 10 with pieces. Qed.

Lemma fair_read_unlock_exclusive : preserves fair_exclusive read_unlock.
Proof. unfold read_unlock. auto 10 with pieces. Qed.

Lemma fair_write_lock_exclusive : preserves fair_exclusive write_lock.
Proof.
  apply preserves_and_then; [auto with pieces|].
  apply preserves_bind; [auto with pieces|intros p]. auto 10 with pieces.
Qed.

Lemma fair_write_lock_wake_exclusive p :
  preserves fair_exclusive (write_lock_wake p).
Proof. unfold write_lock_wake, lock_wake. auto 10 with pieces. Qed.

Lemma fair_write_unlock_exclusive : preserves fair_exclusive write_unlock.
Proof. unfold write_unlock. auto 10 with pieces. Qed.

Lemma fair_step_exclusive s s' :
  step s s' -> fair_exclusive s -> fair_exclusive s'.
Proof.
  intros Hstep; destruct Hstep.
  - apply fair_read_lock_exclusive.
  - apply fair_lock_wake_exclusive.
  - apply fair_read_unlock_exclusive.
  - apply fair_write_lock_exclusive.
  - apply fair_write_lock_wake_exclusive.
  - apply fair_lock_resource_exclusive.
  - apply fair_write_unlock_exclusive.
Qed.
End FairFacts.

(** ** C1: exclusivity *)

(** C1.  For every lock class that keeps a reader count and a
    [writer_active] flag (the two writer-preference locks, the
    reader-preference lock, the fair lock and the monitor), every state of
    the fields that can be reached from the initial one satisfies
    NOT (writer_active AND active_readers > 0), and every piece of every
    acquire and release function keeps that predicate. *)
Theorem exclusivity_invariant (p : policy) :
  (forall s, reachable (engine p) s -> exclusive_in (engine p) s) /\
  (forall s s', exclusive_in (engine p) s -> @engine_step _ (engine p) s s' ->
                exclusive_in (engine p) s').
Proof.
  assert (Hstep : forall s s', exclusive_in (engine p) s ->
                               @engine_step _ (engine p) s s' ->
                               exclusive_in (engine p) s').
  { destruct p; unfold exclusive_in; simpl; intros s s' Hs.
    - intros (f & Hf & ->). by apply wp_piece_exclusive.
    - intros (f & Hf & ->). by apply edu_piece_exclusive.
    - intros (f & Hf & ->). by apply rp_piece_exclusive.
    - intros Hst. by apply (fair_step_exclusive s s').
    - intros (f & Hf & ->). by apply monitor_piece_exclusive. }
  split; [|exact Hstep].
  induction 1 as [|s s' _ IH Hs'].
  - destruct p; unfold exclusive_in, exclusive; simpl; by intros [? ?].
  - by apply (Hstep s s').
Qed.

(** The invariant at work: after a first reader got in under writer
    preference, the fields are still exclusive. *)
Lemma exclusivity_invariant_witness :
  exclusive_in (engine WriterPreference_cpp)
    (state_of (WriterPreference.read_lock WriterPreference.init)).
Proof.
  apply (proj2 (exclusivity_invariant WriterPreference_cpp)
               WriterPreference.init).
  - apply (proj1 (exclusivity_invariant WriterPreference_cpp)).
    apply reachable_init.
  - exists WriterPreference.read_lock. split; [constructor|reflexivity].
Defined.

(** ** C2: the admission predicates of the writer-preference locks *)

Lemma wp_read_lock_admission s :
  WriterPreference.mtx s = Unlocked ->
  (WriterPreference.read_pred s = true ->
     WriterPreference.reader_count (state_of (WriterPreference.read_lock s))
       = (WriterPreference.reader_count s + 1)%Z
     /\ forall c s' t, WriterPreference.read_lock s <> Waiting c s' t) /\
  (WriterPreference.read_pred s = false ->
     WriterPreference.read_lock s =
       Waiting CV_write_cv s [Acquire L_mtx; Release L_mtx; WaitOn CV_write_cv]).
Proof.
  destruct s as [m r rc wa ww]; simpl; intros ->.
  split; intros Hp; destruct r, wa; wp_unfold; case_tests; wp_unfold;
    try discriminate; try (split; [lia|discriminate]); try reflexivity;
    try (split; [reflexivity|discriminate]).
Qed.

Lemma wp_write_lock_admission s :
  WriterPreference.mtx s = Unlocked ->
  (WriterPreference.write_pred s = true ->
     (let s' := state_of (WriterPreference.write_lock_wake s) in
      WriterPreference.writer_active s' = true /\
      WriterPreference.waiting_writers s' = (WriterPreference.waiting_writers s - 1)%Z /\
      forall c s'' t, WriterPreference.write_lock_wake s <> Waiting c s'' t) /\
     (let s' := state_of (WriterPreference.write_lock s) in
      WriterPreference.writer_active s' = true /\
      WriterPreference.waiting_writers s' = WriterPreference.waiting_writers s /\
      forall c s'' t, WriterPreference.write_lock s <> Waiting c s'' t)) /\
  (WriterPreference.write_pred s = false ->
     WriterPreference.write_lock_wake s =
       Waiting CV_write_cv s [Acquire L_mtx; Release L_mtx; WaitOn CV_write_cv] /\
     WriterPreference.write_lock s =
       Waiting CV_write_cv
         (WriterPreference.set_waiting_writers (WriterPreference.waiting_writers s + 1) s)
         [Acquire L_mtx; Release L_mtx; WaitOn CV_write_cv]).
Proof.
  destruct s as [m r rc wa ww]; simpl; intros ->.
  split; intros Hp; destruct r, wa; wp_unfold; case_tests; wp_unfold;
    try discriminate; repeat split; try lia; try discriminate.
Qed.

Lemma edu_read_lock_admission s :
  Educational.mtx s = Unlocked ->
  (Educational.read_pred s = true ->
     Educational.read_lock s =
       Returned tt (Educational.set_reader_count (Educational.reader_count s + 1) s)
                [Acquire L_mtx; Release L_mtx]) /\
  (Educational.read_pred s = false ->
     Educational.read_lock s =
       Waiting CV_cv s [Acquire L_mtx; Release L_mtx; WaitOn CV_cv]).
Proof.
  destruct s as [m rc wa ww]; simpl; intros ->.
  split; intros Hp; destruct wa; edu_unfold; case_tests; edu_unfold;
    try discriminate; reflexivity.
Qed.

Lemma edu_write_lock_admission s :
  Educational.mtx s = Unlocked ->
  (Educational.write_pred s = true ->
     Educational.write_lock_wake s =
       Returned tt
         (Educational.set_writer_active true
            (Educational.set_waiting_writers (Educational.waiting_writers s - 1) s))
         [Acquire L_mtx; Release L_mtx] /\
     Educational.writer_active (state_of (Educational.write_lock s)) = true /\
     Educational.waiting_writers (state_of (Educational.write_lock s))
       = Educational.waiting_writers s /\
     returned (Educational.write_lock s) = true) /\
  (Educational.write_pred s = false ->
     Educational.write_lock_wake s =
       Waiting CV_cv s [Acquire L_mtx; Release L_mtx; WaitOn CV_cv] /\
     Educational.write_lock s =
       Waiting CV_cv
         (Educational.set_waiting_writers (Educational.waiting_writers s + 1) s)
         [Acquire L_mtx; Release L_mtx; WaitOn CV_cv]).
Proof.
  destruct s as [m rc wa ww]; simpl; intros ->.
  split; intros Hp; destruct wa; edu_unfold; case_tests; edu_unfold;
    try discriminate; repeat split; try lia; try discriminate.
Qed.



(** ** C3: grant order of the fair lock *)

Lemma fair_granted_in_arrival_order s (i j : nat) :
  reachable Fair_engine s -> i < j ->
  Fair.is_granted j s = true -> Fair.is_granted i s = true.
Proof.
  intros Hr Hij Hj. apply fair_reachable_arrival_ordered in Hr as (k & Hk & _ & Hfl).
  unfold Fair.is_granted in *.
  destruct (Fair.requests s !! j) as [rj|] eqn:Ej; [|done].
  assert (Hjk : j < k).
  { rewrite (Hfl j rj Ej) in Hj. by apply bool_decide_eq_true_1 in Hj. }
  apply lookup_lt_Some in Ej.
  destruct (lookup_lt_is_Some_2 (Fair.requests s) i) as [ri Ei]; [lia|].
  rewrite Ei, (Hfl i ri Ei). apply bool_decide_eq_true_2. lia.
Qed.

(** C3.  [process_queue] grants a front segment of the queue, in queue
    order, and nothing else; a granted Read at the front takes with it every
    Read that follows it without interruption, and the pass stops in front
    of the first Write; a Write is granted only at the front, alone, with no
    reader and no writer active.  Over every execution, a request is granted
    only if every request that arrived before it is granted.  For the queue
    [Read, Read, Write, Read] behind an active writer: when the writer
    leaves, the two Reads are granted in one pass; the Write is granted
    when the second of them has left, not before; the last Read is granted
    only when that Write has left. *)
Theorem fifo_grant_order :
  (forall s, let s' := state_of (Fair.process_queue s) in
     Fair.process_queue s = Returned tt s' (Fair.notify_each (Fair.granted_now s)) /\
     Fair.request_queue s = Fair.granted_now s ++ Fair.request_queue s' /\
     (forall p : nat, p ∈ Fair.granted_now s -> Fair.is_granted p s' = true) /\
     (forall p : nat, p ∉ Fair.granted_now s ->
        Fair.is_granted p s' = Fair.is_granted p s)) /\
  (forall s p q', Fair.request_queue s = p :: q' ->
     Fair.type_of s p = Some Fair.READ ->
     Fair.granted_now s =
       (if Fair.writer_active s then []
        else p :: Fair.read_run (Fair.requests s) q') /\
     (Fair.writer_active s = false ->
      forall x, head (Fair.request_queue (state_of (Fair.process_queue s))) = Some x ->
                Fair.type_of s x <> Some Fair.READ)) /\
  (forall s p q', Fair.request_queue s = p :: q' ->
     Fair.type_of s p = Some Fair.WRITE ->
     Fair.granted_now s =
       if (Fair.active_readers s =? 0)%Z && negb (Fair.writer_active s)
       then [p] else []) /\
  (forall s (i j : nat), reachable Fair_engine s -> i < j ->
     Fair.is_granted j s = true -> Fair.is_granted i s = true) /\
  (reachable Fair_engine Fair.scenario_queued /\
   Fair.request_queue Fair.scenario_queued = [1; 2; 3; 4] /\
   Fair.type_of Fair.scenario_queued <$> [1; 2; 3; 4]
     = [Some Fair.READ; Some Fair.READ; Some Fair.WRITE; Some Fair.READ] /\
   Fair.granted_now Fair.scenario_queued = [] /\
   notifications (trace_of (Fair.write_unlock Fair.scenario_queued))
     = [NotifyOne (CV_request 1); NotifyOne (CV_request 2)] /\
   Fair.active_readers Fair.scenario_writer_left = 2%Z /\
   Fair.request_queue Fair.scenario_writer_left = [3; 4] /\
   Fair.granted_now Fair.scenario_writer_left = [] /\
   notifications (trace_of (Fair.read_unlock Fair.scenario_writer_left)) = [] /\
   Fair.request_queue Fair.scenario_one_reader_left = [3; 4] /\
   notifications (trace_of (Fair.read_unlock Fair.scenario_one_reader_left))
     = [NotifyOne (CV_request 3)] /\
   Fair.writer_active Fair.scenario_readers_left = true /\
   Fair.request_queue Fair.scenario_readers_left = [4] /\
   Fair.is_granted 4 Fair.scenario_readers_left = false /\
   Fair.is_granted 4 Fair.scenario_second_writer_left = true).
Proof.
  split_and!.
  - intros s s'. subst s'. destruct (process_queue_spec s) as (H1 & H2 & _).
    split_and!; [done|done| |].
    + apply process_queue_grants.
    + apply process_queue_keeps_others.
  - intros s p q' Hq Ht. split.
    + unfold Fair.granted_now. rewrite Hq, Ht. by destruct (Fair.writer_active s).
    + intros Hwa x.
      destruct (process_queue_cases s) as
        [[Hg _]|[(p' & q'' & Hq' & _ & _ & Hg & ->)|(p' & q'' & Hq' & Ht' & _)]].
      * unfold Fair.granted_now in Hg. rewrite Hq, Ht, Hwa in Hg. done.
      * simpl. rewrite Hg, Hq'. simpl. apply read_run_maximal.
      * rewrite Hq in Hq'. injection Hq' as <- <-. congruence.
  - intros s p q' Hq Ht. unfold Fair.granted_now. by rewrite Hq, Ht.
  - intros s i j. apply fair_granted_in_arrival_order.
  - unfold Fair.scenario_queued.
    repeat (eapply reachable_step; [|cbn [engine_step Fair_engine]; constructor]).
    apply reachable_init.
  - reflexivity.
  - reflexivity.
  - reflexivity.
  - reflexivity.
  - reflexivity.
  - reflexivity.
  - reflexivity.
  - reflexivity.
  - reflexivity.
  - reflexivity.
  - reflexivity.
  - reflexivity.
  - reflexivity.
  - reflexivity.
Qed.

(** In the scenario, once the writer has left, request 2 is granted, and so
    is request 1, which arrived before it. *)
Lemma fifo_grant_order_witness :
  Fair.is_granted 1 Fair.scenario_writer_left = true.
Proof.
  destruct fifo_grant_order as (_ & _ & _ & H & _).
  apply (H Fair.scenario_writer_left 1 2).
  - unfold Fair.scenario_writer_left, Fair.scenario_queued.
    repeat (eapply reachable_step; [|cbn [engine_step Fair_engine]; constructor]).
    apply reachable_init.
  - lia.
  - reflexivity.
Defined.

(** ** C4: release without a matching admission *)

Ltac sem_unfold :=
  cbv [
      Semaphore.writer_lock Semaphore.writer_lock_announce
      Semaphore.writer_lock_take Semaphore.writer_lock_clear
      Semaphore.reader_lock_resume
      Semaphore.writer_unlock Semaphore.reader_lock_pass
      Semaphore.reader_unlock Semaphore.wait_mutex Semaphore.post_mutex
      Semaphore.wait_write_mutex Semaphore.post_write_mutex
      Semaphore.wait_read_mutex Semaphore.post_read_mutex
      Semaphore.mutex Semaphore.write_mutex Semaphore.read_mutex
      Semaphore.reader_count Semaphore.writer_waiting
      Semaphore.set_mutex Semaphore.set_write_mutex Semaphore.set_read_mutex
      Semaphore.set_reader_count Semaphore.set_writer_waiting
      Semaphore.init] in *;
  run_pieces.

Section FairRelease.
Import Fair.

Lemma fair_wait_granted p s :
  mtx s = Locked ->
  forall {B} (k : M state B),
  (cv_wait (CV_request p) unlock_mtx (is_granted p) ;; unlock_mtx ;; k) s =
  if is_granted p s
  then after [Release L_mtx] (k (set_mtx Unlocked s))
  else Waiting (CV_request p) (set_mtx Unlocked s)
         [Release L_mtx; WaitOn (CV_request p)].
Proof.
  intros Hm B k. unfold and_then, bind, cv_wait, unlock_mtx, mutex_unlock.
  destruct (is_granted p s); simpl; rewrite Hm; simpl; [|done].
  apply after_nil.
Qed.

(** An arriving request: what [read_lock] and [write_lock] do up to the end
    of the wait, [k] being the rest of the function. *)
Lemma fair_arrive t {B} (k : nat -> M state B) s :
  mtx s = Unlocked ->
  let p := length (requests s) in
  let s1 := mk Locked (resource_mutex s) (requests s ++ [mkRequest t false])
               (request_queue s ++ [p]) (active_readers s) (writer_active s) in
  let s2 := state_of (process_queue s1) in
  (lock_mtx ;;
   let* p := make_request t in
   push p ;; process_queue ;;
   cv_wait (CV_request p) unlock_mtx (is_granted p) ;; unlock_mtx ;; k p) s
  = if is_granted p s2
    then after ([Acquire L_mtx] ++ notify_each (granted_now s1) ++ [Release L_mtx])
               (k p (set_mtx Unlocked s2))
    else Waiting (CV_request p) (set_mtx Unlocked s2)
           ([Acquire L_mtx] ++ notify_each (granted_now s1)
              ++ [Release L_mtx; WaitOn (CV_request p)]).
Proof.
  intros Hm p s1 s2. unfold lock_mtx. rewrite and_then_lock by done.
  unfold bind at 1, make_request. cbv beta iota. rewrite after_nil.
  unfold push. rewrite and_then_modify.
  change (set_request_queue _ _) with s1.
  destruct (process_queue_spec s1) as (Hpq & _ & _ & Hm2 & _).
  rewrite (and_then_returned _ _ _ _ _ Hpq).
  fold s2 in Hm2 |- *. rewrite (fair_wait_granted p s2 Hm2).
  destruct (is_granted p s2); simpl; [|done].
  rewrite !after_after. by rewrite <- !app_assoc.
Qed.

Lemma fair_read_unlock_eq s :
  mtx s = Unlocked ->
  read_unlock s =
  after [Acquire L_mtx]
    ((when_ (fun s => (active_readers s =? 0)%Z) unlock_resource ;;
      process_queue ;; unlock_mtx)
       (set_active_readers (active_readers s - 1) (set_mtx Locked s))).
Proof.
  intros Hm. unfold read_unlock, lock_mtx.
  by rewrite and_then_lock, and_then_modify.
Qed.

Lemma process_queue_then_unlock s :
  mtx s = Locked ->
  (process_queue ;; unlock_mtx) s =
  Returned tt (set_mtx Unlocked (state_of (process_queue s)))
    (notify_each (granted_now s) ++ [Release L_mtx]).
Proof.
  intros Hm. destruct (process_queue_spec s) as (Hpq & _ & _ & Hm' & _).
  rewrite (and_then_returned _ _ _ _ _ Hpq).
  unfold unlock_mtx, mutex_unlock. by rewrite Hm', Hm.
Qed.

Lemma process_queue_readers s :
  (active_readers s <= active_readers (state_of (process_queue s)))%Z /\
  (request_queue s = [] -> state_of (process_queue s) = s).
Proof.
  destruct (process_queue_cases s) as
    [[_ ->]|[(p & q' & Hq & _ & _ & _ & ->)|(p & q' & Hq & _ & _ & Har & _ & ->)]];
    simpl; split; try done; try lia; by rewrite Hq.
Qed.

Lemma fair_read_unlock_returns s :
  mtx s = Unlocked ->
  returned (read_unlock s) = true /\
  (active_readers s - 1 <= active_readers (state_of (read_unlock s)))%Z /\
  (request_queue s = [] ->
   active_readers (state_of (read_unlock s)) = (active_readers s - 1)%Z).
Proof.
  intros Hm. rewrite (fair_read_unlock_eq s Hm).
  set (s1 := set_active_readers (active_readers s - 1) (set_mtx Locked s)).
  assert (Hs2 : exists s2 t, when_ (fun s => (active_readers s =? 0)%Z) unlock_resource s1
                   = Returned tt s2 t /\ mtx s2 = Locked /\
                   active_readers s2 = (active_readers s - 1)%Z /\
                   request_queue s2 = request_queue s).
  { unfold when_, unlock_resource, mutex_unlock, skip, ret.
    destruct (active_readers s1 =? 0)%Z; [destruct (resource_mutex s1)|]; eauto 10. }
  destruct Hs2 as (s2 & t & Hw & Hm2 & Har2 & Hq2).
  rewrite (and_then_returned _ _ _ _ _ Hw), (process_queue_then_unlock s2 Hm2).
  simpl. destruct (process_queue_readers s2) as [Hle Hempty].
  split_and!; [done|lia|]. intros Hq. rewrite Hempty by congruence. done.
Qed.

Lemma fair_write_unlock_returns s :
  mtx s = Unlocked -> returned (write_unlock s) = true.
Proof.
  intros Hm. unfold write_unlock, lock_mtx.
  rewrite and_then_lock, and_then_modify by done.
  set (s1 := set_writer_active false (set_mtx Locked s)).
  assert (Hs2 : exists s2 t, unlock_resource s1 = Returned tt s2 t /\ mtx s2 = Locked).
  { unfold unlock_resource, mutex_unlock. destruct (resource_mutex s1); eauto. }
  destruct Hs2 as (s2 & t & Hw & Hm2).
  rewrite (and_then_returned _ _ _ _ _ Hw), (process_queue_then_unlock s2 Hm2).
  done.
Qed.
(** A reader that arrives at an empty queue with no writer active is let in
    by its own admission pass. *)
Lemma fair_read_lock_free s :
  mtx s = Unlocked -> request_queue s = [] -> writer_active s = false ->
  returned (read_lock s) = true /\
  mtx (state_of (read_lock s)) = Unlocked /\
  request_queue (state_of (read_lock s)) = [] /\
  active_readers (state_of (read_lock s)) = (active_readers s + 1)%Z.
Proof.
  intros Hm Hq Hw. unfold read_lock.
  rewrite (fair_arrive READ (fun p => ret p) s Hm).
  set (p := length (requests s)).
  set (s1 := mk Locked _ _ _ _ _).
  assert (Ht : type_of s1 p = Some READ).
  { unfold type_of, s1, p. cbn [requests]. rewrite lookup_app_r by lia.
    by replace (length (requests s) - length (requests s)) with 0 by lia. }
  assert (Hg : granted_now s1 = [p]).
  { unfold granted_now. unfold s1 at 1. cbn [request_queue]. rewrite Hq.
    cbn [app]. rewrite Ht. unfold s1 at 1. cbn [writer_active]. by rewrite Hw. }
  destruct (process_queue_cases s1) as
    [[Hn _]|[(p' & q' & Hq' & _ & _ & _ & Hpq)|(p' & q' & Hq' & Ht' & _)]].
  - by rewrite Hg in Hn.
  - rewrite Hpq, Hg. cbn [state_of].
    assert (Hgr : is_granted p
      (mk (mtx s1) (resource_mutex s1) (grant_all [p] (requests s1))
          (drop (length [p]) (request_queue s1))
          (active_readers s1 + Z.of_nat (length [p])) false) = true).
    { unfold is_granted, grant_all. cbn [requests foldl].
      rewrite list_lookup_alter_eq.
      unfold type_of in Ht. destruct (requests s1 !! p); [done|done]. }
    rewrite Hgr. unfold s1. cbn. rewrite Hq. cbn. split_and!; try done.
  - unfold s1 in Hq'. cbn [request_queue] in Hq'. rewrite Hq in Hq'.
    injection Hq' as <- <-. congruence.
Qed.

(** [write_unlock] clears [writer_active] and then runs the admission pass:
    the flag is set again exactly when that pass lets in a writer, which it
    does when a write request is at the front and no reader is inside. *)
Lemma fair_write_unlock_flag s :
  mtx s = Unlocked ->
  writer_active (state_of (write_unlock s))
  = match request_queue s with
    | p :: _ =>
        match type_of s p with
        | Some WRITE => (active_readers s =? 0)%Z
        | _ => false
        end
    | [] => false
    end.
Proof.
  intros Hm. unfold write_unlock, lock_mtx.
  rewrite and_then_lock, and_then_modify by done.
  set (s1 := set_writer_active false (set_mtx Locked s)).
  assert (Hs2 : exists s2 t, unlock_resource s1 = Returned tt s2 t /\
            mtx s2 = Locked /\ requests s2 = requests s /\
            request_queue s2 = request_queue s /\
            active_readers s2 = active_readers s /\ writer_active s2 = false).
  { unfold unlock_resource, mutex_unlock.
    destruct (resource_mutex s1); eauto 10. }
  destruct Hs2 as (s2 & t & Hw & Hm2 & Hrs & Hq & Har & Hwa).
  rewrite (and_then_returned _ _ _ _ _ Hw), (process_queue_then_unlock s2 Hm2).
  cbn [after state_of]. unfold set_mtx. cbn [writer_active].
  unfold type_of. rewrite <- Hq, <- Hrs, <- Har.
  destruct (process_queue_cases s2) as
    [[Hn ->]|[(p & q' & Hq' & Ht & _ & _ & ->)|(p & q' & Hq' & Ht & _ & Har' & _ & ->)]];
    cbn [state_of writer_active].
  - rewrite Hwa. unfold granted_now, type_of in Hn.
    destruct (request_queue s2) as [|p q']; [done|].
    destruct (type <$> requests s2 !! p) as [[|]|]; [done| |done].
    rewrite Hwa in Hn. cbn in Hn.
    destruct (active_readers s2 =? 0)%Z; [done|done].
  - rewrite Hq'. unfold type_of in Ht. by rewrite Ht.
  - rewrite Hq'. unfold type_of in Ht. rewrite Ht, Har'. done.
Qed.
End FairRelease.

(** C4, as the code has it.  No release function checks for a matching
    admission and none reports a fault: with the bookkeeping mutex (or
    semaphore) free, every release returns normally.  In the four classes
    with one reader count and no queue a read release takes exactly one
    off the reader count whatever its value, a write release leaves
    [writer_active] false, and a read release that follows its own acquire
    puts the reader count back.  In the fair lock a read release leaves
    [active_readers] no lower than one below its old value, and exactly
    one below when the queue is empty; a write release clears
    [writer_active] and then runs the admission pass, so the flag ends
    true exactly when a write request is at the front of the queue and no
    reader is inside; a reader that arrives at an empty queue with no
    writer active gets in, and its release puts [active_readers] back.  In
    the semaphore lock [reader_unlock] takes one off [reader_count] and
    [writer_unlock] adds one to [write_mutex]; a pass of [reader_lock] that
    reads [writer_waiting] as false, followed by [reader_unlock], puts
    [reader_count] back, and [writer_lock] followed by [writer_unlock] puts
    [write_mutex] back. *)
Theorem release_is_unchecked :
  (forall s, WriterPreference.mtx s = Unlocked ->
     returned (WriterPreference.read_unlock s) = true /\
     WriterPreference.reader_count (state_of (WriterPreference.read_unlock s))
       = (WriterPreference.reader_count s - 1)%Z /\
     returned (WriterPreference.write_unlock s) = true /\
     WriterPreference.writer_active (state_of (WriterPreference.write_unlock s)) = false /\
     (returned (WriterPreference.read_lock s) = true ->
      WriterPreference.reader_count
        (state_of (WriterPreference.read_unlock (state_of (WriterPreference.read_lock s))))
        = WriterPreference.reader_count s)) /\
  (forall s, Educational.mtx s = Unlocked ->
     returned (Educational.read_unlock s) = true /\
     Educational.reader_count (state_of (Educational.read_unlock s))
       = (Educational.reader_count s - 1)%Z /\
     returned (Educational.write_unlock s) = true /\
     Educational.writer_active (state_of (Educational.write_unlock s)) = false /\
     (returned (Educational.read_lock s) = true ->
      Educational.reader_count
        (state_of (Educational.read_unlock (state_of (Educational.read_lock s))))
        = Educational.reader_count s)) /\
  (forall s, ReaderPreference.mtx s = Unlocked ->
     returned (ReaderPreference.read_unlock s) = true /\
     ReaderPreference.reader_count (state_of (ReaderPreference.read_unlock s))
       = (ReaderPreference.reader_count s - 1)%Z /\
     returned (ReaderPreference.write_unlock s) = true /\
     ReaderPreference.writer_active (state_of (ReaderPreference.write_unlock s)) = false /\
     (returned (ReaderPreference.read_lock s) = true ->
      ReaderPreference.reader_count
        (state_of (ReaderPreference.read_unlock (state_of (ReaderPreference.read_lock s))))
        = ReaderPreference.reader_count s)) /\
  (forall s, Monitor.monitor_mutex s = Unlocked ->
     returned (Monitor.end_read s) = true /\
     Monitor.reader_count (state_of (Monitor.end_read s))
       = (Monitor.reader_count s - 1)%Z /\
     returned (Monitor.end_write s) = true /\
     Monitor.writer_active (state_of (Monitor.end_write s)) = false /\
     (returned (Monitor.start_read s) = true ->
      Monitor.reader_count
        (state_of (Monitor.end_read (state_of (Monitor.start_read s))))
        = Monitor.reader_count s)) /\
  (forall s, Fair.mtx s = Unlocked ->
     returned (Fair.read_unlock s) = true /\
     (Fair.active_readers s - 1 <= Fair.active_readers (state_of (Fair.read_unlock s)))%Z /\
     (Fair.request_queue s = [] ->
      Fair.active_readers (state_of (Fair.read_unlock s))
        = (Fair.active_readers s - 1)%Z) /\
     returned (Fair.write_unlock s) = true /\
     Fair.writer_active (state_of (Fair.write_unlock s))
       = match Fair.request_queue s with
         | p :: _ =>
             match Fair.type_of s p with
             | Some Fair.WRITE => (Fair.active_readers s =? 0)%Z
             | _ => false
             end
         | [] => false
         end /\
     (Fair.request_queue s = [] -> Fair.writer_active s = false ->
      returned (Fair.read_lock s) = true /\
      Fair.active_readers
        (state_of (Fair.read_unlock (state_of (Fair.read_lock s))))
        = Fair.active_readers s)) /\
  (forall s, (0 < Semaphore.mutex s)%Z ->
     returned (Semaphore.reader_unlock s) = true /\
     Semaphore.reader_count (state_of (Semaphore.reader_unlock s))
       = (Semaphore.reader_count s - 1)%Z /\
     returned (Semaphore.writer_unlock s) = true /\
     Semaphore.write_mutex (state_of (Semaphore.writer_unlock s))
       = (Semaphore.write_mutex s + 1)%Z /\
     (result_of (Semaphore.reader_lock_pass s) = Some false ->
      Semaphore.reader_count
        (state_of (Semaphore.reader_unlock
                     (state_of (Semaphore.reader_lock_pass s))))
        = Semaphore.reader_count s) /\
     (returned (Semaphore.writer_lock s) = true ->
      Semaphore.write_mutex
        (state_of (Semaphore.writer_unlock (state_of (Semaphore.writer_lock s))))
        = Semaphore.write_mutex s)).
Proof.
  split_and!.
  - intros [m r rc wa ww]; simpl; intros ->.
    split_and!; try intros Hret; destruct r, wa; wp_unfold; case_tests; wp_unfold;
      try discriminate; try reflexivity; try lia.
  - intros [m rc wa ww]; simpl; intros ->.
    split_and!; try intros Hret; destruct wa; edu_unfold; case_tests; edu_unfold;
      try discriminate; try reflexivity; try lia.
  - intros [m r rc wa]; simpl; intros ->.
    split_and!; try intros Hret; destruct r, wa; rp_unfold; case_tests; rp_unfold;
      try discriminate; try reflexivity; try lia.
  - intros [m rc wa wr ww]; simpl; intros ->.
    split_and!; try intros Hret; destruct wa; mon_unfold; case_tests; mon_unfold;
      try discriminate; try reflexivity; try lia.
  - intros s Hm. destruct (fair_read_unlock_returns s Hm) as (H1 & H2 & H3).
    split_and!; try done.
    + by apply fair_write_unlock_returns.
    + by apply fair_write_unlock_flag.
    + intros Hq Hw.
      destruct (fair_read_lock_free s Hm Hq Hw) as (Hr & Hm' & Hq' & Har).
      split; [done|].
      destruct (fair_read_unlock_returns _ Hm') as (_ & _ & Hback).
      rewrite (Hback Hq'), Har. lia.
  - intros [m wm rm rc ww]; simpl; intros Hm.
    split_and!; try intros Hret; destruct ww; sem_unfold;
      repeat (first [progress case_tests | progress sem_unfold]; try lia);
      try discriminate; try reflexivity; try lia.
Qed.

(** A first reader comes and goes under writer preference, and the count
    is back at 0.  In the fair lock a writer that leaves while a second
    writer is queued hands over: [writer_active] is true after its
    [write_unlock]. *)
Lemma release_is_unchecked_witness :
  WriterPreference.reader_count
    (state_of (WriterPreference.read_unlock
       (state_of (WriterPreference.read_lock WriterPreference.init))))
  = WriterPreference.reader_count WriterPreference.init /\
  Fair.writer_active
    (state_of (Fair.write_unlock
       (state_of (Fair.write_lock (state_of (Fair.write_lock Fair.init))))))
  = true.
Proof.
  destruct release_is_unchecked as (Hwp & _ & _ & _ & Hfair & _).
  split.
  - destruct (Hwp WriterPreference.init eq_refl) as (_ & _ & _ & _ & Hback).
    exact (Hback eq_refl).
  - destruct (Hfair (state_of (Fair.write_lock
                       (state_of (Fair.write_lock Fair.init)))) eq_refl)
      as (_ & _ & _ & _ & Hflag & _).
    exact Hflag.
Defined.

(** C4 as claimed fails: one acquire followed by two releases.  The second
    release returns like the first, and the reader count is -1. *)
Lemma double_release_goes_negative :
  returned (WriterPreference.read_unlock
    (state_of (WriterPreference.read_unlock
       (state_of (WriterPreference.read_lock WriterPreference.init))))) = true /\
  WriterPreference.reader_count
    (state_of (WriterPreference.read_unlock
       (state_of (WriterPreference.read_unlock
          (state_of (WriterPreference.read_lock WriterPreference.init))))))
  = (-1)%Z.
Proof. split; reflexivity. Qed.

(** ** C5: the reader-preference lock *)



(** ** C6: the monitor *)

(** C6, as the code has it.  With the monitor mutex free and the counters
    not negative, [start_read] and [start_write] get past their waits
    exactly when the writer-preference lock does on the same fields.
    [end_write] chooses by the counters, not by the threads that are
    suspended: if [waiting_writers] is positive it issues one
    [notify_one] on [write_cv], which resumes one suspended writer if one
    is suspended and nobody otherwise; if not and [waiting_readers] is
    positive it issues [notify_all] on [read_cv], which resumes every
    suspended reader; else nothing.  When the threads suspended on each
    condition variable are as many as its counter says, this is the rule
    of the specification.  [end_read] resumes
    one suspended writer when it takes the reader count to 0 and
    [waiting_writers] is positive; in every other case it resumes
    nobody. *)
Theorem monitor_behaviour (s : Monitor.state) (w : CondVar -> nat) :
  Monitor.monitor_mutex s = Unlocked ->
  (0 <= Monitor.reader_count s)%Z ->
  (0 <= Monitor.waiting_writers s)%Z ->
  (past_wait (Monitor.start_read s)
     = Educational.read_pred (Monitor.as_writer_preference s) /\
   past_wait (Monitor.start_read_wake s)
     = past_wait (Educational.read_lock (Monitor.as_writer_preference s)) /\
   past_wait (Monitor.start_write s)
     = Educational.write_pred (Monitor.as_writer_preference s) /\
   past_wait (Monitor.start_write_wake s)
     = past_wait (Educational.write_lock_wake (Monitor.as_writer_preference s))) /\
  (notifications (trace_of (Monitor.end_write s))
     = (if (0 <? Monitor.waiting_writers s)%Z then [NotifyOne CV_write_cv]
        else if (0 <? Monitor.waiting_readers s)%Z then [NotifyAll CV_read_cv]
        else []) /\
   forall c, woken (trace_of (Monitor.end_write s)) w c
     = if (0 <? Monitor.waiting_writers s)%Z
       then (if decide (c = CV_write_cv) then Nat.min 1 (w CV_write_cv) else 0)
       else if (0 <? Monitor.waiting_readers s)%Z
       then (if decide (c = CV_read_cv) then w CV_read_cv else 0)
       else 0) /\
  (w CV_write_cv = Z.to_nat (Monitor.waiting_writers s) ->
   w CV_read_cv = Z.to_nat (Monitor.waiting_readers s) ->
   forall c, woken (trace_of (Monitor.end_write s)) w c
             = Monitor.spec_release_wakes w c) /\
  (forall c, woken (trace_of (Monitor.end_read s)) w c
     = if (Monitor.reader_count s =? 1)%Z && (0 <? Monitor.waiting_writers s)%Z
       then (if decide (c = CV_write_cv) then Nat.min 1 (w CV_write_cv) else 0)
       else 0).
Proof.
  destruct s as [m rc wa wr ww]; simpl; intros -> Hrc Hww.
  unfold Monitor.as_writer_preference, Monitor.spec_release_wakes.
  split_and!; try intros Hw1 Hw2; try intros c;
    destruct wa; mon_unfold; edu_unfold; case_tests; mon_unfold; edu_unfold;
    try discriminate; try reflexivity; try lia;
    cbn [woken notifications filter list_filter is_notify];
    repeat case_decide; subst; try done; try lia;
    repeat match goal with
      | |- context [(?a <? ?b)%nat] => destruct (Nat.ltb_spec a b)
      end; try lia.
Qed.

(** A writer is inside, one writer is suspended on [write_cv] and two
    readers on [read_cv]: a new reader has to wait, as under writer
    preference, and the writer's [end_write] resumes the suspended writer
    and no reader. *)
Lemma monitor_behaviour_witness :
  past_wait (Monitor.start_read (Monitor.mk Unlocked 0 true 2 1)) = false /\
  woken (trace_of (Monitor.end_write (Monitor.mk Unlocked 0 true 2 1)))
        (fun c => match c with CV_write_cv => 1 | CV_read_cv => 2 | _ => 0 end)
        CV_write_cv = 1 /\
  woken (trace_of (Monitor.end_write (Monitor.mk Unlocked 0 true 2 1)))
        (fun c => match c with CV_write_cv => 1 | CV_read_cv => 2 | _ => 0 end)
        CV_read_cv = 0.
Proof.
  pose proof (monitor_behaviour (Monitor.mk Unlocked 0 true 2 1)
                (fun c => match c with
                          | CV_write_cv => 1 | CV_read_cv => 2 | _ => 0 end)
                eq_refl ltac:(simpl; lia) ltac:(simpl; lia))
    as ((H1 & _) & (_ & H2) & _).
  exact (conj H1 (conj (H2 CV_write_cv) (H2 CV_read_cv))).
Defined.

(** C6 as claimed fails for a reader release: with two readers inside and a
    writer suspended on [write_cv], the first [end_read] resumes nobody,
    where the rule of the claim resumes the writer. *)
Lemma end_read_wakes_nobody :
  Monitor.reader_count Monitor.two_readers_one_writer_waiting = 2%Z /\
  Monitor.waiting_writers Monitor.two_readers_one_writer_waiting = 1%Z /\
  woken (trace_of (Monitor.end_read Monitor.two_readers_one_writer_waiting))
        (fun c => if decide (c = CV_write_cv) then 1 else 0) CV_write_cv = 0 /\
  Monitor.spec_release_wakes
        (fun c => if decide (c = CV_write_cv) then 1 else 0) CV_write_cv = 1.
Proof. split_and!; reflexivity. Qed.

(** [end_write] goes by the counter, not by who is suspended.  A writer
    that was resumed by the last reader has not run yet, so
    [waiting_writers] is 1 with no writer suspended; a second writer is
    inside and a reader is suspended behind it.  The second writer's
    [end_write] notifies [write_cv] and resumes nobody, where the rule of
    the claim, with no writer suspended, resumes the reader. *)
Lemma end_write_wakes_nobody :
  exists x,
    MonitorCallers.run
      [Callers.reader_arrives; Callers.writer_arrives; Callers.reader_leaves;
       Callers.writer_arrives; Callers.reader_arrives]
      MonitorCallers.init = Some x /\
    Monitor.waiting_writers (Callers.lock x) = 1%Z /\
    Callers.writers_asleep (Callers.threads_of x) = 0 /\
    Callers.readers_asleep (Callers.threads_of x) = 1 /\
    notifications (trace_of (Monitor.end_write (Callers.lock x)))
      = [NotifyOne CV_write_cv] /\
    woken (trace_of (Monitor.end_write (Callers.lock x)))
          (fun c => if decide (c = CV_read_cv) then 1 else 0) CV_read_cv = 0 /\
    Monitor.spec_release_wakes
          (fun c => if decide (c = CV_read_cv) then 1 else 0) CV_read_cv = 1.
Proof.
  exists (Callers.mkWorld (Monitor.mk Unlocked 0 true 1 1) 0
            (Callers.mk 0 1 1 0 0 1)).
  split_and!; vm_compute; reflexivity.
Qed.

(** On a negative count the two locks differ, hence the restriction to
    counters that are not negative.  After an [end_read] with no reader
    inside [reader_count] is -1: the monitor, which waits while
    [reader_count > 0], lets a writer in; the writer-preference lock, which
    waits until [reader_count == 0], does not. *)
Lemma monitor_differs_on_negative_count :
  Monitor.reader_count (state_of (Monitor.end_read Monitor.init)) = (-1)%Z /\
  past_wait (Monitor.start_write (state_of (Monitor.end_read Monitor.init)))
    = true /\
  Educational.write_pred
    (Monitor.as_writer_preference (state_of (Monitor.end_read Monitor.init)))
    = false /\
  past_wait (Educational.write_lock
    (Monitor.as_writer_preference (state_of (Monitor.end_read Monitor.init))))
    = false.
Proof. split_and!; reflexivity. Qed.

(** ** C7: the monitoring queries *)

(** C7, as the code has it.  There are two queries.  [get_state] of the
    monitor returns [reader_count], [writer_active] as 0 or 1,
    [waiting_readers] and [waiting_writers]; [queue_size] of the fair lock
    returns the length of the request queue and nothing else.  Each leaves
    every field as it found it.  Each holds the bookkeeping mutex while it
    reads: it returns at once if that mutex is free and is suspended, having
    changed nothing, while the mutex is locked. *)
Theorem monitoring_queries_read_only :
  (forall s : Monitor.state,
     state_of (Monitor.get_state s) = s /\
     match Monitor.monitor_mutex s with
     | Unlocked =>
         Monitor.get_state s =
         Returned (Monitor.reader_count s,
                   if Monitor.writer_active s then 1%Z else 0%Z,
                   Monitor.waiting_readers s, Monitor.waiting_writers s)
                  s [Acquire L_monitor_mutex; Release L_monitor_mutex]
     | Locked => Monitor.get_state s = Blocked L_monitor_mutex s []
     end) /\
  (forall s : Fair.state,
     state_of (Fair.queue_size s) = s /\
     match Fair.mtx s with
     | Unlocked =>
         Fair.queue_size s =
         Returned (length (Fair.request_queue s)) s [Acquire L_mtx; Release L_mtx]
     | Locked => Fair.queue_size s = Blocked L_mtx s []
     end).
Proof.
  split.
  - intros [[] rc wa wr ww]; split; reflexivity.
  - intros [[] r rs q ar wa]; split; reflexivity.
Qed.

(** C7 as claimed fails.  [queue_size] answers 0 both on the initial fields
    and after a first reader has been let in, although [active_readers] is 0
    in the one and 1 in the other: its result does not contain
    [active_readers].  And [get_state], called while another thread is
    inside the monitor (so [monitor_mutex] is locked), is suspended. *)
Lemma snapshot_partial_and_blocking :
  result_of (Fair.queue_size Fair.init) = Some 0 /\
  result_of (Fair.queue_size (state_of (Fair.read_lock Fair.init))) = Some 0 /\
  Fair.active_readers Fair.init = 0%Z /\
  Fair.active_readers (state_of (Fair.read_lock Fair.init)) = 1%Z /\
  Monitor.get_state (Monitor.set_monitor_mutex Locked Monitor.init)
    = Blocked L_monitor_mutex (Monitor.set_monitor_mutex Locked Monitor.init) [].
Proof. split_and!; reflexivity. Qed.

(** ** C8: the retrying reader of the semaphore lock *)

Section SemaphoreFacts.
Import Semaphore.

Lemma reader_lock_pass_waiting s :
  can_enter s -> writer_waiting s = true ->
  reader_lock_pass s =
  Returned true s [SemWait Sem_read_mutex; SemWait Sem_mutex;
                   SemPost Sem_mutex; SemPost Sem_read_mutex].
Proof.
  destruct s as [m wm rm rc ww]; unfold can_enter; simpl; intros [Hr Hm] ->.
  sem_unfold; case_tests; try lia.
  do 2 f_equal; f_equal; lia.
Qed.

Lemma reader_lock_pass_free s :
  can_enter s -> writer_waiting s = false ->
  (reader_count s = 0%Z -> (0 < write_mutex s)%Z ->
   reader_lock_pass s =
   Returned false
     (set_write_mutex (write_mutex s - 1) (set_reader_count 1 s))
     [SemWait Sem_read_mutex; SemWait Sem_mutex; SemWait Sem_write_mutex;
      SemPost Sem_mutex; SemPost Sem_read_mutex]) /\
  (reader_count s <> 0%Z ->
   reader_lock_pass s =
   Returned false (set_reader_count (reader_count s + 1) s)
     [SemWait Sem_read_mutex; SemWait Sem_mutex;
      SemPost Sem_mutex; SemPost Sem_read_mutex]).
Proof.
  destruct s as [m wm rm rc ww]; unfold can_enter; simpl; intros [Hr Hm] ->.
  split; [intros -> Hw|intros Hrc]; sem_unfold; case_tests; try lia;
    sem_unfold; do 2 f_equal; f_equal; lia.
Qed.

(** Whatever happens in a pass, the reader count and [write_mutex] move only
    if [writer_waiting] was read as false. *)
Lemma reader_lock_pass_changes s :
  (reader_count (state_of (reader_lock_pass s)) <> reader_count s \/
   write_mutex (state_of (reader_lock_pass s)) <> write_mutex s) ->
  writer_waiting s = false /\
  reader_count (state_of (reader_lock_pass s)) = (reader_count s + 1)%Z.
Proof.
  destruct s as [m wm rm rc ww]; simpl.
  destruct ww; sem_unfold; case_tests; sem_unfold; intros [?|?]; try done;
    split; try done; lia.
Qed.

Lemma reader_lock_retries n : forall others s,
  (forall k, k < n -> can_enter (observed others k s) /\
                      writer_waiting (observed others k s) = true) ->
  exists tr, reader_lock n others s = Retrying (observed others n s) tr /\
             sleeps tr = n.
Proof.
  induction n as [|n IH]; intros others s H; simpl; [eauto|].
  destruct (H 0 ltac:(lia)) as [Hc Hw]. simpl in Hc, Hw.
  rewrite (reader_lock_pass_waiting s Hc Hw). simpl.
  destruct (IH (fun i => others (S i)) (others 0 s)) as (tr & -> & Hsl).
  - intros k Hk. specialize (H (S k) ltac:(lia)). simpl in H.
    by rewrite (reader_lock_pass_waiting s Hc Hw) in H.
  - eexists. split; [done|]. unfold sleeps in *. simpl. by rewrite Hsl.
Qed.

Lemma reader_lock_acquired n : forall others s s' m tr,
  reader_lock n others s = Acquired s' m tr ->
  exists k, m = S k /\ k < n /\
    writer_waiting (observed others k s) = false /\
    forall j, j < k -> writer_waiting (observed others j s) = true.
Proof.
  induction n as [|n IH]; intros others s s' m tr; simpl; [done|].
  destruct (reader_lock_pass s) as [[] s1 t| |] eqn:Hp; [| |done|done].
  - destruct (reader_lock n _ _) as [s2 m2 t2| |] eqn:Hrec; [|done|done].
    intros [= <- <- <-].
    destruct (IH _ _ _ _ _ Hrec) as (k & -> & Hk & Hf & Ht).
    assert (Hw : writer_waiting s = true).
    { destruct (writer_waiting s) eqn:E; [done|].
      destruct s as [mu wm rm rc ww]; simpl in E; subst ww.
      revert Hp. sem_unfold; case_tests; sem_unfold; done. }
    exists (S k). simpl. rewrite Hp. simpl. split_and!; [done|lia|done|].
    intros [|j] Hj; simpl; [done|]. rewrite Hp. simpl. apply Ht. lia.
  - intros [= <- <- <-]. exists 0. simpl. split_and!; [done|lia| |intros; lia].
    destruct (writer_waiting s) eqn:E; [|done].
    destruct s as [mu wm rm rc ww]; simpl in E; subst ww.
    revert Hp. sem_unfold; case_tests; sem_unfold; done.
Qed.

Lemma reader_lock_returns k : forall others s,
  (forall j, j < k -> can_enter (observed others j s) /\
                      writer_waiting (observed others j s) = true) ->
  can_enter (observed others k s) ->
  writer_waiting (observed others k s) = false ->
  (reader_count (observed others k s) = 0%Z ->
   (0 < write_mutex (observed others k s))%Z) ->
  exists tr,
    reader_lock (S k) others s =
    Acquired (state_of (reader_lock_pass (observed others k s))) (S k) tr.
Proof.
  induction k as [|k IH]; intros others s Hbefore Hc Hw Hwm.
  - simpl in *. destruct (reader_lock_pass_free s Hc Hw) as [H0 Hn0].
    destruct (decide (reader_count s = 0%Z)) as [E|E].
    + rewrite (H0 E (Hwm E)). eauto.
    + rewrite (Hn0 E). eauto.
  - destruct (Hbefore 0 ltac:(lia)) as [Hc0 Hw0]. simpl in Hc0, Hw0.
    change (reader_lock (S (S k)) others s) with
      (match reader_lock_pass s with
       | Returned false s' t => Acquired s' 1 t
       | Returned true s' t =>
           match reader_lock (S k) (fun i => others (S i)) (others 0 s') with
           | Acquired s'' m t' => Acquired s'' (S m) (t ++ backoff ++ t')
           | Suspended l s'' t' => Suspended l s'' (t ++ backoff ++ t')
           | Retrying s'' t' => Retrying s'' (t ++ backoff ++ t')
           end
       | Waiting _ s' t => Suspended Sem_mutex s' t
       | Blocked l s' t => Suspended l s' t
       end).
    simpl in Hc, Hw, Hwm |- *.
    rewrite (reader_lock_pass_waiting s Hc0 Hw0) in *. simpl in *.
    destruct (IH (fun i => others (S i)) (others 0 s)) as [tr ->]; try done.
    + intros j Hj. specialize (Hbefore (S j) ltac:(lia)). simpl in Hbefore.
      by rewrite (reader_lock_pass_waiting s Hc0 Hw0) in Hbefore.
    + eauto.
Qed.
End SemaphoreFacts.

(** C8.  A pass of [reader_lock] moves [reader_count] or [write_mutex] only
    if it read [writer_waiting] as false, and then counts the reader in, the
    first reader taking [write_mutex].  A pass that reads [writer_waiting]
    as true leaves [reader_count] and the three semaphores as they were and
    asks for a retry.  The retries have no bound: as long as
    [writer_waiting] is read as true, the call is still retrying after any
    number [n] of passes, having slept [n] times.  If the call returns, some
    pass read [writer_waiting] as false and every pass before it read true;
    and the first pass that reads false (with [write_mutex] free for a first
    reader) makes the call return. *)
Theorem reader_lock_retries_while_writer_waiting :
  (forall s,
     (Semaphore.reader_count (state_of (Semaphore.reader_lock_pass s))
        <> Semaphore.reader_count s \/
      Semaphore.write_mutex (state_of (Semaphore.reader_lock_pass s))
        <> Semaphore.write_mutex s) ->
     Semaphore.writer_waiting s = false /\
     Semaphore.reader_count (state_of (Semaphore.reader_lock_pass s))
       = (Semaphore.reader_count s + 1)%Z) /\
  (forall s, Semaphore.can_enter s -> Semaphore.writer_waiting s = false ->
     Semaphore.reader_count s = 0%Z -> (0 < Semaphore.write_mutex s)%Z ->
     Semaphore.reader_lock_pass s =
     Returned false
       (Semaphore.set_write_mutex (Semaphore.write_mutex s - 1)
          (Semaphore.set_reader_count 1 s))
       [SemWait Sem_read_mutex; SemWait Sem_mutex; SemWait Sem_write_mutex;
        SemPost Sem_mutex; SemPost Sem_read_mutex]) /\
  (forall s, Semaphore.can_enter s -> Semaphore.writer_waiting s = true ->
     Semaphore.reader_lock_pass s =
     Returned true s [SemWait Sem_read_mutex; SemWait Sem_mutex;
                      SemPost Sem_mutex; SemPost Sem_read_mutex]) /\
  (forall n others s,
     (forall k, k < n ->
        Semaphore.can_enter (Semaphore.observed others k s) /\
        Semaphore.writer_waiting (Semaphore.observed others k s) = true) ->
     exists tr,
       Semaphore.reader_lock n others s
         = Semaphore.Retrying (Semaphore.observed others n s) tr /\
       Semaphore.sleeps tr = n) /\
  (forall n others s s' m tr,
     Semaphore.reader_lock n others s = Semaphore.Acquired s' m tr ->
     exists k, m = S k /\ k < n /\
       Semaphore.writer_waiting (Semaphore.observed others k s) = false /\
       forall j, j < k ->
         Semaphore.writer_waiting (Semaphore.observed others j s) = true) /\
  (forall k others s,
     (forall j, j < k ->
        Semaphore.can_enter (Semaphore.observed others j s) /\
        Semaphore.writer_waiting (Semaphore.observed others j s) = true) ->
     Semaphore.can_enter (Semaphore.observed others k s) ->
     Semaphore.writer_waiting (Semaphore.observed others k s) = false ->
     (Semaphore.reader_count (Semaphore.observed others k s) = 0%Z ->
      (0 < Semaphore.write_mutex (Semaphore.observed others k s))%Z) ->
     exists tr,
       Semaphore.reader_lock (S k) others s =
       Semaphore.Acquired
         (state_of (Semaphore.reader_lock_pass (Semaphore.observed others k s)))
         (S k) tr).
Proof.
  split_and!.
  - apply reader_lock_pass_changes.
  - intros s Hc Hw Hrc Hwm.
    by apply (proj1 (reader_lock_pass_free s Hc Hw)).
  - apply reader_lock_pass_waiting.
  - intros n others s. apply reader_lock_retries.
  - intros n others s. apply reader_lock_acquired.
  - intros k others s. apply reader_lock_returns.
Qed.

(** Three passes see a waiting writer; the fourth counts the reader in. *)
Lemma reader_lock_retries_while_writer_waiting_witness :
  exists tr,
    Semaphore.reader_lock 4 Semaphore.writers_done_after_third_pass
      Semaphore.writer_inside_writer_waiting
    = Semaphore.Acquired (Semaphore.mk 1 0 1 1 false) 4 tr.
Proof.
  destruct reader_lock_retries_while_writer_waiting as (_ & _ & _ & _ & _ & H).
  apply (H 3 Semaphore.writers_done_after_third_pass
           Semaphore.writer_inside_writer_waiting).
  - intros [|[|[|j]]] Hj; [| | |lia];
      (split; [split; reflexivity|reflexivity]).
  - split; reflexivity.
  - reflexivity.
  - intros _. reflexivity.
Defined.

(** ** C9: what an admitted thread holds *)


Section FairAcquire.
Import Fair.



End FairAcquire.





(** ** C10: the fair lock's readers unlock a mutex they never locked *)

Section FairResource.
Import Fair.

Lemma process_queue_at_least a : preserves (at_least a) process_queue.
Proof.
  intros s Hs. unfold at_least in *.
  destruct (process_queue_readers s) as [Hle _]. lia.
Qed.

Lemma fair_lock_mtx_at_least a : preserves (at_least a) lock_mtx.
Proof. by apply preserves_mutex_lock. Qed.
Lemma fair_unlock_mtx_at_least a : preserves (at_least a) unlock_mtx.
Proof. by apply preserves_mutex_unlock. Qed.
Lemma fair_lock_resource_at_least a : preserves (at_least a) lock_resource.
Proof. by apply preserves_mutex_lock. Qed.
Lemma fair_unlock_resource_at_least a : preserves (at_least a) unlock_resource.
Proof. by apply preserves_mutex_unlock. Qed.
Lemma fair_make_request_at_least a t : preserves (at_least a) (make_request t).
Proof. by intros s. Qed.
Lemma fair_push_at_least a p : preserves (at_least a) (push p).
Proof. by intros s. Qed.
Lemma fair_clear_writer_at_least a :
  preserves (at_least a) (modify (set_writer_active false)).
Proof. by intros s. Qed.

Hint Resolve process_queue_at_least fair_lock_mtx_at_least
  fair_unlock_mtx_at_least fair_lock_resource_at_least
  fair_unlock_resource_at_least fair_make_request_at_least
  fair_push_at_least fair_clear_writer_at_least : pieces.

(** Only [read_unlock] can take readers out. *)
Lemma fair_only_read_unlock_decrements c s :
  c <> c_read_unlock ->
  (active_readers s <= active_readers (fst (perform c s)))%Z.
Proof.
  intros Hc.
  assert (Hs : at_least (active_readers s) s) by (unfold at_least; lia).
  revert Hs. generalize (active_readers s) as a. intros a.
  destruct c; try done; simpl; revert s.
  - change (preserves (at_least a) read_lock).
    apply preserves_and_then; [auto with pieces|].
    apply preserves_bind; [auto with pieces|intros p]. auto 10 with pieces.
  - change (preserves (at_least a) (lock_wake p)).
    unfold lock_wake. auto 10 with pieces.
  - change (preserves (at_least a) write_lock).
    apply preserves_and_then; [auto with pieces|].
    apply preserves_bind; [auto with pieces|intros p]. auto 10 with pieces.
  - change (preserves (at_least a) (write_lock_wake p)).
    unfold write_lock_wake, lock_wake. auto 10 with pieces.
  - change (preserves (at_least a) write_lock_resource).
    unfold write_lock_resource. auto with pieces.
  - change (preserves (at_least a) write_unlock).
    unfold write_unlock. auto 10 with pieces.
Qed.

Lemma notify_each_only_notifies g e :
  e ∈ notify_each g -> exists p, e = NotifyOne (CV_request p).
Proof. unfold notify_each. intros (p & -> & _)%list_elem_of_fmap. eauto. Qed.

(** The calls [read_unlock] issues. *)
Lemma fair_read_unlock_trace s :
  match mtx s with
  | Locked => read_unlock s = Blocked L_mtx s []
  | Unlocked =>
      exists g,
        trace_of (read_unlock s) =
        [Acquire L_mtx]
          ++ (if (active_readers s =? 1)%Z
              then [match resource_mutex s with
                    | Locked => Release L_resource_mutex
                    | Unlocked => ReleaseUnowned L_resource_mutex
                    end]
              else [])
          ++ notify_each g ++ [Release L_mtx]
  end.
Proof.
  destruct (mtx s) eqn:Hm.
  - rewrite (fair_read_unlock_eq s Hm).
    set (s1 := set_active_readers (active_readers s - 1) (set_mtx Locked s)).
    assert (Hs2 : exists s2,
      when_ (fun s => (active_readers s =? 0)%Z) unlock_resource s1
      = Returned tt s2
          (if (active_readers s =? 1)%Z
           then [match resource_mutex s with
                 | Locked => Release L_resource_mutex
                 | Unlocked => ReleaseUnowned L_resource_mutex
                 end]
           else []) /\ mtx s2 = Locked).
    { unfold when_, unlock_resource, mutex_unlock, skip, ret. simpl.
      destruct (Z.eqb_spec (active_readers s - 1) 0),
               (Z.eqb_spec (active_readers s) 1); try lia;
        [destruct (resource_mutex s)|]; eauto. }
    destruct Hs2 as (s2 & Hw & Hm2).
    rewrite (and_then_returned _ _ _ _ _ Hw), (process_queue_then_unlock s2 Hm2).
    by exists (granted_now s2).
  - unfold read_unlock, lock_mtx. by rewrite and_then_lock_blocked.
Qed.

Lemma not_in_around_notifications (pre post : list event) g e :
  (forall p, e <> NotifyOne (CV_request p)) ->
  e ∉ pre -> e ∉ post -> e ∉ pre ++ notify_each g ++ post.
Proof.
  intros Hn Hpre Hpost [Hin|[Hin|Hin]%elem_of_app]%elem_of_app; [done| |done].
  apply notify_each_only_notifies in Hin as [p Hp]. by apply (Hn p).
Qed.

Lemma fair_read_path_never_locks_resource c s :
  on_read_path c = true ->
  Acquire L_resource_mutex ∉ snd (perform c s).
Proof.
  destruct c; try done; intros _; simpl.
  - destruct (mtx s) eqn:Hm.
    + unfold read_lock. rewrite (fair_arrive READ (fun p => ret p) s Hm).
      destruct (is_granted _ _); simpl; rewrite ?app_nil_r;
        apply (not_in_around_notifications [Acquire L_mtx]); try done;
        not_in_list.
    + unfold read_lock, lock_mtx. rewrite and_then_lock_blocked by done.
      simpl. not_in_list.
  - destruct s as [m r rs q ar wa].
    cbv [write_lock_wake lock_wake lock_mtx unlock_mtx lock_resource is_granted
         mtx resource_mutex requests set_mtx set_resource_mutex
         request_queue active_readers writer_active].
    run_pieces.
    destruct m, (rs !! p) as [[t []]|]; not_in_list.
  - pose proof (fair_read_unlock_trace s) as H. destruct (mtx s).
    + destruct H as [g ->]. rewrite app_assoc.
      apply not_in_around_notifications; [done| |not_in_list].
      destruct (active_readers s =? 1)%Z, (resource_mutex s); not_in_list.
    + rewrite H. simpl. not_in_list.
Qed.

(** A [read_unlock] that starts with a reader inside and ends with none has
    called [resource_mutex.unlock()]. *)
Lemma fair_last_reader_unlocks s :
  (0 < active_readers s)%Z ->
  (active_readers (state_of (read_unlock s)) <= 0)%Z ->
  unlocks_resource (trace_of (read_unlock s)).
Proof.
  intros Hpos Hzero.
  pose proof (fair_read_unlock_trace s) as H. destruct (mtx s) eqn:Hm.
  - destruct H as [g Ht]. rewrite Ht.
    destruct (Z.eqb_spec (active_readers s) 1) as [E|E].
    + unfold unlocks_resource.
      destruct (resource_mutex s); [right|left];
        apply list_elem_of_further, list_elem_of_here.
    + destruct (fair_read_unlock_returns s Hm) as (_ & Hle & _). lia.
  - rewrite H in Hzero. simpl in Hzero. lia.
Qed.

(** Over an execution: if readers were inside at some point and none is at
    the end, some [read_unlock] in between has called
    [resource_mutex.unlock()]. *)
Lemma fair_execution_unlocks cs : forall s,
  (0 < active_readers s)%Z ->
  (active_readers (final cs s) <= 0)%Z ->
  exists s' tr, (s', c_read_unlock, tr) ∈ history cs s /\ unlocks_resource tr.
Proof.
  induction cs as [|c cs IH]; intros s Hpos Hend; simpl in *; [lia|].
  destruct (decide (0 < active_readers (fst (perform c s)))%Z) as [Hstill|Hgone].
  - destruct (IH _ Hstill Hend) as (s' & tr & Hin & Hu).
    exists s', tr. split; [by apply list_elem_of_further|done].
  - destruct (decide (c = c_read_unlock)) as [->|Hc].
    + exists s, (trace_of (read_unlock s)). split; [apply list_elem_of_here|].
      apply fair_last_reader_unlocks; [done|]. simpl in Hgone. lia.
    + pose proof (fair_only_read_unlock_decrements c s Hc). lia.
Qed.

Lemma fair_history_read_path cs : forall s s' c tr,
  (s', c, tr) ∈ history cs s -> tr = snd (perform c s').
Proof.
  induction cs as [|c0 cs IH]; intros s s' c tr; simpl;
    [by intros ?%elem_of_nil|].
  intros [[= -> -> ->]|Hin]%elem_of_cons; [done|]. by apply (IH _ _ _ _ Hin).
Qed.
End FairResource.

Lemma fair_history_unlocks cs : forall s s0 c0 tr0,
  (s0, c0, tr0) ∈ Fair.history cs s ->
  (0 < Fair.active_readers s0)%Z ->
  (Fair.active_readers (Fair.final cs s) <= 0)%Z ->
  exists s' tr, (s', Fair.c_read_unlock, tr) ∈ Fair.history cs s /\
                Fair.unlocks_resource tr.
Proof.
  induction cs as [|c cs IH]; intros s s0 c0 tr0 Hin Hpos Hend; simpl in *.
  - by apply elem_of_nil in Hin.
  - apply elem_of_cons in Hin as [[= -> -> ->]|Hin].
    + by apply (fair_execution_unlocks (c :: cs) s).
    + destruct (IH _ _ _ _ Hin Hpos Hend) as (s' & tr & Hin' & Hu).
      exists s', tr. split; [by apply list_elem_of_further|done].
Qed.

(** C10.  [process_queue] never locks [resource_mutex], and neither does any
    other statement of [read_lock] or [read_unlock]; yet the [read_unlock]
    that takes [active_readers] from 1 to 0 calls [resource_mutex.unlock()].
    So in every execution in which a reader is inside at some point and no
    reader is inside at the end, a [read_unlock] has unlocked
    [resource_mutex] although no call on the read path has ever locked it.
    When a single reader comes and goes the mutex is not locked by anybody
    at that unlock. *)
Theorem fair_read_unlock_without_lock :
  (forall s,
     (Acquire L_resource_mutex ∉ trace_of (Fair.process_queue s)) /\
     Fair.resource_mutex (state_of (Fair.process_queue s)) = Fair.resource_mutex s) /\
  (forall c s, Fair.on_read_path c = true ->
     Acquire L_resource_mutex ∉ snd (Fair.perform c s)) /\
  (forall s, Fair.mtx s = Unlocked -> Fair.active_readers s = 1%Z ->
     Fair.unlocks_resource (trace_of (Fair.read_unlock s)) /\
     (Fair.resource_mutex s = Unlocked ->
      ReleaseUnowned L_resource_mutex ∈ trace_of (Fair.read_unlock s))) /\
  (forall cs s s0 c0 tr0,
     (s0, c0, tr0) ∈ Fair.history cs s ->
     (0 < Fair.active_readers s0)%Z ->
     (Fair.active_readers (Fair.final cs s) <= 0)%Z ->
     (exists s' tr, (s', Fair.c_read_unlock, tr) ∈ Fair.history cs s /\
                    Fair.unlocks_resource tr) /\
     (forall s' c tr, (s', c, tr) ∈ Fair.history cs s ->
        Fair.on_read_path c = true -> Acquire L_resource_mutex ∉ tr)) /\
  trace_of (Fair.read_unlock (state_of (Fair.read_lock Fair.init)))
    = [Acquire L_mtx; ReleaseUnowned L_resource_mutex; Release L_mtx].
Proof.
  split_and!.
  - intros s. destruct (process_queue_spec s) as (Hpq & _ & _ & _ & Hr).
    split; [|done]. rewrite Hpq. simpl.
    intros [p Hp]%notify_each_only_notifies. done.
  - apply fair_read_path_never_locks_resource.
  - intros s Hm Har.
    pose proof (fair_read_unlock_trace s) as H. rewrite Hm in H.
    destruct H as [g Hg]. rewrite Hg, Har. simpl. split.
    + unfold Fair.unlocks_resource.
      destruct (Fair.resource_mutex s); [right|left];
        apply list_elem_of_further, list_elem_of_here.
    + intros ->. apply list_elem_of_further, list_elem_of_here.
  - intros cs s s0 c0 tr0 Hin Hpos Hend. split.
    + by apply (fair_history_unlocks cs s s0 c0 tr0).
    + intros s' c tr Hin' Hc.
      rewrite (fair_history_read_path cs s s' c tr Hin').
      by apply fair_read_path_never_locks_resource.
  - reflexivity.
Qed.

(** A single reader comes and goes: its [read_unlock] unlocks
    [resource_mutex]. *)
Lemma fair_read_unlock_without_lock_witness :
  exists s' tr,
    (s', Fair.c_read_unlock, tr)
      ∈ Fair.history [Fair.c_read_lock; Fair.c_read_unlock] Fair.init /\
    Fair.unlocks_resource tr.
Proof.
  destruct fair_read_unlock_without_lock as (_ & _ & _ & H & _).
  apply (H [Fair.c_read_lock; Fair.c_read_unlock] Fair.init
           (state_of (Fair.read_lock Fair.init)) Fair.c_read_unlock
           (trace_of (Fair.read_unlock (state_of (Fair.read_lock Fair.init))))).
  - apply list_elem_of_further, list_elem_of_here.
  - reflexivity.
  - vm_compute. discriminate.
Defined.

(** * Further properties *)

(** ** The fair lock: one admission pass is enough *)

Section FairSettled.
Import Fair FairProtocol.

Lemma type_of_grant_all g (rs : list Request) (x : nat) :
  type <$> grant_all g rs !! x = type <$> rs !! x.
Proof.
  rewrite lookup_grant_all. destruct (rs !! x) as [r|]; simpl; [|done].
  by destruct (bool_decide (x ∈ g)).
Qed.

Lemma process_queue_leaves_nothing s :
  (0 <= active_readers s)%Z ->
  granted_now (state_of (process_queue s)) = [].
Proof.
  intros Har.
  destruct (process_queue_cases s) as
    [[Hg ->]|[(p & q' & Hq & _ & _ & Hg & ->)|(p & q' & Hq & _ & _ & _ & _ & ->)]].
  - done.
  - simpl. unfold granted_now at 1. simpl.
    destruct (drop _ _) as [|x rest] eqn:Hd; [done|].
    unfold type_of. simpl. rewrite type_of_grant_all.
    assert (Hx : type <$> requests s !! x <> Some READ).
    { apply (read_run_maximal (requests s) q').
      rewrite Hg, Hq in Hd. simpl in Hd. by rewrite Hd. }
    destruct (type <$> requests s !! x) as [[|]|]; [done| |done].
    rewrite Hg. cbn [length].
    destruct (Z.eqb_spec (active_readers s
                + Z.of_nat (S (length (read_run (requests s) q')))) 0);
      [lia|done].
  - simpl. unfold granted_now. simpl. destruct q' as [|x rest]; [done|].
    unfold type_of. simpl. destruct (type <$> _) as [[|]|]; try done.
    all: by rewrite andb_false_r.
Qed.

(** The parts of the fields that [granted_now] and the order of the queue
    depend on. *)
Lemma granted_now_same s s' :
  requests s' = requests s -> request_queue s' = request_queue s ->
  active_readers s' = active_readers s -> writer_active s' = writer_active s ->
  granted_now s' = granted_now s.
Proof.
  intros Hr Hq Ha Hw. unfold granted_now, type_of. by rewrite Hr, Hq, Ha, Hw.
Qed.

Lemma arrival_ordered_same s s' :
  requests s' = requests s -> request_queue s' = request_queue s ->
  arrival_ordered s -> arrival_ordered s'.
Proof. intros Hr Hq. unfold arrival_ordered. by rewrite Hr, Hq. Qed.

Lemma arrival_ordered_arrived t s :
  arrival_ordered s -> arrival_ordered (arrived t s).
Proof.
  intros (j & Hj & Hq & Hfl). exists j. simpl. rewrite length_app. simpl.
  split; [lia|]. split.
  - rewrite Hq. replace (length (requests s) + 1 - j)
      with (S (length (requests s) - j)) by lia.
    rewrite seq_S. do 2 f_equal. lia.
  - intros i r Hi. apply lookup_app_Some in Hi as [Hi|[Hge Hi]]; [by apply Hfl|].
    apply list_lookup_singleton_Some in Hi as [Hi <-]. simpl.
    symmetry. apply bool_decide_eq_false_2. lia.
Qed.

(** After [process_queue], with [mtx] given back. *)
Lemma settled_after_pass s :
  (0 <= active_readers s)%Z -> arrival_ordered s ->
  forall s', mtx s' = Unlocked ->
    requests s' = requests (state_of (process_queue s)) ->
    request_queue s' = request_queue (state_of (process_queue s)) ->
    active_readers s' = active_readers (state_of (process_queue s)) ->
    writer_active s' = writer_active (state_of (process_queue s)) ->
    settled s'.
Proof.
  intros Har Hord s' Hm Hr Hq Ha Hw. split_and!; [done| | |].
  - rewrite Ha. destruct (process_queue_readers s). lia.
  - apply (arrival_ordered_same (state_of (process_queue s))); try done.
    by apply process_queue_arrival_ordered.
  - rewrite (granted_now_same (state_of (process_queue s))) by done.
    by apply process_queue_leaves_nothing.
Qed.

Lemma settled_same s s' :
  mtx s' = Unlocked ->
  requests s' = requests s -> request_queue s' = request_queue s ->
  active_readers s' = active_readers s -> writer_active s' = writer_active s ->
  settled s -> settled s'.
Proof.
  intros Hm Hr Hq Ha Hw (_ & Har & Hord & Hg). split_and!; [done| | |].
  - by rewrite Ha.
  - by apply (arrival_ordered_same s).
  - by rewrite (granted_now_same s).
Qed.

(** The fields each call leaves, from settled ones. *)
Lemma fair_arrive_state t {B} (k : nat -> M state B) s :
  mtx s = Unlocked ->
  (forall p s0, requests (state_of (k p s0)) = requests s0 /\
                request_queue (state_of (k p s0)) = request_queue s0 /\
                active_readers (state_of (k p s0)) = active_readers s0 /\
                writer_active (state_of (k p s0)) = writer_active s0 /\
                mtx (state_of (k p s0)) = mtx s0) ->
  let s2 := state_of (process_queue (arrived t s)) in
  let s' := state_of
    ((lock_mtx ;;
      let* p := make_request t in
      push p ;; process_queue ;;
      cv_wait (CV_request p) unlock_mtx (is_granted p) ;; unlock_mtx ;; k p) s) in
  mtx s' = Unlocked /\ requests s' = requests s2 /\
  request_queue s' = request_queue s2 /\
  active_readers s' = active_readers s2 /\ writer_active s' = writer_active s2.
Proof.
  intros Hm Hk s2 s'. subst s'. rewrite (fair_arrive t k s Hm).
  fold (arrived t s). fold s2.
  destruct (is_granted _ s2); simpl; [|done].
  rewrite state_of_after.
  destruct (Hk (length (requests s)) (set_mtx Unlocked s2)) as (-> & -> & -> & -> & ->).
  done.
Qed.

Lemma fair_perform_settled c s :
  permitted c s -> settled s -> settled (fst (perform c s)).
Proof.
  intros Hperm Hs. pose proof Hs as (Hm & Har & Hord & Hg).
  destruct c; simpl in *.
  - destruct (fair_arrive_state READ (fun p => ret p) s Hm) as (H1 & H2 & H3 & H4 & H5);
      [by intros|].
    apply (settled_after_pass (arrived READ s)); try done.
    by apply arrival_ordered_arrived.
  - apply (settled_same s); try done;
      destruct s as [m r rs q ar wa]; simpl in Hm; subst m;
      cbv [lock_wake lock_mtx unlock_mtx is_granted
           mtx resource_mutex requests set_mtx set_resource_mutex
           request_queue active_readers writer_active];
      run_pieces; by destruct (rs !! p) as [[t []]|].
  - rewrite (fair_read_unlock_eq s Hm).
    set (s1 := set_active_readers (active_readers s - 1) (set_mtx Locked s)).
    assert (Hs2 : exists s2 t,
      when_ (fun s => (active_readers s =? 0)%Z) unlock_resource s1
      = Returned tt s2 t /\ mtx s2 = Locked /\ requests s2 = requests s /\
        request_queue s2 = request_queue s /\
        active_readers s2 = (active_readers s - 1)%Z /\
        writer_active s2 = writer_active s).
    { unfold when_, unlock_resource, mutex_unlock, skip, ret.
      destruct (active_readers s1 =? 0)%Z; [destruct (resource_mutex s1)|];
        eauto 10. }
    destruct Hs2 as (s2 & t & Hw & Hm2 & Hr2 & Hq2 & Ha2 & Hw2).
    rewrite (and_then_returned _ _ _ _ _ Hw), (process_queue_then_unlock s2 Hm2).
    simpl. apply (settled_after_pass s2); try done; [lia|].
    by apply (arrival_ordered_same s).
  - destruct (fair_arrive_state WRITE (fun p => lock_resource ;; ret p) s Hm)
      as (H1 & H2 & H3 & H4 & H5).
    { intros p s0. unfold and_then, bind, lock_resource, mutex_lock, ret.
      by destruct (resource_mutex s0). }
    apply (settled_after_pass (arrived WRITE s)); try done.
    by apply arrival_ordered_arrived.
  - apply (settled_same s); try done;
      destruct s as [m r rs q ar wa]; simpl in Hm; subst m;
      cbv [write_lock_wake lock_wake lock_mtx unlock_mtx lock_resource is_granted
           mtx resource_mutex requests set_mtx set_resource_mutex
           request_queue active_readers writer_active];
      run_pieces; by destruct (rs !! p) as [[t []]|], r.
  - apply (settled_same s); try done;
      unfold write_lock_resource, lock_resource, mutex_lock;
      by destruct (resource_mutex s).
  - unfold write_unlock, lock_mtx.
    rewrite and_then_lock, and_then_modify by done.
    set (s1 := set_writer_active false (set_mtx Locked s)).
    assert (Hs2 : exists s2 t, unlock_resource s1 = Returned tt s2 t /\
        mtx s2 = Locked /\ requests s2 = requests s /\
        request_queue s2 = request_queue s /\
        active_readers s2 = active_readers s /\ writer_active s2 = false).
    { unfold unlock_resource, mutex_unlock. destruct (resource_mutex s1); eauto 10. }
    destruct Hs2 as (s2 & t & Hw & Hm2 & Hr2 & Hq2 & Ha2 & Hw2).
    rewrite (and_then_returned _ _ _ _ _ Hw), (process_queue_then_unlock s2 Hm2).
    simpl. apply (settled_after_pass s2); try done; [lia|].
    by apply (arrival_ordered_same s).
Qed.

Lemma fair_protocol_settled cs : forall s,
  settled s -> follows_protocol cs s -> settled (final cs s).
Proof.
  induction cs as [|c cs IH]; intros s Hs Hp; simpl in *; [done|].
  destruct Hp as [Hc Hp]. apply IH; [|done]. by apply fair_perform_settled.
Qed.

Lemma fair_init_settled : settled init.
Proof.
  split_and!; try done. exists 0. simpl. split_and!; try done.
Qed.
End FairSettled.

Example fair_second_pass_after_stray_release :
  Fair.granted_now
    (state_of (Fair.process_queue
       (Fair.mk Unlocked Unlocked
          [Fair.mkRequest Fair.READ false; Fair.mkRequest Fair.WRITE false]
          [0; 1] (-1) false))) = [1].
Proof. reflexivity. Qed.

(** X1.  When the reader count is not negative, [process_queue] grants
    everything that can be granted in one go: run again on the fields it
    leaves, it grants nothing, notifies nobody and changes nothing. *)
Theorem process_queue_second_pass_grants_nothing s :
  (0 <= Fair.active_readers s)%Z ->
  Fair.process_queue (state_of (Fair.process_queue s))
  = Returned tt (state_of (Fair.process_queue s)) [].
Proof.
  intros Har. pose proof (process_queue_leaves_nothing s Har) as Hn.
  destruct (process_queue_cases (state_of (Fair.process_queue s))) as
    [[_ H]|[(p & q' & _ & _ & _ & Hg & _)|(p & q' & _ & _ & _ & _ & Hg & _)]];
    [done| |]; by rewrite Hn in Hg.
Qed.

Lemma process_queue_second_pass_grants_nothing_witness :
  Fair.process_queue (state_of (Fair.process_queue Fair.scenario_writer_left))
  = Returned tt (state_of (Fair.process_queue Fair.scenario_writer_left)) [].
Proof.
  apply (process_queue_second_pass_grants_nothing Fair.scenario_writer_left).
  vm_compute. discriminate.
Defined.

(** X2.  In every reachable state of the fair lock the queue holds each
    request at most once, in the order of arrival, and a request is in the
    queue exactly when it has been created and is not granted. *)
Theorem fair_queue_holds_the_pending_requests s :
  reachable Fair_engine s ->
  NoDup (Fair.request_queue s) /\
  (forall p : nat, p ∈ Fair.request_queue s <->
     p < length (Fair.requests s) /\ Fair.is_granted p s = false) /\
  (forall i j pi pj, i < j ->
     Fair.request_queue s !! i = Some pi ->
     Fair.request_queue s !! j = Some pj -> pi < pj).
Proof.
  intros (k & Hk & Hq & Hfl)%fair_reachable_arrival_ordered.
  rewrite Hq. split_and!.
  - apply NoDup_seq.
  - intros p. rewrite elem_of_seq. unfold Fair.is_granted. split.
    + intros [H1 H2].
      destruct (lookup_lt_is_Some_2 (Fair.requests s) p) as [r Hr]; [lia|].
      rewrite Hr, (Hfl p r Hr). split; [lia|]. apply bool_decide_eq_false_2. lia.
    + intros [H1 H2].
      destruct (lookup_lt_is_Some_2 (Fair.requests s) p) as [r Hr]; [lia|].
      rewrite Hr, (Hfl p r Hr) in H2. apply bool_decide_eq_false_1 in H2. lia.
  - intros i j pi pj Hij Hi Hj.
    apply lookup_seq in Hi as [-> _]. apply lookup_seq in Hj as [-> _]. lia.
Qed.

Lemma fair_queue_holds_the_pending_requests_witness :
  NoDup (Fair.request_queue Fair.scenario_queued) /\
  (forall p : nat, p ∈ Fair.request_queue Fair.scenario_queued <->
     p < length (Fair.requests Fair.scenario_queued) /\
     Fair.is_granted p Fair.scenario_queued = false) /\
  (forall i j pi pj, i < j ->
     Fair.request_queue Fair.scenario_queued !! i = Some pi ->
     Fair.request_queue Fair.scenario_queued !! j = Some pj -> pi < pj).
Proof.
  apply (fair_queue_holds_the_pending_requests Fair.scenario_queued).
  unfold Fair.scenario_queued.
  repeat (eapply reachable_step; [|cbn [engine_step Fair_engine]; constructor]).
  apply reachable_init.
Defined.

Lemma settled_head_valid s p q' :
  FairProtocol.settled s -> Fair.request_queue s = p :: q' ->
  p < length (Fair.requests s).
Proof.
  intros (_ & _ & (k & Hk & Hq & _) & _) Hp. rewrite Hq in Hp.
  assert (Hin : p ∈ seq k (length (Fair.requests s) - k))
    by (rewrite Hp; apply list_elem_of_here).
  apply elem_of_seq in Hin. lia.
Qed.

Lemma settled_free_means_empty s :
  FairProtocol.settled s ->
  Fair.active_readers s = 0%Z -> Fair.writer_active s = false ->
  Fair.request_queue s = [].
Proof.
  intros Hs Har Hwa. destruct (Fair.request_queue s) as [|p q'] eqn:Hq; [done|].
  pose proof (settled_head_valid s p q' Hs Hq) as Hp.
  destruct Hs as (_ & _ & _ & Hg). unfold Fair.granted_now, Fair.type_of in Hg.
  rewrite Hq, Har, Hwa in Hg.
  destruct (lookup_lt_is_Some_2 (Fair.requests s) p Hp) as [[[] g] Hr];
    by rewrite Hr in Hg.
Qed.

(** X3.  However the callers of the fair lock interleave, as long as each
    releases only after its own acquire: between calls the reader count is
    not negative, nothing in the queue could be granted, and the lock is
    never free (no reader, no writer) while a request is waiting in the
    queue. *)
Theorem fair_lock_not_idle_with_pending cs :
  FairProtocol.follows_protocol cs Fair.init ->
  FairProtocol.settled (Fair.final cs Fair.init) /\
  (Fair.active_readers (Fair.final cs Fair.init) = 0%Z ->
   Fair.writer_active (Fair.final cs Fair.init) = false ->
   Fair.request_queue (Fair.final cs Fair.init) = []).
Proof.
  intros Hp.
  pose proof (fair_protocol_settled cs Fair.init fair_init_settled Hp) as Hs.
  split; [done|]. by apply settled_free_means_empty.
Qed.

Lemma fair_lock_not_idle_with_pending_witness :
  FairProtocol.settled
    (Fair.final [Fair.c_write_lock; Fair.c_read_lock; Fair.c_write_unlock;
                 Fair.c_lock_wake 1; Fair.c_read_unlock] Fair.init).
Proof.
  apply (fair_lock_not_idle_with_pending
           [Fair.c_write_lock; Fair.c_read_lock; Fair.c_write_unlock;
            Fair.c_lock_wake 1; Fair.c_read_unlock]).
  simpl. split_and!; try done.
Defined.

(** ** The fair lock: who gets in on arrival *)

Section FairArrival.
Import Fair FairProtocol.

Lemma arrived_new_request t s :
  requests (arrived t s) !! length (requests s) = Some (mkRequest t false).
Proof.
  simpl. rewrite lookup_app_r by lia.
  by replace (length (requests s) - length (requests s)) with 0 by lia.
Qed.

(** The new request is granted by the pass that follows its arrival exactly
    when it is among the requests that pass grants. *)
Lemma arrived_granted_iff t s :
  is_granted (length (requests s)) (state_of (process_queue (arrived t s))) = true
  <-> length (requests s) ∈ granted_now (arrived t s).
Proof.
  split.
  - intros Hg. destruct (decide (length (requests s) ∈ granted_now (arrived t s)))
      as [|Hn]; [done|].
    rewrite (process_queue_keeps_others _ _ Hn) in Hg.
    unfold is_granted in Hg. by rewrite arrived_new_request in Hg.
  - apply process_queue_grants.
Qed.

(** What the pass after an arrival grants, from settled fields. *)
Lemma arrived_granted_now t s :
  settled s ->
  granted_now (arrived t s) =
  match request_queue s, t with
  | [], READ =>
      if writer_active s then [] else [length (requests s)]
  | [], WRITE =>
      if (active_readers s =? 0)%Z && negb (writer_active s)
      then [length (requests s)] else []
  | _ :: _, _ => []
  end.
Proof.
  intros Hs. destruct (request_queue s) as [|x q'] eqn:Hq.
  - unfold granted_now, type_of. cbn [request_queue arrived]. rewrite Hq. simpl.
    rewrite lookup_app_r by lia.
    replace (length (requests s) - length (requests s)) with 0 by lia. simpl.
    destruct t; [|done]. by destruct (writer_active s).
  - pose proof (settled_head_valid s x q' Hs Hq) as Hx.
    destruct Hs as (_ & _ & _ & Hg). revert Hg.
    unfold granted_now, type_of. cbn [request_queue arrived requests
      active_readers writer_active]. rewrite Hq. simpl.
    rewrite lookup_app_l by done.
    destruct (requests s !! x) as [[[] g]|]; simpl; try done.
    all: by destruct (writer_active s).
Qed.

Lemma fair_read_lock_returns_iff s :
  settled s ->
  returned (read_lock s) = true <->
  request_queue s = [] /\ writer_active s = false.
Proof.
  intros Hs. pose proof Hs as (Hm & _). unfold read_lock.
  rewrite (fair_arrive READ (fun p => ret p) s Hm). fold (arrived READ s).
  pose proof (arrived_granted_iff READ s) as Hiff.
  rewrite (arrived_granted_now READ s Hs) in Hiff.
  destruct (is_granted _ _); simpl.
  - destruct Hiff as [Hin _]. specialize (Hin eq_refl).
    destruct (request_queue s); [|by apply elem_of_nil in Hin].
    destruct (writer_active s); [by apply elem_of_nil in Hin|done].
  - split; [done|]. intros [Hq Hw]. rewrite Hq, Hw in Hiff.
    destruct Hiff as [_ Hin]. exfalso.
    assert (false = true) by apply Hin, list_elem_of_here. done.
Qed.

Lemma fair_write_lock_passes_iff s :
  settled s ->
  past_wait (write_lock s) = true <->
  request_queue s = [] /\ active_readers s = 0%Z /\ writer_active s = false.
Proof.
  intros Hs. pose proof Hs as (Hm & _). unfold write_lock.
  rewrite (fair_arrive WRITE (fun p => lock_resource ;; ret p) s Hm).
  fold (arrived WRITE s).
  pose proof (arrived_granted_iff WRITE s) as Hiff.
  rewrite (arrived_granted_now WRITE s Hs) in Hiff.
  destruct (is_granted _ _); simpl.
  - destruct Hiff as [Hin _]. specialize (Hin eq_refl).
    unfold and_then, bind, lock_resource, mutex_lock, ret.
    split.
    + intros _. destruct (request_queue s); [|by apply elem_of_nil in Hin].
      destruct (Z.eqb_spec (active_readers s) 0); simpl in Hin;
        [|by apply elem_of_nil in Hin].
      destruct (writer_active s); [by apply elem_of_nil in Hin|done].
    + intros _. by destruct (resource_mutex _).
  - split; [done|]. intros (Hq & Ha & Hw). rewrite Hq, Ha, Hw in Hiff.
    destruct Hiff as [_ Hin]. exfalso.
    assert (false = true) by apply Hin, list_elem_of_here. done.
Qed.
End FairArrival.

(** X4.  However the callers of the fair lock have interleaved so far (each
    releasing only after its own acquire): an arriving reader returns from
    [read_lock] without waiting exactly when the queue is empty and no
    writer is active, and an arriving writer gets past its wait exactly when
    the queue is empty, no reader is inside and no writer is active.  So a
    reader that arrives behind a queued request waits, even while only
    readers are inside. *)
Theorem fair_admission_on_arrival cs :
  FairProtocol.follows_protocol cs Fair.init ->
  (returned (Fair.read_lock (Fair.final cs Fair.init)) = true <->
   Fair.request_queue (Fair.final cs Fair.init) = [] /\
   Fair.writer_active (Fair.final cs Fair.init) = false) /\
  (past_wait (Fair.write_lock (Fair.final cs Fair.init)) = true <->
   Fair.request_queue (Fair.final cs Fair.init) = [] /\
   Fair.active_readers (Fair.final cs Fair.init) = 0%Z /\
   Fair.writer_active (Fair.final cs Fair.init) = false).
Proof.
  intros Hp.
  pose proof (fair_protocol_settled cs Fair.init fair_init_settled Hp) as Hs.
  split; [by apply fair_read_lock_returns_iff|by apply fair_write_lock_passes_iff].
Qed.

(** A reader is inside and a writer is queued: the next reader waits. *)
Lemma fair_admission_on_arrival_witness :
  ~ (returned (Fair.read_lock
       (Fair.final [Fair.c_read_lock; Fair.c_write_lock] Fair.init)) = true).
Proof.
  destruct (fair_admission_on_arrival [Fair.c_read_lock; Fair.c_write_lock])
    as [[H _] _].
  - simpl. done.
  - intros Hr. destruct (H Hr) as [Hq _]. vm_compute in Hq. discriminate.
Defined.

(** ** The semaphore lock under its callers *)

Ltac semc_unfold :=
  cbv [SemaphoreCallers.advance SemaphoreCallers.reader_lock_from_mutex
       SemaphoreCallers.lock SemaphoreCallers.data SemaphoreCallers.reading
       SemaphoreCallers.writing SemaphoreCallers.writers_announced
       SemaphoreCallers.writers_taken SemaphoreCallers.readers_at_mutex
       SemaphoreCallers.readers_at_write_mutex] in *;
  sem_unfold.

Ltac case_counts :=
  repeat match goal with
    | |- context [match ?n with O => _ | S _ => _ end] => is_var n; destruct n
    end.

Section SemaphoreCallersFacts.
Import SemaphoreCallers.

Lemma semaphore_advance_consistent m w w' :
  consistent w -> advance m w = Some w' -> consistent w'.
Proof.
  destruct w as [[mu wm rm rc ww] d r wr wa wt ram raw].
  intros (H1 & H2 & H3 & H4 & H5 & H6 & H7 & H8 & H9).
  cbn [lock data reading writing writers_announced writers_taken
       readers_at_mutex readers_at_write_mutex
       Semaphore.mutex Semaphore.write_mutex Semaphore.read_mutex
       Semaphore.reader_count Semaphore.writer_waiting] in *.
  subst ram mu rm rc.
  destruct m; semc_unfold; case_counts; try done;
    try destruct ww;
    repeat (first [progress case_tests | progress semc_unfold]; try lia);
    try match goal with
      | |- context [(0 <=? ?a)%Z] => destruct (Z.leb_spec 0 a)
      end;
    try done;
    intros [= <-]; unfold consistent;
    cbn [lock data reading writing writers_announced writers_taken
         readers_at_mutex readers_at_write_mutex
         Semaphore.mutex Semaphore.write_mutex Semaphore.read_mutex
         Semaphore.reader_count Semaphore.writer_waiting];
    split_and!; try lia;
    match goal with
    | |- context [(?a `rem` 1000)%Z] =>
        pose proof (Z.rem_bound_pos a 1000 ltac:(lia) ltac:(lia)); lia
    end.
Qed.

Lemma semaphore_init_consistent : consistent init.
Proof. unfold consistent. cbn. split_and!; try done; lia. Qed.

Lemma semaphore_run_consistent ms : forall w w',
  consistent w -> run ms w = Some w' -> consistent w'.
Proof.
  induction ms as [|m ms IH]; intros w w' Hw; cbn [run].
  - by intros [= <-].
  - destruct (advance m w) as [w1|] eqn:E; [|done].
    apply IH. by apply (semaphore_advance_consistent m w).
Qed.

(** In a consistent world every move is impossible exactly if a reader
    that holds [mutex] is held up at [write_mutex] and a writer that holds
    [write_mutex] has still to clear its announcement. *)
Lemma semaphore_stuck_iff w :
  consistent w ->
  (forall m, advance m w = None) <->
  readers_at_write_mutex w = 1 /\ writers_taken w = 1.
Proof.
  destruct w as [[mu wm rm rc ww] d r wr wa wt ram raw].
  intros (H1 & H2 & H3 & H4 & H5 & H6 & H7 & H8 & H9).
  cbn [lock data reading writing writers_announced writers_taken
       readers_at_mutex readers_at_write_mutex
       Semaphore.mutex Semaphore.write_mutex Semaphore.read_mutex
       Semaphore.reader_count Semaphore.writer_waiting] in *.
  subst ram mu rm rc. split.
  - intros Hstuck.
    assert (raw = 1) as ->.
    { specialize (Hstuck writer_announces). revert Hstuck.
      semc_unfold; case_tests; [done|lia]. }
    split; [done|].
    rewrite (H6 eq_refl) in *.
    pose proof (Hstuck reader_gets_write_mutex) as Hr.
    pose proof (Hstuck writer_leaves) as Hl.
    revert Hr Hl. semc_unfold. destruct wr; [|done].
    case_tests; [done|]. cbn [Nat.min] in *. lia.
  - intros [-> ->]. rewrite (H6 eq_refl) in *. cbn [Nat.min Z.of_nat] in *.
    assert (wr = 0) as -> by lia. subst wm.
    intros m; destruct m; semc_unfold; try done; by destruct wa.
Qed.
End SemaphoreCallersFacts.

(** X5.  Callers of the semaphore lock (readers_writers_semaphore.cpp),
    any number of threads in [reader] and [writer], in any order of their
    moves: at most one writer is between [writer_lock] and
    [writer_unlock], and none while a reader is between [reader_lock] and
    [reader_unlock]; [reader_count] is the number of readers inside plus
    the one held up at [write_mutex]; [data] stays within 0..999; the
    assignment to [data] is made only by a writer that is alone inside;
    and nothing else changes [data]. *)
Theorem semaphore_callers_exclusive ms w :
  SemaphoreCallers.run ms SemaphoreCallers.init = Some w ->
  SemaphoreCallers.writing w <= 1 /\
  (0 < SemaphoreCallers.reading w -> SemaphoreCallers.writing w = 0) /\
  Semaphore.reader_count (SemaphoreCallers.lock w)
    = Z.of_nat (SemaphoreCallers.reading w
                + SemaphoreCallers.readers_at_write_mutex w) /\
  (0 <= SemaphoreCallers.data w < 1000)%Z /\
  (forall r w',
     SemaphoreCallers.advance (SemaphoreCallers.writer_stores r) w = Some w' ->
     SemaphoreCallers.writing w = 1 /\ SemaphoreCallers.reading w = 0 /\
     SemaphoreCallers.writers_taken w = 0) /\
  (forall m w', SemaphoreCallers.advance m w = Some w' ->
     SemaphoreCallers.data w' <> SemaphoreCallers.data w ->
     exists r, m = SemaphoreCallers.writer_stores r).
Proof.
  intros Hrun.
  pose proof (semaphore_run_consistent ms _ _ semaphore_init_consistent Hrun)
    as (H1 & H2 & H3 & H4 & H5 & H6 & H7 & H8 & H9).
  split_and!; try lia.
  - intros r w'. unfold SemaphoreCallers.advance.
    destruct (SemaphoreCallers.writing w); [done|]. lia.
  - intros m w' Hadv Hd. destruct m; try (by eexists); exfalso; apply Hd;
      revert Hadv; unfold SemaphoreCallers.advance;
      repeat case_match; try done; by intros [= <-].
Qed.

(** Two readers inside after a writer has come and gone: the counter is 2
    and no writer is inside. *)
Lemma semaphore_callers_exclusive_witness :
  exists w,
    SemaphoreCallers.run
      [SemaphoreCallers.writer_announces; SemaphoreCallers.writer_takes;
       SemaphoreCallers.writer_clears; SemaphoreCallers.writer_stores 4711;
       SemaphoreCallers.writer_leaves; SemaphoreCallers.reader_passes;
       SemaphoreCallers.reader_passes] SemaphoreCallers.init = Some w /\
    SemaphoreCallers.writing w = 0 /\
    Semaphore.reader_count (SemaphoreCallers.lock w) = 2%Z /\
    SemaphoreCallers.data w = 711%Z.
Proof.
  assert (Hrun : SemaphoreCallers.run
      [SemaphoreCallers.writer_announces; SemaphoreCallers.writer_takes;
       SemaphoreCallers.writer_clears; SemaphoreCallers.writer_stores 4711;
       SemaphoreCallers.writer_leaves; SemaphoreCallers.reader_passes;
       SemaphoreCallers.reader_passes] SemaphoreCallers.init
    = Some (SemaphoreCallers.mk (Semaphore.mk 1 0 1 2 false) 711 2 0 0 0 0 0))
    by (vm_compute; reflexivity).
  eexists. split; [exact Hrun|].
  split_and!; [|reflexivity|reflexivity].
  apply (proj1 (proj2 (semaphore_callers_exclusive _ _ Hrun))).
  cbn. lia.
Defined.

(** X6.  The semaphore lock can deadlock its callers.  After the moves of
    [schedule_to_deadlock] no thread can move, whether it is in the lock
    or arrives later; and in general a world reached by any moves is stuck
    exactly if a reader is held up at [sem_wait(&write_mutex)], holding
    [mutex] and [read_mutex], while a writer that holds [write_mutex] is
    at its second [sem_wait(&mutex)]. *)
Theorem semaphore_callers_can_deadlock :
  (exists w,
     SemaphoreCallers.run SemaphoreCallers.schedule_to_deadlock
       SemaphoreCallers.init = Some w /\
     forall m, SemaphoreCallers.advance m w = None) /\
  (forall ms w,
     SemaphoreCallers.run ms SemaphoreCallers.init = Some w ->
     (forall m, SemaphoreCallers.advance m w = None) <->
     SemaphoreCallers.readers_at_write_mutex w = 1 /\
     SemaphoreCallers.writers_taken w = 1).
Proof.
  assert (Hiff : forall ms w,
     SemaphoreCallers.run ms SemaphoreCallers.init = Some w ->
     (forall m, SemaphoreCallers.advance m w = None) <->
     SemaphoreCallers.readers_at_write_mutex w = 1 /\
     SemaphoreCallers.writers_taken w = 1).
  { intros ms w Hrun. apply semaphore_stuck_iff.
    by apply (semaphore_run_consistent ms _ _ semaphore_init_consistent). }
  split; [|exact Hiff].
  assert (Hrun : SemaphoreCallers.run SemaphoreCallers.schedule_to_deadlock
                   SemaphoreCallers.init
    = Some (SemaphoreCallers.mk (Semaphore.mk 0 0 0 1 false) 0 0 0 0 1 0 1))
    by (vm_compute; reflexivity).
  eexists. split; [exact Hrun|].
  apply (Hiff _ _ Hrun). by split.
Qed.

(** X7.  Round trips through the semaphore lock when nothing is in the
    way (all three semaphores positive).  [writer_lock] followed by
    [writer_unlock] returns and puts the semaphores and the reader count
    back, but leaves [writer_waiting] false whatever it was before, so the
    announcement of another writer is lost.  A pass of [reader_lock] that
    reads [writer_waiting] as false, followed by [reader_unlock], returns
    and puts every field back. *)
Theorem semaphore_round_trips (s : Semaphore.state) :
  (0 < Semaphore.mutex s)%Z -> (0 < Semaphore.write_mutex s)%Z ->
  (0 < Semaphore.read_mutex s)%Z ->
  (returned (Semaphore.writer_lock s) = true /\
   state_of (Semaphore.writer_unlock (state_of (Semaphore.writer_lock s)))
     = Semaphore.set_writer_waiting false s) /\
  (Semaphore.writer_waiting s = false ->
   result_of (Semaphore.reader_lock_pass s) = Some false /\
   returned (Semaphore.reader_unlock
               (state_of (Semaphore.reader_lock_pass s))) = true /\
   state_of (Semaphore.reader_unlock
               (state_of (Semaphore.reader_lock_pass s))) = s).
Proof.
  destruct s as [mu wm rm rc ww]. cbn. intros Hmu Hwm Hrm.
  split; [|intros ->]; sem_unfold;
    repeat (first [progress case_tests | progress sem_unfold]; try lia);
    split_and!; try done; f_equal; lia.
Qed.

(** From the initial fields, with a second writer's announcement standing:
    the round trip of the first writer erases it. *)
Lemma semaphore_round_trips_witness :
  state_of (Semaphore.writer_unlock
              (state_of (Semaphore.writer_lock (Semaphore.mk 1 1 1 0 true))))
    = Semaphore.mk 1 1 1 0 false.
Proof.
  apply (semaphore_round_trips (Semaphore.mk 1 1 1 0 true)); cbn; lia.
Defined.
(** ** The condition-variable locks under their callers *)

Ltac callers_unfold :=
  cbv [Callers.advance Callers.placed Callers.settle Callers.deliver
       Callers.notify fold_left
       Callers.reader_in Callers.writer_in Callers.reader_sleeps
       Callers.writer_sleeps Callers.wake_all_readers Callers.wake_all_writers
       Callers.wake_one_reader Callers.wake_one_writer
       Callers.set_reading Callers.set_writing Callers.set_readers_asleep
       Callers.set_readers_woken Callers.set_writers_asleep
       Callers.set_writers_woken
       Callers.reading Callers.writing Callers.readers_asleep
       Callers.readers_woken Callers.writers_asleep Callers.writers_woken
       Callers.lock Callers.data Callers.threads_of Callers.idle
       Callers.attended id] in *.

Ltac case_cvs :=
  repeat match goal with
    | |- context [decide (?a = ?b)] =>
        destruct (decide (a = b)); [try discriminate|try done]
    end.

Ltac case_store :=
  try match goal with
    | |- context [(0 <=? ?a)%Z] =>
        destruct (Z.leb_spec 0 a);
        [pose proof (Z.rem_bound_pos a 1000 ltac:(lia) ltac:(lia))|]
    end.

Section CallersFacts.
Import Callers.
Context {St : Type}.
Variables (rcv wcv : CondVar).
Variables (rl rlw ru wl wlw wu : M St unit).

Lemma callers_run_invariant (I : world St -> Prop) :
  (forall m w w', I w -> advance rcv wcv rl rlw ru wl wlw wu m w = Some w' ->
                  I w') ->
  forall ms w w', I w -> run rcv wcv rl rlw ru wl wlw wu ms w = Some w' ->
                  I w'.
Proof.
  intros Hstep. induction ms as [|m ms IH]; intros w w' Hw; cbn [run].
  - by intros [= <-].
  - destruct (advance _ _ _ _ _ _ _ _ m w) as [w1|] eqn:E; [|done].
    apply IH. by apply (Hstep m w).
Qed.

Lemma callers_store m w w' :
  advance rcv wcv rl rlw ru wl wlw wu m w = Some w' ->
  data w' <> data w ->
  0 < writing (threads_of w) /\ exists r, m = writer_stores r.
Proof.
  intros Hadv Hd. destruct m;
    try (split; [|by eexists];
         revert Hadv; cbn [advance];
         destruct (writing (threads_of w)); [done|lia]);
    exfalso; apply Hd; revert Hadv; unfold advance, placed, settle;
    repeat case_match; try done; by intros [= <-].
Qed.
End CallersFacts.

Section MonitorCallersFacts.
Import Callers MonitorCallers.

Lemma monitor_advance_consistent m w w' :
  consistent w /\ attended (threads_of w) -> advance m w = Some w' ->
  consistent w' /\ attended (threads_of w').
Proof.
  destruct w as [[mm rc wac wrd wwr] d [r wr ra rw wa ww]].
  unfold consistent, attended.
  intros [(H1 & H2 & H3 & H4 & H5 & H6 & H7 & H8) [Ha Hb]].
  cbn [lock data threads_of reading writing readers_asleep readers_woken
       writers_asleep writers_woken Monitor.monitor_mutex
       Monitor.reader_count Monitor.writer_active Monitor.waiting_readers
       Monitor.waiting_writers] in *.
  subst mm rc wac wrd wwr.
  unfold advance.
  destruct wr as [|[|wr]]; [| |lia]; cbn [Nat.eqb] in *;
    destruct m; callers_unfold; mon_unfold; case_counts; try done;
    repeat (first [progress case_tests | progress mon_unfold]; try lia);
    case_cvs; case_store; try done;
    intros [= <-]; callers_unfold; mon_unfold; case_counts;
    cbn [Nat.eqb]; split_and!; try done; try lia.
Qed.

Lemma monitor_run_consistent ms w :
  run ms init = Some w -> consistent w /\ attended (threads_of w).
Proof.
  apply (callers_run_invariant _ _ _ _ _ _ _ _
           (fun w => consistent w /\ attended (threads_of w))).
  - apply monitor_advance_consistent.
  - unfold consistent, attended. cbn. split_and!; try done; lia.
Qed.
End MonitorCallersFacts.

(** X8.  Callers of the monitor (readers_writers_monitor.cpp), any number
    of threads in [reader] and [writer], whatever the order of their moves
    and of spurious wake-ups: the four counters are the numbers of threads
    at the places they stand for, at most one writer is between
    [start_write] and [end_write] and none while a reader is between
    [start_read] and [end_read], [data] stays within 0..999 and is changed
    only by the assignment of a writer that is inside. *)
Theorem monitor_callers_exclusive ms w :
  MonitorCallers.run ms MonitorCallers.init = Some w ->
  let s := Callers.lock w in
  let t := Callers.threads_of w in
  Monitor.monitor_mutex s = Unlocked /\
  Monitor.reader_count s = Z.of_nat (Callers.reading t) /\
  Monitor.writer_active s = (Callers.writing t =? 1) /\
  Monitor.waiting_readers s
    = Z.of_nat (Callers.readers_asleep t + Callers.readers_woken t) /\
  Monitor.waiting_writers s
    = Z.of_nat (Callers.writers_asleep t + Callers.writers_woken t) /\
  Callers.writing t <= 1 /\
  (0 < Callers.reading t -> Callers.writing t = 0) /\
  (0 <= Callers.data w < 1000)%Z /\
  (forall m w', MonitorCallers.advance m w = Some w' ->
     Callers.data w' <> Callers.data w ->
     Callers.writing t = 1 /\ Callers.reading t = 0 /\
     exists r, m = Callers.writer_stores r).
Proof.
  intros Hrun. cbv zeta.
  destruct (monitor_run_consistent ms w Hrun)
    as [(H1 & H2 & H3 & H4 & H5 & H6 & H7 & H8) _].
  split_and!; try assumption; try lia.
  intros m w' Hadv Hd.
  destruct (callers_store _ _ _ _ _ _ _ _ m w w' Hadv Hd) as [Hw Hr].
  split_and!; [lia| |done].
  destruct (Callers.reading (Callers.threads_of w)); [done|]. lia.
Qed.

(** A writer waits for two readers: the counters say so. *)
Lemma monitor_callers_exclusive_witness :
  exists w,
    MonitorCallers.run
      [Callers.reader_arrives; Callers.reader_arrives; Callers.writer_arrives]
      MonitorCallers.init = Some w /\
    Monitor.reader_count (Callers.lock w) = 2%Z /\
    Monitor.waiting_writers (Callers.lock w) = 1%Z /\
    Callers.writing (Callers.threads_of w) = 0.
Proof.
  assert (Hrun : MonitorCallers.run
      [Callers.reader_arrives; Callers.reader_arrives; Callers.writer_arrives]
      MonitorCallers.init
    = Some (Callers.mkWorld (Monitor.mk Unlocked 2 false 0 1) 0
              (Callers.mk 2 0 0 0 1 0))) by (vm_compute; reflexivity).
  eexists. split; [exact Hrun|].
  destruct (monitor_callers_exclusive _ _ Hrun)
    as (_ & H2 & _ & _ & H5 & _ & H7 & _).
  split_and!; [exact H2|exact H5|]. apply H7. cbn. lia.
Defined.

(** X9.  No caller of the monitor is left suspended: after any moves,
    every thread suspended in [start_read] or [start_write] has a thread
    that has still to move and will resume it, so when no thread is inside
    and none is on its way in, none is suspended. *)
Theorem monitor_no_caller_left_suspended ms w :
  MonitorCallers.run ms MonitorCallers.init = Some w ->
  Callers.attended (Callers.threads_of w) /\
  (Callers.idle (Callers.threads_of w) ->
   Callers.readers_asleep (Callers.threads_of w) = 0 /\
   Callers.writers_asleep (Callers.threads_of w) = 0).
Proof.
  intros Hrun. destruct (monitor_run_consistent ms w Hrun) as [_ Hatt].
  split; [done|]. destruct Hatt as [Ha Hb].
  intros (Hr & Hw & Hrw & Hww). lia.
Qed.

(** The writer suspended behind two readers is resumed when the second of
    them leaves. *)
Lemma monitor_no_caller_left_suspended_witness :
  exists w,
    MonitorCallers.run
      [Callers.reader_arrives; Callers.reader_arrives; Callers.writer_arrives;
       Callers.reader_leaves; Callers.reader_leaves]
      MonitorCallers.init = Some w /\
    Callers.writers_woken (Callers.threads_of w) = 1 /\
    Callers.attended (Callers.threads_of w).
Proof.
  assert (Hrun : MonitorCallers.run
      [Callers.reader_arrives; Callers.reader_arrives; Callers.writer_arrives;
       Callers.reader_leaves; Callers.reader_leaves]
      MonitorCallers.init
    = Some (Callers.mkWorld (Monitor.mk Unlocked 0 false 0 1) 0
              (Callers.mk 0 0 0 0 0 1))) by (vm_compute; reflexivity).
  eexists. split; [exact Hrun|]. split; [reflexivity|].
  apply (monitor_no_caller_left_suspended _ _ Hrun).
Defined.

Section EducationalCallersFacts.
Import Callers EducationalCallers.

Lemma educational_advance_consistent m w w' :
  consistent w /\ attended (threads_of w) -> advance m w = Some w' ->
  consistent w' /\ attended (threads_of w').
Proof.
  destruct w as [[mm rc wac wwr] d [r wr ra rw wa ww]].
  unfold consistent, attended.
  intros [(H1 & H2 & H3 & H4 & H5 & H6 & H7) [Ha Hb]].
  cbn [lock data threads_of reading writing readers_asleep readers_woken
       writers_asleep writers_woken Educational.mtx
       Educational.reader_count Educational.writer_active
       Educational.waiting_writers] in *.
  subst mm rc wac wwr.
  unfold advance.
  destruct wr as [|[|wr]]; [| |lia]; cbn [Nat.eqb] in *;
    destruct m; callers_unfold; edu_unfold; case_counts; try done;
    repeat (first [progress case_tests | progress edu_unfold]; try lia);
    case_cvs; case_store; try done;
    intros [= <-]; callers_unfold; edu_unfold; case_counts;
    cbn [Nat.eqb]; split_and!; try done; try lia.
Qed.

Lemma educational_run_consistent ms w :
  run ms init = Some w -> consistent w /\ attended (threads_of w).
Proof.
  apply (callers_run_invariant _ _ _ _ _ _ _ _
           (fun w => consistent w /\ attended (threads_of w))).
  - apply educational_advance_consistent.
  - unfold consistent, attended. cbn. split_and!; try done; lia.
Qed.
End EducationalCallersFacts.

(** X10.  Callers of the lock of readers_writers_educational.cpp, any
    number of threads in [reader] and [writer], whatever the order of
    their moves and of spurious wake-ups: [reader_count] is the number of
    readers inside, [waiting_writers] the number of writers in
    [write_lock], at most one writer is inside and none while a reader is,
    [data] stays within 0..999 and is changed only by the assignment of a
    writer that is inside. *)
Theorem educational_callers_exclusive ms w :
  EducationalCallers.run ms EducationalCallers.init = Some w ->
  let s := Callers.lock w in
  let t := Callers.threads_of w in
  Educational.mtx s = Unlocked /\
  Educational.reader_count s = Z.of_nat (Callers.reading t) /\
  Educational.writer_active s = (Callers.writing t =? 1) /\
  Educational.waiting_writers s
    = Z.of_nat (Callers.writers_asleep t + Callers.writers_woken t) /\
  Callers.writing t <= 1 /\
  (0 < Callers.reading t -> Callers.writing t = 0) /\
  (0 <= Callers.data w < 1000)%Z /\
  (forall m w', EducationalCallers.advance m w = Some w' ->
     Callers.data w' <> Callers.data w ->
     Callers.writing t = 1 /\ Callers.reading t = 0 /\
     exists r, m = Callers.writer_stores r).
Proof.
  intros Hrun. cbv zeta.
  destruct (educational_run_consistent ms w Hrun)
    as [(H1 & H2 & H3 & H4 & H5 & H6 & H7) _].
  split_and!; try assumption; try lia.
  intros m w' Hadv Hd.
  destruct (callers_store _ _ _ _ _ _ _ _ m w w' Hadv Hd) as [Hw Hr].
  split_and!; [lia| |done].
  destruct (Callers.reading (Callers.threads_of w)); [done|]. lia.
Qed.

(** A reader that arrives while a writer is inside is suspended and does
    not count as a reader. *)
Lemma educational_callers_exclusive_witness :
  exists w,
    EducationalCallers.run
      [Callers.writer_arrives; Callers.writer_stores 1234;
       Callers.reader_arrives]
      EducationalCallers.init = Some w /\
    Educational.reader_count (Callers.lock w) = 0%Z /\
    Callers.data w = 234%Z /\
    Callers.reading (Callers.threads_of w) = 0.
Proof.
  assert (Hrun : EducationalCallers.run
      [Callers.writer_arrives; Callers.writer_stores 1234;
       Callers.reader_arrives]
      EducationalCallers.init
    = Some (Callers.mkWorld (Educational.mk Unlocked 0 true 0) 234
              (Callers.mk 0 1 1 0 0 0))) by (vm_compute; reflexivity).
  eexists. split; [exact Hrun|].
  destruct (educational_callers_exclusive _ _ Hrun)
    as (_ & H2 & _ & _ & _ & _ & _ & _).
  split_and!; [exact H2|reflexivity|reflexivity].
Defined.

(** X11.  No caller of the lock of readers_writers_educational.cpp is left
    suspended: after any moves, every thread suspended in [read_lock] or
    [write_lock] has a thread that has still to move and will resume it,
    so when no thread is inside and none is on its way in, none is
    suspended. *)
Theorem educational_no_caller_left_suspended ms w :
  EducationalCallers.run ms EducationalCallers.init = Some w ->
  Callers.attended (Callers.threads_of w) /\
  (Callers.idle (Callers.threads_of w) ->
   Callers.readers_asleep (Callers.threads_of w) = 0 /\
   Callers.writers_asleep (Callers.threads_of w) = 0).
Proof.
  intros Hrun. destruct (educational_run_consistent ms w Hrun) as [_ Hatt].
  split; [done|]. destruct Hatt as [Ha Hb].
  intros (Hr & Hw & Hrw & Hww). lia.
Qed.

(** The reader suspended behind a writer is resumed when the writer
    leaves. *)
Lemma educational_no_caller_left_suspended_witness :
  exists w,
    EducationalCallers.run
      [Callers.writer_arrives; Callers.reader_arrives; Callers.writer_leaves]
      EducationalCallers.init = Some w /\
    Callers.readers_woken (Callers.threads_of w) = 1 /\
    Callers.attended (Callers.threads_of w).
Proof.
  assert (Hrun : EducationalCallers.run
      [Callers.writer_arrives; Callers.reader_arrives; Callers.writer_leaves]
      EducationalCallers.init
    = Some (Callers.mkWorld (Educational.mk Unlocked 0 false 0) 0
              (Callers.mk 0 0 0 1 0 0))) by (vm_compute; reflexivity).
  eexists. split; [exact Hrun|]. split; [reflexivity|].
  apply (educational_no_caller_left_suspended _ _ Hrun).
Defined.

Ltac wpc_unfold :=
  cbv [WriterPreferenceCallers.advance WriterPreferenceCallers.reader_enters
       WriterPreferenceCallers.writer_enters WriterPreferenceCallers.deliver
       WriterPreferenceCallers.write_lock_admit
       WriterPreferenceCallers.write_lock_admit_wake
       WriterPreferenceCallers.write_lock_admit_wait
       WriterPreferenceCallers.lock WriterPreferenceCallers.data
       WriterPreferenceCallers.threads_of
       WriterPreferenceCallers.readers_at_resource
       WriterPreferenceCallers.writers_at_resource
       WriterPreferenceCallers.writers_unlocking
       WriterPreferenceCallers.writers_notifying] in *;
  callers_unfold; wp_unfold.

Section WriterPreferenceCallersFacts.
Import Callers WriterPreferenceCallers.

(** The two parts of [write_lock] make up the function. *)
Lemma wp_write_lock_parts s :
  WriterPreference.write_lock s
    = (write_lock_admit ;; WriterPreference.lock_resource) s /\
  WriterPreference.write_lock_wake s
    = (write_lock_admit_wake ;; WriterPreference.lock_resource) s /\
  WriterPreference.write_unlock_resource s
    = (WriterPreference.unlock_resource ;; call (NotifyAll CV_write_cv)) s.
Proof.
  destruct s as [m r rc wa ww].
  split_and!; [| |reflexivity]; destruct m, r, wa; wpc_unfold;
    case_tests; reflexivity.
Qed.

Lemma wp_advance_consistent m w w' :
  consistent w /\ attended w -> advance m w = Some w' ->
  consistent w' /\ attended w'.
Proof.
  destruct w as [[mm rm rc wac wwr] d [r wr ra rw wa ww] rar war wu wn].
  unfold consistent, attended.
  cbn [lock data threads_of readers_at_resource writers_at_resource
       writers_unlocking writers_notifying
       reading writing readers_asleep readers_woken
       writers_asleep writers_woken WriterPreference.mtx
       WriterPreference.resource_mutex
       WriterPreference.reader_count WriterPreference.writer_active
       WriterPreference.waiting_writers].
  intros [(H1 & H2 & H3 & H4 & H5 & H6 & H7 & H8 & H9 & H10 & H11) [Ha Hb]].
  subst mm rm rc wac wwr.
  destruct rar as [|[|rar]]; try lia;
  destruct war as [|[|war]]; try lia;
  destruct wr as [|[|wr]]; try lia;
  destruct wu as [|[|wu]]; try lia;
  destruct r as [|r]; cbn [Nat.eqb Nat.min Nat.add] in *; try lia;
    destruct m; wpc_unfold; case_counts; try done;
    repeat (first [progress case_tests | progress wp_unfold]; try lia);
    case_cvs; case_store; try done;
    intros [= <-]; wpc_unfold; case_counts;
    cbn [Nat.eqb Nat.min Nat.add]; split_and!; try done; try lia.
Qed.

Lemma wp_run_invariant ms : forall w w',
  consistent w /\ attended w -> run ms w = Some w' ->
  consistent w' /\ attended w'.
Proof.
  induction ms as [|m ms IH]; intros w w' Hw; cbn [run].
  - by intros [= <-].
  - destruct (advance m w) as [w1|] eqn:E; [|done].
    apply IH. by apply (wp_advance_consistent m w).
Qed.

Lemma wp_run_consistent ms w :
  run ms init = Some w -> consistent w /\ attended w.
Proof.
  apply wp_run_invariant. unfold consistent, attended. cbn.
  split_and!; try done; lia.
Qed.

Lemma wp_store m w w' :
  advance m w = Some w' -> data w' <> data w ->
  0 < writing (threads_of w) /\ exists r, m = writer_stores r.
Proof.
  intros Hadv Hd. destruct m;
    try (split; [|by eexists];
         revert Hadv; cbn [advance];
         destruct (writing (threads_of w)); [done|lia]);
    exfalso; apply Hd; revert Hadv;
    unfold advance, reader_enters, writer_enters;
    repeat case_match; try done; by intros [= <-].
Qed.

(** In a consistent world the unlock calls find [resource_mutex] locked. *)
Lemma wp_unlock_finds_locked w :
  consistent w ->
  (0 < reading (threads_of w) ->
   (ReleaseUnowned L_resource_mutex
      ∉ trace_of (WriterPreference.read_unlock (lock w))) /\
   (ReleaseUnowned L_mtx
      ∉ trace_of (WriterPreference.read_unlock (lock w)))) /\
  (0 < writers_unlocking w ->
   trace_of (WriterPreference.unlock_resource (lock w))
     = [Release L_resource_mutex]).
Proof.
  destruct w as [[mm rm rc wac wwr] d [r wr ra rw wa ww] rar war wu wn].
  unfold consistent.
  cbn [lock data threads_of readers_at_resource writers_at_resource
       writers_unlocking writers_notifying
       reading writing readers_asleep readers_woken
       writers_asleep writers_woken WriterPreference.mtx
       WriterPreference.resource_mutex
       WriterPreference.reader_count WriterPreference.writer_active
       WriterPreference.waiting_writers].
  intros (H1 & H2 & H3 & H4 & H5 & H6 & H7 & H8 & H9 & H10 & H11).
  subst mm rm rc wac wwr.
  split; intros Hpos.
  - destruct r as [|r]; [lia|].
    destruct rar as [|[|rar]]; [|lia|lia].
    assert (wr = 0) as -> by lia. assert (wu = 0) as -> by lia.
    cbn [Nat.eqb Nat.min Nat.add]. wp_unfold.
    case_tests; wp_unfold; split; not_in_list.
  - assert (wu = 1) as -> by lia.
    assert (wr = 0) as -> by lia. assert (r = 0) as -> by lia.
    reflexivity.
Qed.
End WriterPreferenceCallersFacts.

(** X12.  Callers of the lock of readers_writers.cpp, any number of
    threads in [reader] and [writer], whatever the order of their moves
    and of spurious wake-ups: [reader_count] is the number of readers
    inside plus the one held up at [resource_mutex], [waiting_writers] the
    number of writers suspended or resumed in [write_lock],
    [writer_active] is set exactly while one writer is between its wait
    and its [write_unlock]; at most one writer is inside and none while a
    reader is; [data] stays within 0..999 and is changed only by the
    assignment of a writer that is inside. *)
Theorem writer_preference_callers_exclusive ms w :
  WriterPreferenceCallers.run ms WriterPreferenceCallers.init = Some w ->
  let s := WriterPreferenceCallers.lock w in
  let t := WriterPreferenceCallers.threads_of w in
  WriterPreference.reader_count s
    = Z.of_nat (Callers.reading t
                + WriterPreferenceCallers.readers_at_resource w) /\
  WriterPreference.waiting_writers s
    = Z.of_nat (Callers.writers_asleep t + Callers.writers_woken t) /\
  WriterPreference.writer_active s
    = (WriterPreferenceCallers.writers_at_resource w + Callers.writing t
       =? 1) /\
  Callers.writing t <= 1 /\
  (0 < Callers.reading t -> Callers.writing t = 0) /\
  (0 <= WriterPreferenceCallers.data w < 1000)%Z /\
  (forall m w', WriterPreferenceCallers.advance m w = Some w' ->
     WriterPreferenceCallers.data w' <> WriterPreferenceCallers.data w ->
     Callers.writing t = 1 /\ Callers.reading t = 0 /\
     exists r, m = WriterPreferenceCallers.writer_stores r).
Proof.
  intros Hrun. cbv zeta.
  destruct (wp_run_consistent ms w Hrun)
    as [(H1 & H2 & H3 & H4 & H5 & H6 & H7 & H8 & H9 & H10 & H11) _].
  split_and!; try assumption; try lia.
  intros m w' Hadv Hd.
  destruct (wp_store m w w' Hadv Hd) as [Hw Hr].
  split_and!; [lia|lia|done].
Qed.

(** A writer inside, a second writer suspended behind it, and a reader
    suspended behind both. *)
Lemma writer_preference_callers_exclusive_witness :
  exists w,
    WriterPreferenceCallers.run
      [WriterPreferenceCallers.writer_arrives;
       WriterPreferenceCallers.writer_gets_resource;
       WriterPreferenceCallers.writer_arrives;
       WriterPreferenceCallers.reader_arrives]
      WriterPreferenceCallers.init = Some w /\
    WriterPreference.reader_count (WriterPreferenceCallers.lock w) = 0%Z /\
    WriterPreference.waiting_writers (WriterPreferenceCallers.lock w) = 1%Z /\
    WriterPreference.writer_active (WriterPreferenceCallers.lock w) = true.
Proof.
  assert (Hrun : WriterPreferenceCallers.run
      [WriterPreferenceCallers.writer_arrives;
       WriterPreferenceCallers.writer_gets_resource;
       WriterPreferenceCallers.writer_arrives;
       WriterPreferenceCallers.reader_arrives]
      WriterPreferenceCallers.init
    = Some (WriterPreferenceCallers.mk
              (WriterPreference.mk Unlocked Locked 0 true 1) 0
              (Callers.mk 0 1 1 0 1 0) 0 0 0 0)) by (vm_compute; reflexivity).
  eexists. split; [exact Hrun|].
  destruct (writer_preference_callers_exclusive _ _ Hrun)
    as (H1 & H2 & H3 & _).
  split_and!; [exact H1|exact H2|exact H3].
Defined.

(** X13.  Under its callers the [resource_mutex] of readers_writers.cpp is
    locked exactly while readers are inside, or a writer is inside or has
    still to unlock it in [write_unlock]; [mtx] is held between moves only
    by a first reader that is held up at [resource_mutex]; and no
    [unlock()] is made on a mutex that is not locked: neither by a reader
    that leaves nor by a writer in [write_unlock]. *)
Theorem writer_preference_resource_mutex ms w :
  WriterPreferenceCallers.run ms WriterPreferenceCallers.init = Some w ->
  let s := WriterPreferenceCallers.lock w in
  let t := WriterPreferenceCallers.threads_of w in
  (WriterPreference.resource_mutex s = Locked <->
   0 < Callers.reading t \/ Callers.writing t = 1 \/
   WriterPreferenceCallers.writers_unlocking w = 1) /\
  (WriterPreference.mtx s = Locked <->
   WriterPreferenceCallers.readers_at_resource w = 1) /\
  (0 < Callers.reading t ->
   (ReleaseUnowned L_resource_mutex
      ∉ trace_of (WriterPreference.read_unlock s)) /\
   (ReleaseUnowned L_mtx ∉ trace_of (WriterPreference.read_unlock s))) /\
  (0 < WriterPreferenceCallers.writers_unlocking w ->
   trace_of (WriterPreference.unlock_resource s)
     = [Release L_resource_mutex]).
Proof.
  intros Hrun. cbv zeta.
  destruct (wp_run_consistent ms w Hrun) as [Hc _].
  destruct (wp_unlock_finds_locked w Hc) as [Hr Hu].
  destruct Hc as (H1 & H2 & H3 & H4 & H5 & H6 & H7 & H8 & H9 & H10 & H11).
  split_and!; [| |exact Hr|exact Hu].
  - rewrite H8.
    destruct (Nat.eqb_spec
      (1 `min` Callers.reading (WriterPreferenceCallers.threads_of w)
       + Callers.writing (WriterPreferenceCallers.threads_of w)
       + WriterPreferenceCallers.writers_unlocking w) 1);
      split; try done; lia.
  - rewrite H2.
    destruct (Nat.eqb_spec (WriterPreferenceCallers.readers_at_resource w) 1);
      split; try done; lia.
Qed.

(** A writer that has cleared [writer_active] but not yet unlocked
    [resource_mutex] holds up a first reader, which holds [mtx]. *)
Lemma writer_preference_resource_mutex_witness :
  exists w,
    WriterPreferenceCallers.run
      [WriterPreferenceCallers.writer_arrives;
       WriterPreferenceCallers.writer_gets_resource;
       WriterPreferenceCallers.writer_leaves;
       WriterPreferenceCallers.reader_arrives]
      WriterPreferenceCallers.init = Some w /\
    WriterPreferenceCallers.readers_at_resource w = 1 /\
    WriterPreference.mtx (WriterPreferenceCallers.lock w) = Locked /\
    trace_of (WriterPreference.unlock_resource
                (WriterPreferenceCallers.lock w))
      = [Release L_resource_mutex].
Proof.
  assert (Hrun : WriterPreferenceCallers.run
      [WriterPreferenceCallers.writer_arrives;
       WriterPreferenceCallers.writer_gets_resource;
       WriterPreferenceCallers.writer_leaves;
       WriterPreferenceCallers.reader_arrives]
      WriterPreferenceCallers.init
    = Some (WriterPreferenceCallers.mk
              (WriterPreference.mk Locked Locked 1 false 0) 0
              (Callers.mk 0 0 0 0 0 0) 1 0 1 0)) by (vm_compute; reflexivity).
  eexists. split; [exact Hrun|].
  destruct (writer_preference_resource_mutex _ _ Hrun)
    as (_ & H2 & _ & H4).
  split_and!; [reflexivity|by apply H2|]. apply H4. cbn. lia.
Defined.

(** X14.  No caller of the lock of readers_writers.cpp is left suspended:
    after any moves, every thread suspended on [write_cv] has a thread
    that has still to move and will resume it, so when no thread is inside
    and none is on its way in or out, none is suspended. *)
Theorem writer_preference_no_caller_left_suspended ms w :
  WriterPreferenceCallers.run ms WriterPreferenceCallers.init = Some w ->
  WriterPreferenceCallers.attended w /\
  (WriterPreferenceCallers.idle w ->
   Callers.readers_asleep (WriterPreferenceCallers.threads_of w) = 0 /\
   Callers.writers_asleep (WriterPreferenceCallers.threads_of w) = 0).
Proof.
  intros Hrun. destruct (wp_run_consistent ms w Hrun) as [_ Hatt].
  split; [done|]. destruct Hatt as [Ha Hb].
  intros ((Hr & Hw & Hrw & Hww) & H1 & H2 & H3 & H4). lia.
Qed.

(** The reader suspended behind a writer is resumed by the writer's
    [notify_all], the last thing the writer does. *)
Lemma writer_preference_no_caller_left_suspended_witness :
  exists w,
    WriterPreferenceCallers.run
      [WriterPreferenceCallers.writer_arrives;
       WriterPreferenceCallers.writer_gets_resource;
       WriterPreferenceCallers.reader_arrives;
       WriterPreferenceCallers.writer_leaves;
       WriterPreferenceCallers.writer_unlocks_resource;
       WriterPreferenceCallers.writer_notifies]
      WriterPreferenceCallers.init = Some w /\
    Callers.readers_woken (WriterPreferenceCallers.threads_of w) = 1 /\
    WriterPreferenceCallers.attended w.
Proof.
  assert (Hrun : WriterPreferenceCallers.run
      [WriterPreferenceCallers.writer_arrives;
       WriterPreferenceCallers.writer_gets_resource;
       WriterPreferenceCallers.reader_arrives;
       WriterPreferenceCallers.writer_leaves;
       WriterPreferenceCallers.writer_unlocks_resource;
       WriterPreferenceCallers.writer_notifies]
      WriterPreferenceCallers.init
    = Some (WriterPreferenceCallers.mk
              (WriterPreference.mk Unlocked Unlocked 0 false 0) 0
              (Callers.mk 0 0 0 1 0 0) 0 0 0 0)) by (vm_compute; reflexivity).
  eexists. split; [exact Hrun|]. split; [reflexivity|].
  apply (writer_preference_no_caller_left_suspended _ _ Hrun).
Defined.

Ltac rpc_unfold :=
  cbv [ReaderPreferenceCallers.advance ReaderPreferenceCallers.reader_enters
       ReaderPreferenceCallers.writer_enters ReaderPreferenceCallers.deliver
       ReaderPreferenceCallers.write_lock_admit
       ReaderPreferenceCallers.lock ReaderPreferenceCallers.data
       ReaderPreferenceCallers.threads_of
       ReaderPreferenceCallers.readers_at_resource
       ReaderPreferenceCallers.writers_at_resource
       ReaderPreferenceCallers.writers_unlocking
       ReaderPreferenceCallers.writers_notifying_readers
       ReaderPreferenceCallers.writers_notifying_writer] in *;
  callers_unfold; rp_unfold.

Section ReaderPreferenceCallersFacts.
Import Callers ReaderPreferenceCallers.

(** The parts of [write_lock] and of [write_unlock] make up the
    functions. *)
Lemma rp_write_lock_parts s :
  ReaderPreference.write_lock s
    = (write_lock_admit ;; ReaderPreference.lock_resource) s /\
  ReaderPreference.write_unlock_resource s
    = (ReaderPreference.unlock_resource ;;
       call (NotifyAll CV_reader_cv) ;; call (NotifyOne CV_writer_cv)) s.
Proof.
  destruct s as [m r rc wa].
  split; [|reflexivity]; destruct m, r, wa; rpc_unfold;
    case_tests; reflexivity.
Qed.

Lemma rp_advance_consistent m w w' :
  consistent w /\ attended w -> advance m w = Some w' ->
  consistent w' /\ attended w'.
Proof.
  destruct w as [[mm rm rc wac] d [r wr ra rw wa ww] rar war wu wnr wnw].
  unfold consistent, attended.
  cbn [lock data threads_of readers_at_resource writers_at_resource
       writers_unlocking writers_notifying_readers writers_notifying_writer
       reading writing readers_asleep readers_woken
       writers_asleep writers_woken ReaderPreference.mtx
       ReaderPreference.resource_mutex
       ReaderPreference.reader_count ReaderPreference.writer_active].
  intros [(H1 & H2 & H3 & H5 & H6 & H7 & H8 & H9 & H10 & H11) [Ha Hb]].
  subst mm rm rc wac.
  destruct rar as [|[|rar]]; try lia;
  destruct war as [|[|war]]; try lia;
  destruct wr as [|[|wr]]; try lia;
  destruct wu as [|[|wu]]; try lia;
  destruct r as [|r]; cbn [Nat.eqb Nat.min Nat.add] in *; try lia;
    destruct m; rpc_unfold; case_counts; try done;
    repeat (first [progress case_tests | progress rp_unfold]; try lia);
    case_cvs; case_store; try done;
    intros [= <-]; rpc_unfold; case_counts;
    cbn [Nat.eqb Nat.min Nat.add]; split_and!; try done; try lia.
Qed.

Lemma rp_run_invariant ms : forall w w',
  consistent w /\ attended w -> run ms w = Some w' ->
  consistent w' /\ attended w'.
Proof.
  induction ms as [|m ms IH]; intros w w' Hw; cbn [run].
  - by intros [= <-].
  - destruct (advance m w) as [w1|] eqn:E; [|done].
    apply IH. by apply (rp_advance_consistent m w).
Qed.

Lemma rp_run_consistent ms w :
  run ms init = Some w -> consistent w /\ attended w.
Proof.
  apply rp_run_invariant. unfold consistent, attended. cbn.
  split_and!; try done; lia.
Qed.

Lemma rp_store m w w' :
  advance m w = Some w' -> data w' <> data w ->
  0 < writing (threads_of w) /\ exists r, m = writer_stores r.
Proof.
  intros Hadv Hd. destruct m;
    try (split; [|by eexists];
         revert Hadv; cbn [advance];
         destruct (writing (threads_of w)); [done|lia]);
    exfalso; apply Hd; revert Hadv;
    unfold advance, reader_enters, writer_enters;
    repeat case_match; try done; by intros [= <-].
Qed.
End ReaderPreferenceCallersFacts.

Section ReaderPreferenceCallersFacts2.
Import Callers ReaderPreferenceCallers.

Lemma rp_unlock_finds_locked w :
  consistent w ->
  (0 < reading (threads_of w) ->
   (ReleaseUnowned L_resource_mutex
      ∉ trace_of (ReaderPreference.read_unlock (lock w))) /\
   (ReleaseUnowned L_mtx
      ∉ trace_of (ReaderPreference.read_unlock (lock w)))) /\
  (0 < writers_unlocking w ->
   trace_of (ReaderPreference.unlock_resource (lock w))
     = [Release L_resource_mutex]).
Proof.
  destruct w as [[mm rm rc wac] d [r wr ra rw wa ww] rar war wu wnr wnw].
  unfold consistent.
  cbn [lock data threads_of readers_at_resource writers_at_resource
       writers_unlocking writers_notifying_readers writers_notifying_writer
       reading writing readers_asleep readers_woken
       writers_asleep writers_woken ReaderPreference.mtx
       ReaderPreference.resource_mutex
       ReaderPreference.reader_count ReaderPreference.writer_active].
  intros (H1 & H2 & H3 & H5 & H6 & H7 & H8 & H9 & H10 & H11).
  subst mm rm rc wac.
  split; intros Hpos.
  - destruct r as [|r]; [lia|].
    destruct rar as [|[|rar]]; [|lia|lia].
    assert (wr = 0) as -> by lia. assert (wu = 0) as -> by lia.
    cbn [Nat.eqb Nat.min Nat.add]. rp_unfold.
    case_tests; rp_unfold; split; not_in_list.
  - assert (wu = 1) as -> by lia.
    assert (wr = 0) as -> by lia. assert (r = 0) as -> by lia.
    reflexivity.
Qed.

(** With a reader inside, another reader gets in at once and leaves again
    without a notification: the world is as before. *)
Lemma rp_relay_round w :
  consistent w -> 0 < reading (threads_of w) ->
  run [reader_arrives; reader_leaves] w = Some w.
Proof.
  destruct w as [[mm rm rc wac] d [r wr ra rw wa ww] rar war wu wnr wnw].
  unfold consistent.
  cbn [lock data threads_of readers_at_resource writers_at_resource
       writers_unlocking writers_notifying_readers writers_notifying_writer
       reading writing readers_asleep readers_woken
       writers_asleep writers_woken ReaderPreference.mtx
       ReaderPreference.resource_mutex
       ReaderPreference.reader_count ReaderPreference.writer_active].
  intros (H1 & H2 & H3 & H5 & H6 & H7 & H8 & H9 & H10 & H11) Hpos.
  subst mm rm rc wac.
  destruct r as [|r]; [lia|].
  destruct rar as [|[|rar]]; [|lia|lia].
  assert (war = 0) as -> by lia. assert (wr = 0) as -> by lia.
  assert (wu = 0) as -> by lia.
  cbn [Nat.eqb Nat.min Nat.add run]. rpc_unfold.
  repeat (first [progress case_tests | progress rpc_unfold]; try lia).
  do 3 f_equal. lia.
Qed.

Lemma rp_relay n w :
  consistent w -> 0 < reading (threads_of w) -> run (relay n) w = Some w.
Proof.
  intros Hc Hr. induction n as [|n IH]; [done|].
  pose proof (rp_relay_round w Hc Hr) as Hround.
  cbn [relay run] in *.
  destruct (advance reader_arrives w) as [w1|]; [|done].
  destruct (advance reader_leaves w1) as [w2|]; [|done].
  injection Hround as ->. exact IH.
Qed.
End ReaderPreferenceCallersFacts2.

(** X15.  Callers of the lock of readers_writers_readers_priority.cpp,
    any number of threads in [reader] and [writer], whatever the order of
    their moves and of spurious wake-ups: [reader_count] is the number of
    readers inside plus the one held up at [resource_mutex],
    [writer_active] is set exactly while one writer is between its wait
    and its [write_unlock]; at most one writer is inside and none while a
    reader is; [resource_mutex] is locked exactly while readers are
    inside, or a writer is inside or has still to unlock it, and no
    [unlock()] is made on a mutex that is not locked; [data] stays within
    0..999 and is changed only by the assignment of a writer that is
    inside. *)
Theorem reader_preference_callers_exclusive ms w :
  ReaderPreferenceCallers.run ms ReaderPreferenceCallers.init = Some w ->
  let s := ReaderPreferenceCallers.lock w in
  let t := ReaderPreferenceCallers.threads_of w in
  ReaderPreference.reader_count s
    = Z.of_nat (Callers.reading t
                + ReaderPreferenceCallers.readers_at_resource w) /\
  ReaderPreference.writer_active s
    = (ReaderPreferenceCallers.writers_at_resource w + Callers.writing t
       =? 1) /\
  Callers.writing t <= 1 /\
  (0 < Callers.reading t -> Callers.writing t = 0) /\
  (ReaderPreference.resource_mutex s = Locked <->
   0 < Callers.reading t \/ Callers.writing t = 1 \/
   ReaderPreferenceCallers.writers_unlocking w = 1) /\
  (0 < Callers.reading t ->
   (ReleaseUnowned L_resource_mutex
      ∉ trace_of (ReaderPreference.read_unlock s)) /\
   (ReleaseUnowned L_mtx ∉ trace_of (ReaderPreference.read_unlock s))) /\
  (0 < ReaderPreferenceCallers.writers_unlocking w ->
   trace_of (ReaderPreference.unlock_resource s)
     = [Release L_resource_mutex]) /\
  (0 <= ReaderPreferenceCallers.data w < 1000)%Z /\
  (forall m w', ReaderPreferenceCallers.advance m w = Some w' ->
     ReaderPreferenceCallers.data w' <> ReaderPreferenceCallers.data w ->
     Callers.writing t = 1 /\ Callers.reading t = 0 /\
     exists r, m = ReaderPreferenceCallers.writer_stores r).
Proof.
  intros Hrun. cbv zeta.
  destruct (rp_run_consistent ms w Hrun) as [Hc _].
  destruct (rp_unlock_finds_locked w Hc) as [Hr Hu].
  destruct Hc as (H1 & H2 & H3 & H5 & H6 & H7 & H8 & H9 & H10 & H11).
  split_and!; [exact H3|exact H6|lia|lia| |exact Hr|exact Hu|lia|lia|].
  - rewrite H8.
    destruct (Nat.eqb_spec
      (1 `min` Callers.reading (ReaderPreferenceCallers.threads_of w)
       + Callers.writing (ReaderPreferenceCallers.threads_of w)
       + ReaderPreferenceCallers.writers_unlocking w) 1);
      split; try done; lia.
  - intros m w' Hadv Hd.
    destruct (rp_store m w w' Hadv Hd) as [Hw Hr'].
    split_and!; [lia|lia|done].
Qed.

(** A reader inside and a writer suspended behind it: the mutex is locked
    and the reader's [read_unlock] will find it so. *)
Lemma reader_preference_callers_exclusive_witness :
  exists w,
    ReaderPreferenceCallers.run
      [ReaderPreferenceCallers.reader_arrives;
       ReaderPreferenceCallers.writer_arrives]
      ReaderPreferenceCallers.init = Some w /\
    ReaderPreference.reader_count (ReaderPreferenceCallers.lock w) = 1%Z /\
    ReaderPreference.resource_mutex (ReaderPreferenceCallers.lock w)
      = Locked /\
    Callers.writing (ReaderPreferenceCallers.threads_of w) = 0.
Proof.
  assert (Hrun : ReaderPreferenceCallers.run
      [ReaderPreferenceCallers.reader_arrives;
       ReaderPreferenceCallers.writer_arrives]
      ReaderPreferenceCallers.init
    = Some (ReaderPreferenceCallers.mk
              (ReaderPreference.mk Unlocked Locked 1 false) 0
              (Callers.mk 1 0 0 0 1 0) 0 0 0 0 0))
    by (vm_compute; reflexivity).
  eexists. split; [exact Hrun|].
  destruct (reader_preference_callers_exclusive _ _ Hrun)
    as (H1 & _ & _ & H4 & H5 & _).
  split_and!; [exact H1| |].
  - apply H5. left. cbn. lia.
  - apply H4. cbn. lia.
Defined.

(** X16.  No caller of the lock of readers_writers_readers_priority.cpp
    is left suspended: after any moves, every thread suspended on
    [reader_cv] or [writer_cv] has a thread that has still to move and
    will resume it, so when no thread is inside and none is on its way in
    or out, none is suspended. *)
Theorem reader_preference_no_caller_left_suspended ms w :
  ReaderPreferenceCallers.run ms ReaderPreferenceCallers.init = Some w ->
  ReaderPreferenceCallers.attended w /\
  (ReaderPreferenceCallers.idle w ->
   Callers.readers_asleep (ReaderPreferenceCallers.threads_of w) = 0 /\
   Callers.writers_asleep (ReaderPreferenceCallers.threads_of w) = 0).
Proof.
  intros Hrun. destruct (rp_run_consistent ms w Hrun) as [_ Hatt].
  split; [done|]. destruct Hatt as [Ha Hb].
  intros ((Hr & Hw & Hrw & Hww) & H1 & H2 & H3 & H4 & H5). lia.
Qed.

(** The writer suspended behind a reader is resumed by the [notify_one] of
    the reader's [read_unlock]. *)
Lemma reader_preference_no_caller_left_suspended_witness :
  exists w,
    ReaderPreferenceCallers.run
      [ReaderPreferenceCallers.reader_arrives;
       ReaderPreferenceCallers.writer_arrives;
       ReaderPreferenceCallers.reader_leaves]
      ReaderPreferenceCallers.init = Some w /\
    Callers.writers_woken (ReaderPreferenceCallers.threads_of w) = 1 /\
    ReaderPreferenceCallers.attended w.
Proof.
  assert (Hrun : ReaderPreferenceCallers.run
      [ReaderPreferenceCallers.reader_arrives;
       ReaderPreferenceCallers.writer_arrives;
       ReaderPreferenceCallers.reader_leaves]
      ReaderPreferenceCallers.init
    = Some (ReaderPreferenceCallers.mk
              (ReaderPreference.mk Unlocked Unlocked 0 false) 0
              (Callers.mk 0 0 0 0 0 1) 0 0 0 0 0))
    by (vm_compute; reflexivity).
  eexists. split; [exact Hrun|]. split; [reflexivity|].
  apply (reader_preference_no_caller_left_suspended _ _ Hrun).
Defined.

(** X17.  Under the lock of readers_writers_readers_priority.cpp readers
    that overlap keep writers out for as long as they like: in a world
    reached by any moves in which a reader is inside, any number of
    further readers can arrive and leave in turn, each getting in at
    once, and the world is the same afterwards; the writers suspended in
    [write_lock] are still suspended and none has been notified. *)
Theorem reader_preference_writers_can_starve ms w n :
  ReaderPreferenceCallers.run ms ReaderPreferenceCallers.init = Some w ->
  0 < Callers.reading (ReaderPreferenceCallers.threads_of w) ->
  ReaderPreferenceCallers.run (ReaderPreferenceCallers.relay n) w = Some w.
Proof.
  intros Hrun Hr. apply rp_relay; [|done].
  by destruct (rp_run_consistent ms w Hrun).
Qed.

(** A writer suspended behind one reader is still suspended after a
    hundred more readers have come and gone. *)
Lemma reader_preference_writers_can_starve_witness :
  ReaderPreferenceCallers.run
    ([ReaderPreferenceCallers.reader_arrives;
      ReaderPreferenceCallers.writer_arrives]
     ++ ReaderPreferenceCallers.relay 100)
    ReaderPreferenceCallers.init
  = Some (ReaderPreferenceCallers.mk
            (ReaderPreference.mk Unlocked Locked 1 false) 0
            (Callers.mk 1 0 0 0 1 0) 0 0 0 0 0).
Proof.
  assert (Hrun : ReaderPreferenceCallers.run
      [ReaderPreferenceCallers.reader_arrives;
       ReaderPreferenceCallers.writer_arrives]
      ReaderPreferenceCallers.init
    = Some (ReaderPreferenceCallers.mk
              (ReaderPreference.mk Unlocked Locked 1 false) 0
              (Callers.mk 1 0 0 0 1 0) 0 0 0 0 0))
    by (vm_compute; reflexivity).
  pose proof (reader_preference_writers_can_starve _ _ 100 Hrun) as Hrelay.
  change (ReaderPreferenceCallers.run
            (ReaderPreferenceCallers.reader_arrives
             :: ReaderPreferenceCallers.writer_arrives
             :: ReaderPreferenceCallers.relay 100)
            ReaderPreferenceCallers.init = Some
              (ReaderPreferenceCallers.mk
                 (ReaderPreference.mk Unlocked Locked 1 false) 0
                 (Callers.mk 1 0 0 0 1 0) 0 0 0 0 0)).
  cbn [ReaderPreferenceCallers.run] in *.
  destruct (ReaderPreferenceCallers.advance
              ReaderPreferenceCallers.reader_arrives
              ReaderPreferenceCallers.init) as [w1|]; [|done].
  destruct (ReaderPreferenceCallers.advance
              ReaderPreferenceCallers.writer_arrives w1) as [w2|]; [|done].
  injection Hrun as ->. apply Hrelay. cbn. lia.
Defined.
